(** * Contact-record verification engine: shallow embedding and proofs

    The development embeds the four Python modules of the engine

      - [email_validator.py]      (module [EmailValidator])
      - [web_utils.py]            (module [WebUtils])
      - [openai_verification.py]  (module [OpenAI])
      - [data_verification.py]    (module [DataVerification])

    as state-passing functions over one [state] record holding the
    module-level caches, the quota flag and a log of the external requests
    that were issued.  Everything outside the process (DNS, HTTP, the
    completion API, environment variables, the interpreter's string hash)
    is collected in a [World] record of oracles.

    Text is modelled by [string], holding its UTF-8 encoding.  Substring
    tests, prefixes, suffixes, splitting at an ASCII character and [len]
    (which counts code points) are Python's on all text.  Case folding and
    the character classes ([lower], [isalnum], [isspace]) are Python's on
    ASCII text ([Py.is_ascii]).
    A cell of a record is a [pyval]: [None], the float [nan] that pandas
    uses for a missing cell, or a string. *)

From Stdlib Require Import ZArith NArith Ascii String List Bool Lia.
From stdpp Require Import base gmap strings list pretty.

Local Open Scope string_scope.
Local Open Scope list_scope.

(** ** Python values and exceptions *)

Inductive pyval :=
| PNone
| PNaN
| PStr (s : string).

Inductive exn :=
| KeyError (key : string)
| AttributeError (msg : string)
| TypeError (msg : string)
| External (msg : string).

(** [str(e)] *)
Definition exn_str (e : exn) : string :=
  match e with
  | KeyError k => "'" +:+ k +:+ "'"
  | AttributeError m => m
  | TypeError m => m
  | External m => m
  end.

Inductive res (A : Type) :=
| Ok (a : A)
| Raise (e : exn).
Arguments Ok {A} a.
Arguments Raise {A} e.

(** What an external service answers: it fails with an error text, or it
    returns. *)
Inductive reply (A : Type) :=
| Fails (msg : string)
| Returns (a : A).
Arguments Fails {A} msg.
Arguments Returns {A} a.

(** ** Python string operations *)

Module Py.

Definition code (c : ascii) : N := N_of_ascii c.

Definition in_range (lo hi : N) (c : ascii) : bool :=
  ((lo <=? code c) && (code c <=? hi))%N.

(** the text is ASCII: every code point is below 128 *)
Definition is_ascii_char (c : ascii) : bool := (code c <? 128)%N.

Fixpoint is_ascii (s : string) : bool :=
  match s with
  | EmptyString => true
  | String c s' => is_ascii_char c && is_ascii s'
  end.

(** a byte that continues a code point of the UTF-8 encoding *)
Definition is_continuation (c : ascii) : bool := in_range 128 191 c.

Definition is_upper (c : ascii) : bool := in_range 65 90 c.
Definition is_lower (c : ascii) : bool := in_range 97 122 c.
Definition is_alpha (c : ascii) : bool := is_upper c || is_lower c.
Definition is_digit (c : ascii) : bool := in_range 48 57 c.

(** [c.isalnum()], for an ASCII character *)
Definition isalnum (c : ascii) : bool := is_alpha c || is_digit c.

(** [c.isspace()], as used by [str.split()] without a separator, for an
    ASCII character *)
Definition isspace (c : ascii) : bool :=
  in_range 9 13 c || in_range 28 32 c.

Definition lower_char (c : ascii) : ascii :=
  if is_upper c then ascii_of_N (code c + 32) else c.

(** [s.lower()], for ASCII text *)
Fixpoint lower (s : string) : string :=
  match s with
  | EmptyString => EmptyString
  | String c s' => String (lower_char c) (lower s')
  end.

(** [s.startswith(p)] *)
Fixpoint startswith (p s : string) : bool :=
  match p, s with
  | EmptyString, _ => true
  | String a p', String b s' => Ascii.eqb a b && startswith p' s'
  | String _ _, EmptyString => false
  end.

(** [needle in hay] *)
Fixpoint contains (needle hay : string) : bool :=
  startswith needle hay ||
  match hay with
  | EmptyString => false
  | String _ hay' => contains needle hay'
  end.

(** [s.endswith(p)] *)
Fixpoint endswith (p s : string) : bool :=
  String.eqb p s ||
  match s with
  | EmptyString => false
  | String _ s' => endswith p s'
  end.

(** [''.join(f(e) for e in s if keep(e))] *)
Fixpoint filter_map_chars (keep : ascii -> bool) (f : ascii -> ascii)
         (s : string) : string :=
  match s with
  | EmptyString => EmptyString
  | String c s' =>
      if keep c then String (f c) (filter_map_chars keep f s')
      else filter_map_chars keep f s'
  end.

(** [s.split(sep)] for a one-character separator *)
Fixpoint split_char (sep : ascii) (s : string) : list string :=
  match s with
  | EmptyString => [EmptyString]
  | String c s' =>
      if Ascii.eqb c sep then EmptyString :: split_char sep s'
      else match split_char sep s' with
           | x :: xs => String c x :: xs
           | [] => [String c EmptyString]
           end
  end.

(** [l[-1]] on a list of strings known to be non-empty *)
Definition last_item (l : list string) : string := List.last l EmptyString.

Definition cons_token (t : string) (ts : list string) : list string :=
  match t with
  | EmptyString => ts
  | _ => t :: ts
  end.

Fixpoint split_go (s : string) : string * list string :=
  match s with
  | EmptyString => (EmptyString, [])
  | String c s' =>
      let '(t, ts) := split_go s' in
      if isspace c then (EmptyString, cons_token t ts)
      else (String c t, ts)
  end.

(** [s.split()], for ASCII text *)
Definition split (s : string) : list string :=
  let '(t, ts) := split_go s in cons_token t ts.

(** the number of code points of a text: the bytes of its encoding that
    start one *)
Fixpoint code_points (s : string) : nat :=
  match s with
  | EmptyString => 0
  | String c s' => (if is_continuation c then 0 else 1) + code_points s'
  end.

(** [len(s)] *)
Definition len (s : string) : Z := Z.of_nat (code_points s).

(** truth value of a string *)
Definition nonempty (s : string) : bool :=
  match s with
  | EmptyString => false
  | _ => true
  end.

(** truth value of a cell: [None] and [''] are false, [nan] is true *)
Definition truthy (v : pyval) : bool :=
  match v with
  | PNone => false
  | PNaN => true
  | PStr s => nonempty s
  end.

(** [pd.isna(v)] *)
Definition isna (v : pyval) : bool :=
  match v with
  | PNone | PNaN => true
  | PStr _ => false
  end.

(** [v == ''] *)
Definition is_empty_str (v : pyval) : bool :=
  match v with
  | PStr EmptyString => true
  | _ => false
  end.

(** [str(v)], also the conversion an f-string applies *)
Definition str (v : pyval) : string :=
  match v with
  | PNone => "None"
  | PNaN => "nan"
  | PStr s => s
  end.

(** [str(b)] for a boolean *)
Definition str_bool (b : bool) : string := if b then "True" else "False".

Definition nl : string := String (ascii_of_N 10) EmptyString.

End Py.

(** ** Regular expressions, matched by derivatives *)

Module Regex.

Inductive regex :=
| Void
| Eps
| Cls (p : ascii -> bool)
| Cat (r1 r2 : regex)
| Alt (r1 r2 : regex)
| Star (r : regex).

Fixpoint nullable (r : regex) : bool :=
  match r with
  | Void => false
  | Eps => true
  | Cls _ => false
  | Cat r1 r2 => nullable r1 && nullable r2
  | Alt r1 r2 => nullable r1 || nullable r2
  | Star _ => true
  end.

Fixpoint deriv (c : ascii) (r : regex) : regex :=
  match r with
  | Void => Void
  | Eps => Void
  | Cls p => if p c then Eps else Void
  | Cat r1 r2 =>
      if nullable r1 then Alt (Cat (deriv c r1) r2) (deriv c r2)
      else Cat (deriv c r1) r2
  | Alt r1 r2 => Alt (deriv c r1) (deriv c r2)
  | Star r1 => Cat (deriv c r1) (Star r1)
  end.

(** the whole of [s] is in the language of [r] *)
Fixpoint fullmatch (r : regex) (s : string) : bool :=
  match s with
  | EmptyString => nullable r
  | String c s' => fullmatch (deriv c r) s'
  end.

Definition Plus (r : regex) : regex := Cat r (Star r).
Definition Chr (c : ascii) : regex := Cls (Ascii.eqb c).

(** [re.match('^' + r + '$', s)]: without the MULTILINE flag [$] matches
    at the end of the string and also just before a final newline. *)
Definition match_anchored (r : regex) (s : string) : bool :=
  fullmatch (Cat r (Alt Eps (Chr (ascii_of_N 10)))) s.

End Regex.

(** ** The outside world *)

(** One organic result of the search API's JSON answer; a key that is
    missing from the object is [None]. *)
Record organic_result := {
  title : option string;
  snippet : option string;
  link : option string
}.

Inductive kg_value :=
| KgStr (s : string)
| KgOther.

(** The search API's JSON answer. *)
Record serp_data := {
  organic_results : option (list organic_result);
  knowledge_graph : option (list (string * kg_value))
}.

(** One [div.result__body] of the public search page: the text of its
    [a.result__a] element, the text of its [a.result__snippet] element, and
    the address the result points to. *)
Record ddg_result := {
  result__a : option string;
  result__snippet : option string;
  result__href : string
}.

Record ai_request := {
  model : string;
  system_message : string;
  prompt : string;
  max_tokens : Z
}.

(** The JSON object the completion API answers with; a missing key is
    [None]. *)
Record ai_result := {
  status : option pyval;
  reason : option pyval
}.

Record World := {
  (** configuration read from the environment *)
  OPENAI_API_KEY : string;
  ABSTRACT_API_KEY : option string;
  SERPAPI_KEY : option string;
  (** the interpreter's [hash] on strings *)
  py_hash : string -> Z;
  (** [dns.resolver.resolve(domain, 'MX')] and [(domain, 'A')]: [true] when
      the lookup returns, [false] when it raises *)
  resolve_MX : string -> bool;
  resolve_A : string -> bool;
  (** the deliverability API: status code and the [deliverability] entry *)
  abstract_api : string -> reply (Z * option string);
  (** [requests.head(url, timeout=5).status_code] *)
  requests_head : string -> reply Z;
  (** [trafilatura.fetch_url] and [trafilatura.extract] *)
  fetch_url : string -> reply (option string);
  extract : string -> reply (option string);
  (** the texts of the p, h1..h5 and li elements of the page at a URL *)
  get_tags : string -> reply (list string);
  (** the search API and the public search page *)
  serpapi_get : string -> reply serp_data;
  ddg_get : string -> reply (list ddg_result);
  (** [openai.chat.completions.create(...).choices[0].message.content] *)
  chat_completions : ai_request -> reply string;
  (** [json.loads] of such a content, read as an object with the optional
      entries [status] and [reason] *)
  json_loads : string -> reply ai_result
}.

(** External requests, as they are logged. *)
Inductive event :=
| DnsQuery (domain rdtype : string)
| HttpGet (url : string)
| HttpHead (url : string)
| FetchUrl (url : string)
| ChatCompletion (req : ai_request).

(** ** Process state: the module-level globals *)

Record state := {
  dns_cache : gmap string bool;
  validation_cache : gmap string pyval;
  web_cache : gmap string string;
  ai_cache : gmap string pyval;
  ai_quota_exceeded : bool;
  ai_error_message : string;
  calls : list event
}.

Definition initial_state : state := {|
  dns_cache := ∅;
  validation_cache := ∅;
  web_cache := ∅;
  ai_cache := ∅;
  ai_quota_exceeded := false;
  ai_error_message := "";
  calls := []
|}.

Definition set_dns_cache (f : gmap string bool -> gmap string bool) (s : state) : state :=
  {| dns_cache := f (dns_cache s); validation_cache := validation_cache s;
     web_cache := web_cache s; ai_cache := ai_cache s;
     ai_quota_exceeded := ai_quota_exceeded s;
     ai_error_message := ai_error_message s; calls := calls s |}.

Definition set_validation_cache (f : gmap string pyval -> gmap string pyval) (s : state) : state :=
  {| dns_cache := dns_cache s; validation_cache := f (validation_cache s);
     web_cache := web_cache s; ai_cache := ai_cache s;
     ai_quota_exceeded := ai_quota_exceeded s;
     ai_error_message := ai_error_message s; calls := calls s |}.

Definition set_web_cache (f : gmap string string -> gmap string string) (s : state) : state :=
  {| dns_cache := dns_cache s; validation_cache := validation_cache s;
     web_cache := f (web_cache s); ai_cache := ai_cache s;
     ai_quota_exceeded := ai_quota_exceeded s;
     ai_error_message := ai_error_message s; calls := calls s |}.

Definition set_ai_cache (f : gmap string pyval -> gmap string pyval) (s : state) : state :=
  {| dns_cache := dns_cache s; validation_cache := validation_cache s;
     web_cache := web_cache s; ai_cache := f (ai_cache s);
     ai_quota_exceeded := ai_quota_exceeded s;
     ai_error_message := ai_error_message s; calls := calls s |}.

Definition set_ai_quota_exceeded (b : bool) (s : state) : state :=
  {| dns_cache := dns_cache s; validation_cache := validation_cache s;
     web_cache := web_cache s; ai_cache := ai_cache s;
     ai_quota_exceeded := b;
     ai_error_message := ai_error_message s; calls := calls s |}.

Definition set_ai_error_message (m : string) (s : state) : state :=
  {| dns_cache := dns_cache s; validation_cache := validation_cache s;
     web_cache := web_cache s; ai_cache := ai_cache s;
     ai_quota_exceeded := ai_quota_exceeded s;
     ai_error_message := m; calls := calls s |}.

Definition log_call (ev : event) (s : state) : state :=
  {| dns_cache := dns_cache s; validation_cache := validation_cache s;
     web_cache := web_cache s; ai_cache := ai_cache s;
     ai_quota_exceeded := ai_quota_exceeded s;
     ai_error_message := ai_error_message s; calls := calls s ++ [ev] |}.

(** ** A state-and-exception monad for the embedded code *)

Definition M (A : Type) : Type := state -> res A * state.

Definition ret {A} (a : A) : M A := fun s => (Ok a, s).

Definition bind {A B} (m : M A) (f : A -> M B) : M B :=
  fun s => match m s with
           | (Ok a, s') => f a s'
           | (Raise e, s') => (Raise e, s')
           end.

Definition raise {A} (e : exn) : M A := fun s => (Raise e, s).

(** [try: m  except Exception as e: h e] *)
Definition try_except {A} (m : M A) (h : exn -> M A) : M A :=
  fun s => match m s with
           | (Ok a, s') => (Ok a, s')
           | (Raise e, s') => h e s'
           end.

Definition get {A} (f : state -> A) : M A := fun s => (Ok (f s), s).
Definition modify (f : state -> state) : M unit := fun s => (Ok tt, f s).

(** Issue an external request: log it, then return or raise as the world
    answers. *)
Definition request {A} (ev : event) (r : reply A) : M A :=
  fun s => match r with
           | Returns a => (Ok a, log_call ev s)
           | Fails msg => (Raise (External msg), log_call ev s)
           end.

(** A library call that stays inside the process: nothing is logged. *)
Definition local_call {A} (r : reply A) : M A :=
  match r with
  | Returns a => ret a
  | Fails msg => raise (External msg)
  end.

Notation "x <- m ;; k" := (bind m (fun x => k))
  (at level 100, m at next level, right associativity).
Notation "m ;;; k" := (bind m (fun _ => k))
  (at level 100, right associativity).

(** Verdict literals. *)
Definition Valid : pyval := PStr "Valid".
Definition Uncertain : pyval := PStr "Uncertain".
Definition Invalid : pyval := PStr "Invalid".

(** ** email_validator.py *)

Module EmailValidator.
Section WithWorld.
Context (w : World).

Import Regex.

Definition local_char (c : ascii) : bool :=
  Py.isalnum c || existsb (Ascii.eqb c) ["."; "_"; "%"; "+"; "-"]%char.

Definition domain_char (c : ascii) : bool :=
  Py.isalnum c || existsb (Ascii.eqb c) ["."; "-"]%char.

(** [[a-zA-Z0-9._%+-]+@[a-zA-Z0-9.-]+\.[a-zA-Z]{2,}] *)
Definition pattern : regex :=
  Cat (Plus (Cls local_char))
    (Cat (Chr "@")
       (Cat (Plus (Cls domain_char))
          (Cat (Chr ".")
             (Cat (Cls Py.is_alpha) (Cat (Cls Py.is_alpha) (Star (Cls Py.is_alpha))))))).

Definition is_valid_email_syntax (email : string) : bool :=
  if negb (Py.nonempty email) then false
  else match_anchored pattern email.

Definition verify_domain_mx (domain : string) : M bool :=
  cache <- get dns_cache ;;
  match cache !! domain with
  | Some b => ret b
  | None =>
      try_except
        (request (DnsQuery domain "MX")
           (if resolve_MX w domain then Returns tt else Fails "no MX answer") ;;;
         modify (set_dns_cache <[domain := true]>) ;;;
         ret true)
        (fun _ =>
           try_except
             (request (DnsQuery domain "A")
                (if resolve_A w domain then Returns tt else Fails "no A answer") ;;;
              modify (set_dns_cache <[domain := true]>) ;;;
              ret true)
             (fun _ =>
                modify (set_dns_cache <[domain := false]>) ;;;
                ret false))
  end.

Definition disposable_domains : list string :=
  [ "temp-mail.org"; "tempmail.com"; "throwawaymail.com"; "mailinator.com";
    "yopmail.com"; "guerrillamail.com"; "sharklasers.com"; "10minutemail.com";
    "trashmail.com"; "mailnesia.com"; "maildrop.cc"; "getairmail.com";
    "getnada.com"; "emailondeck.com"; "spamgourmet.com"; "fakeinbox.com";
    "tempinbox.com"; "temp-mail.ru"; "dispostable.com" ].

Definition is_disposable_domain (domain : string) : bool :=
  existsb (String.eqb (Py.lower domain)) disposable_domains.

Definition remember (email : string) (v : pyval) : M pyval :=
  modify (set_validation_cache <[email := v]>) ;;;
  ret v.

Definition validate_email (email : string) : M pyval :=
  cache <- get validation_cache ;;
  match cache !! email with
  | Some v => ret v
  | None =>
      if negb (is_valid_email_syntax email) then remember email Invalid
      else
        let domain := Py.last_item (Py.split_char "@" email) in
        has_mx <- verify_domain_mx domain ;;
        if negb has_mx then remember email Uncertain
        else if is_disposable_domain domain then remember email Invalid
        else
          match ABSTRACT_API_KEY w with
          | Some key =>
              if Py.nonempty key then
                let url := "https://emailvalidation.abstractapi.com/v1/?api_key="
                             +:+ key +:+ "&email=" +:+ email in
                try_except
                  (r <- request (HttpGet url) (abstract_api w url) ;;
                   let '(status_code, deliverability) := r in
                   if (status_code =? 200)%Z then
                     match deliverability with
                     | Some d =>
                         if String.eqb d "DELIVERABLE" then remember email Valid
                         else if String.eqb d "UNDELIVERABLE" then remember email Invalid
                         else remember email Uncertain
                     | None => remember email Uncertain
                     end
                   else remember email Uncertain)
                  (fun _ => remember email Uncertain)
              else remember email Valid
          | None => remember email Valid
          end
  end.

End WithWorld.
End EmailValidator.

(** ** web_utils.py *)

Module WebUtils.

Definition hex_digit (n : N) : ascii :=
  if (n <? 10)%N then ascii_of_N (48 + n) else ascii_of_N (55 + n).

Definition quote_safe (c : ascii) : bool :=
  Py.isalnum c || existsb (Ascii.eqb c) ["_"; "."; "-"; "~"; "/"]%char.

(** [urllib.parse.quote(s)] with its default [safe='/'] *)
Fixpoint quote (s : string) : string :=
  match s with
  | EmptyString => EmptyString
  | String c s' =>
      if quote_safe c then String c (quote s')
      else String "%" (String (hex_digit (Py.code c / 16))
                         (String (hex_digit (Py.code c mod 16)) (quote s')))
  end.

(** [v.lower()]: only strings have the method *)
Definition lower_val (v : pyval) : M string :=
  match v with
  | PStr s => ret (Py.lower s)
  | PNaN => raise (AttributeError "'float' object has no attribute 'lower'")
  | PNone => raise (AttributeError "'NoneType' object has no attribute 'lower'")
  end.

(** [urllib.parse.quote(v)]: a value that is no string is rejected *)
Definition quote_val (v : pyval) : M string :=
  match v with
  | PStr s => ret (quote s)
  | _ => raise (TypeError "quote_from_bytes() expected bytes")
  end.

Definition concat_strings (l : list string) : string :=
  fold_right String.append EmptyString l.

(** text of an optional string, for [if x:] tests *)
Definition opt_nonempty (o : option string) : bool :=
  match o with
  | Some s => Py.nonempty s
  | None => false
  end.

Section WithWorld.
Context (w : World).

Definition scrape_company_website (domain : pyval) : M string :=
  if negb (Py.truthy domain) then ret ""
  else
    match domain with
    | PStr d =>
        let url := if Py.startswith "http" d then d else "https://" +:+ d in
        try_except
          (downloaded <- request (FetchUrl url) (fetch_url w url) ;;
           match downloaded with
           | Some doc =>
               if Py.nonempty doc then
                 text <- local_call (extract w doc) ;;
                 if opt_nonempty text then ret (default "" text)
                 else
                   tags <- request (HttpGet url) (get_tags w url) ;;
                   ret (concat_strings (map (fun t => t +:+ Py.nl) tags))
               else ret ""
           | None => ret ""
           end)
          (fun _ => ret "")
    | _ => raise (AttributeError "'float' object has no attribute 'startswith'")
    end.

Definition format_organic (r : organic_result) : string :=
  default "" (title r) +:+ Py.nl +:+ default "" (snippet r) +:+ Py.nl
    +:+ default "" (link r) +:+ Py.nl +:+ Py.nl.

Definition format_kg (kv : string * kg_value) : string :=
  match snd kv with
  | KgStr v => fst kv +:+ ": " +:+ v +:+ Py.nl
  | KgOther => ""
  end.

Definition search_using_serpapi (company_name : pyval) (api_key : string) : M string :=
  try_except
    (encoded_query <- quote_val company_name ;;
     let url := "https://serpapi.com/search.json?q=" +:+ encoded_query
                  +:+ "&api_key=" +:+ api_key in
     data <- request (HttpGet url) (serpapi_get w url) ;;
     match organic_results data with
     | Some results =>
         let combined_text := concat_strings (map format_organic (firstn 3 results)) in
         match knowledge_graph data with
         | Some kg => ret (combined_text +:+ concat_strings (map format_kg kg))
         | None => ret combined_text
         end
     | None => ret ""
     end)
    (fun _ => ret "").

Definition format_ddg (r : ddg_result) : string :=
  default "No title" (result__a r) +:+ Py.nl
    +:+ default "No snippet" (result__snippet r) +:+ Py.nl +:+ Py.nl.

Definition search_using_duckduckgo (company_name : pyval) : M string :=
  try_except
    (let query := Py.str company_name +:+ " company information" in
     let encoded_query := quote query in
     let url := "https://html.duckduckgo.com/html/?q=" +:+ encoded_query in
     results <- request (HttpGet url) (ddg_get w url) ;;
     ret (concat_strings (map format_ddg (firstn 3 results))))
    (fun _ => ret "").

Definition search_for_company (company_name : pyval) : M string :=
  match SERPAPI_KEY w with
  | Some key =>
      if Py.nonempty key then search_using_serpapi company_name key
      else search_using_duckduckgo company_name
  | None => search_using_duckduckgo company_name
  end.

Definition get_company_info_from_web (company_name domain : pyval) : M string :=
  if negb (Py.truthy company_name) then ret ""
  else
    let cache_key := Py.str company_name +:+ "_" +:+ Py.str domain in
    cache <- get web_cache ;;
    match cache !! cache_key with
    | Some info => ret info
    | None =>
        site <- (if Py.truthy domain then
                   cl <- lower_val company_name ;;
                   dl <- lower_val domain ;;
                   if negb (String.eqb cl dl) then
                     try_except
                       (website_info <- scrape_company_website domain ;;
                        ret (if Py.nonempty website_info
                             then website_info +:+ Py.nl +:+ Py.nl else ""))
                       (fun _ => ret "")
                   else ret ""
                 else ret "") ;;
        found <- try_except (search_for_company company_name) (fun _ => ret "") ;;
        let combined_info := site +:+ found in
        modify (set_web_cache <[cache_key := combined_info]>) ;;;
        ret combined_info
    end.

End WithWorld.
End WebUtils.

(** ** Records

    A record is the single row of the data frame: its columns in order,
    each with its cell.  [row_data.iloc[0].to_dict()] is the same
    association list read as a dictionary. *)

Definition row : Type := list (string * pyval).

(** [row_data.iloc[0][col]], and [d[col]] on the dictionary *)
Fixpoint lookup_col (col : string) (r : row) : option pyval :=
  match r with
  | [] => None
  | (k, v) :: r' => if String.eqb k col then Some v else lookup_col col r'
  end.

(** [col in row_data.columns] *)
Definition has_col (col : string) (r : row) : bool :=
  match lookup_col col r with
  | Some _ => true
  | None => false
  end.

(** [verified_row[col] = v]: overwrite the column, or add it at the end *)
Fixpoint set_col (col : string) (v : pyval) (r : row) : row :=
  match r with
  | [] => [(col, v)]
  | (k, x) :: r' =>
      if String.eqb k col then (k, v) :: r' else (k, x) :: set_col col v r'
  end.

(** ** openai_verification.py *)

Module OpenAI.

Definition dquote : string := String (ascii_of_N 34) EmptyString.
Definition backslash : string := String (ascii_of_N 92) EmptyString.

Definition hex_lower (n : N) : ascii :=
  if (n <? 10)%N then ascii_of_N (48 + n) else ascii_of_N (87 + n).

(** one character of a JSON string literal, [ensure_ascii=True] *)
Definition escape_char (c : ascii) : string :=
  match Py.code c with
  | 92%N => backslash +:+ backslash
  | 34%N => backslash +:+ dquote
  | 8%N => backslash +:+ "b"
  | 12%N => backslash +:+ "f"
  | 10%N => backslash +:+ "n"
  | 13%N => backslash +:+ "r"
  | 9%N => backslash +:+ "t"
  | n =>
      if Py.in_range 32 126 c then String c EmptyString
      else backslash +:+ "u00" +:+ String (hex_lower (n / 16))
             (String (hex_lower (n mod 16)) EmptyString)
  end.

Fixpoint escape (s : string) : string :=
  match s with
  | EmptyString => EmptyString
  | String c s' => escape_char c +:+ escape s'
  end.

Definition dumps_str (s : string) : string := dquote +:+ escape s +:+ dquote.

Definition dumps_val (v : pyval) : string :=
  match v with
  | PNone => "null"
  | PNaN => "NaN"
  | PStr s => dumps_str s
  end.

Fixpoint join (sep : string) (l : list string) : string :=
  match l with
  | [] => EmptyString
  | [x] => x
  | x :: l' => x +:+ sep +:+ join sep l'
  end.

(** [json.dumps(row_data, default=str)] *)
Definition dumps (r : row) : string :=
  "{" +:+ join ", " (map (fun kv => dumps_str (fst kv) +:+ ": " +:+ dumps_val (snd kv)) r)
      +:+ "}".

(** a text given line by line *)
Definition lines (l : list string) : string := join Py.nl l.

Definition context_line (field_name : string) (kv : string * pyval) : string :=
  if negb (String.eqb (fst kv) field_name) && negb (Py.endswith "_status" (fst kv))
  then fst kv +:+ ": " +:+ Py.str (snd kv) +:+ Py.nl
  else "".

Definition job_title_checklist : string := lines
  [ "";
    "            ";
    "For this job title verification:";
    "1. Check if the job title is typical for the company's industry";
    "2. Consider the company size and whether such a position would exist there";
    "3. Verify if the job title aligns with the person's LinkedIn profile";
    "4. Look for any inconsistencies between the job title and other contact information";
    "5. Consider if the job title has appropriate seniority for the contact's other attributes";
    "" ].

Definition linkedin_checklist : string := lines
  [ "";
    "            ";
    "For this LinkedIn profile verification:";
    "1. Check if the URL format matches LinkedIn's standard format";
    "2. Verify if the profile name matches the contact's name";
    "3. Consider if the profile seems to belong to someone at the specified company";
    "4. Look for any inconsistencies with other contact information";
    "" ].

Definition company_checklist : string := lines
  [ "";
    "            ";
    "For this company verification:";
    "1. Check if the company name and domain align with each other";
    "2. Verify if the company appears to be legitimate based on industry and other details";
    "3. Consider if the company location matches the provided address information";
    "4. Look for any inconsistencies that might suggest the company is not valid";
    "" ].

Definition generic_checklist : string := lines
  [ "";
    "            ";
    "For this detailed verification:";
    "1. Check if the information is internally consistent with other contact details";
    "2. Verify if the information follows expected patterns and formats";
    "3. Consider if there are any red flags or unusual elements in the data";
    "4. Look for evidence that confirms or contradicts the information";
    "" ].

Definition output_instructions : string := lines
  [ "";
    "    ";
    "For example, for a company name, you would check if it seems like a real company that matches the industry and other information provided.";
    "For a person's name, you'd check if it seems like a realistic name that matches the company and role.";
    "For an address, you'd check if it appears to be a valid address format and is in the correct city/state.";
    "For a job title, you'd check if it seems appropriate for the company and industry.";
    "";
    "Respond with a JSON object containing:";
    "- A 'status' field with one of these values: 'Valid', 'Uncertain', or 'Invalid'";
    "- A 'reason' field explaining your decision with specific details";
    "" ].

Definition create_verification_prompt (field_name : string) (field_value : pyval)
           (row_data : row) (use_deep_search : bool) : string :=
  lines [ "I need to verify if this information is correct:";
          "Field: " +:+ field_name;
          "Value: " +:+ Py.str field_value;
          "";
          "Here's the context (other information about this contact):";
          "" ]
  +:+ WebUtils.concat_strings (map (context_line field_name) row_data)
  +:+ lines [ "";
              "Based on this information and your knowledge, analyze if the value for the field appears to be valid, uncertain, or invalid." ]
  +:+ (if use_deep_search then
         if String.eqb field_name "Contact Job Title" then job_title_checklist
         else if Py.contains "LinkedIn" field_name then linkedin_checklist
         else if existsb (String.eqb field_name) ["Company Name"; "Company Domain"]
              then company_checklist
         else generic_checklist
       else "")
  +:+ output_instructions.

Definition system_message_for (field_name : string) (use_deep_search : bool) : string :=
  "You are a data verification expert specializing in contact and company information."
  +:+ (if use_deep_search && String.eqb field_name "Contact Job Title" then
         " You must verify job titles by considering company size, industry trends, and typical organizational structures."
       else if use_deep_search && Py.contains "LinkedIn" field_name then
         " You must verify LinkedIn profiles by examining URL patterns and consistency with other contact information."
       else "")
  +:+ " Your task is to verify if the given information appears to be accurate based on your knowledge and the context provided. Respond with a JSON object containing a 'status' field with one of these values: 'Valid', 'Uncertain', or 'Invalid', and a 'reason' field explaining your decision.".

(** the tests the two [except] blocks make on the error text *)
Definition quota_signature (error_msg : string) : bool :=
  Py.contains "quota" (Py.lower error_msg)
  || Py.contains "insufficient" (Py.lower error_msg).

Definition credential_signature (error_msg : string) : bool :=
  Py.contains "api key" (Py.lower error_msg)
  || Py.contains "apikey" (Py.lower error_msg).

Definition record_failure (e : exn) : M unit :=
  let error_msg := exn_str e in
  if quota_signature error_msg then
    modify (set_ai_quota_exceeded true) ;;;
    modify (set_ai_error_message
              "OpenAI API quota exceeded. Advanced verification has been disabled.")
  else if credential_signature error_msg then
    modify (set_ai_quota_exceeded true) ;;;
    modify (set_ai_error_message
              "Invalid OpenAI API key. Advanced verification has been disabled.")
  else
    modify (set_ai_error_message
              ("OpenAI API error: " +:+ error_msg
                 +:+ ". Some verification features may be limited.")).

Section WithWorld.
Context (w : World).

Definition make_request (field_name : string) (field_value : pyval)
           (row_data : row) (use_deep_search : bool) : ai_request :=
  {| model := if use_deep_search then "gpt-4" else "gpt-3.5-turbo";
     system_message := system_message_for field_name use_deep_search;
     prompt := create_verification_prompt field_name field_value row_data use_deep_search;
     max_tokens := if use_deep_search then 400 else 150 |}.

Definition cache_key (field_name : string) (field_value : pyval)
           (row_data : row) (use_deep_search : bool) : string :=
  field_name +:+ ":" +:+ Py.str field_value +:+ ":"
    +:+ pretty (py_hash w (dumps row_data)) +:+ ":" +:+ Py.str_bool use_deep_search.

Definition verify_contact_with_ai (field_name : string) (field_value : pyval)
           (row_data : row) (use_deep_search : bool) : M pyval :=
  exceeded <- get ai_quota_exceeded ;;
  if negb (Py.nonempty (OPENAI_API_KEY w)) || exceeded then ret Uncertain
  else
    let key := cache_key field_name field_value row_data use_deep_search in
    cache <- get ai_cache ;;
    match cache !! key with
    | Some v => ret v
    | None =>
        try_except
          (let req := make_request field_name field_value row_data use_deep_search in
           content <- request (ChatCompletion req) (chat_completions w req) ;;
           result <- local_call (json_loads w content) ;;
           let verdict := default Uncertain (status result) in
           modify (set_ai_cache <[key := verdict]>) ;;;
           ret verdict)
          (fun e => record_failure e ;;; ret Uncertain)
    end.

Definition ping_request : ai_request :=
  {| model := "gpt-3.5-turbo";
     system_message := "You are a helpful assistant.";
     prompt := "Return the word 'working' if you can read this.";
     max_tokens := 5 |}.

Definition check_api_status : M bool :=
  if negb (Py.nonempty (OPENAI_API_KEY w)) then
    modify (set_ai_error_message
              "No OpenAI API key found. Advanced verification is disabled.") ;;;
    ret false
  else
    exceeded <- get ai_quota_exceeded ;;
    if exceeded then ret false
    else
      try_except
        (request (ChatCompletion ping_request) (chat_completions w ping_request) ;;;
         ret true)
        (fun e => record_failure e ;;; ret false).

End WithWorld.
End OpenAI.

(** ** data_verification.py *)

Module DataVerification.
Section WithWorld.
Context (w : World).

(** [row_data.iloc[0][col]]; a column the frame does not have is a
    [KeyError] *)
Definition cell (col : string) (r : row) : M pyval :=
  match lookup_col col r with
  | Some v => ret v
  | None => raise (KeyError col)
  end.

(** The loop
    [for company_col in cols: if company_col in row_data.columns and not
    pd.isna(row_data.iloc[0][company_col]): company = ...; break]
    starting from [company = None]. *)
Fixpoint first_present (cols : list string) (r : row) : pyval :=
  match cols with
  | [] => PNone
  | company_col :: cols' =>
      match lookup_col company_col r with
      | Some v => if negb (Py.isna v) then v else first_present cols' r
      | None => first_present cols' r
      end
  end.

Definition resolve_company (r : row) : pyval :=
  first_present ["Company"; "Company Name"] r.

(** [row_data.iloc[0]["Company Domain"] if "Company Domain" in
    row_data.columns else None] *)
Definition company_domain_of (r : row) : pyval :=
  default PNone (lookup_col "Company Domain" r).

(** [company and not pd.isna(company) and company != ''] *)
Definition company_given (company : pyval) : bool :=
  Py.truthy company && negb (Py.isna company) && negb (Py.is_empty_str company).

Definition verify_name_against_company (first_name last_name company company_domain : pyval)
  : M pyval :=
  try_except
    (company_info <- WebUtils.get_company_info_from_web w company company_domain ;;
     let full_name := Py.lower (Py.str first_name +:+ " " +:+ Py.str last_name) in
     if Py.contains full_name (Py.lower company_info) then ret Valid
     else ret Uncertain)
    (fun _ => ret Uncertain).

Definition verify_company_exists (company company_domain : pyval) : M pyval :=
  try_except
    (company_info <- WebUtils.get_company_info_from_web w company company_domain ;;
     if (100 <? Py.len company_info)%Z then ret Valid
     else if (0 <? Py.len company_info)%Z then ret Uncertain
     else ret Invalid)
    (fun _ => ret Uncertain).

(** [''.join(e.lower() for e in s if e.isalnum())], for ASCII text *)
Definition simplified (s : string) : string :=
  Py.filter_map_chars Py.isalnum Py.lower_char s.

Definition verify_company_domain (domain company : pyval) : M pyval :=
  if negb (Py.truthy domain) || Py.isna domain || Py.is_empty_str domain
  then ret Uncertain
  else
    try_except
      (match domain with
       | PStr d =>
           if negb (Py.contains "." d) || Py.contains " " d then ret Invalid
           else
             let url := "https://" +:+ d in
             status_code <- request (HttpHead url) (requests_head w url) ;;
             if (status_code <? 400)%Z then
               if company_given company then
                 if Py.contains (simplified (Py.str company)) (simplified d)
                 then ret Valid
                 else ret Uncertain
               else ret Valid
             else ret Uncertain
       | _ => raise (TypeError "argument of type 'float' is not iterable")
       end)
      (fun _ => ret Uncertain).

Definition count_matches (parts : list string) (text : string) : Z :=
  Z.of_nat (List.length (List.filter (fun part => Py.contains part text) parts)).

Definition verify_address_component (component_type : string)
           (component_value company : pyval) (row_data : row)
           (use_ai use_deep_search : bool) : M pyval :=
  try_except
    (if company_given company then
       company_info <- WebUtils.get_company_info_from_web w company PNone ;;
       if String.eqb component_type "Company Address" then
         let address_parts := Py.split (Py.lower (Py.str component_value)) in
         let matches := count_matches address_parts (Py.lower company_info) in
         (* matches > len(address_parts) / 2, a true division *)
         if (Z.of_nat (List.length address_parts) <? 2 * matches)%Z then ret Valid
         else if (0 <? matches)%Z then ret Uncertain
         else ret Invalid
       else if existsb (String.eqb component_type)
                 ["Company City"; "Company State"; "Company Country"] then
         if Py.contains (Py.lower (Py.str component_value)) (Py.lower company_info)
         then ret Valid
         else if use_ai then
           OpenAI.verify_contact_with_ai w component_type component_value
             row_data use_deep_search
         else ret Uncertain
       else if String.eqb component_type "Company Postal Code" then
         if Py.contains (Py.str component_value) company_info then ret Valid
         else ret Uncertain
       else ret PNone
     else ret Uncertain)
    (fun _ => ret Uncertain).

Definition verify_industry (industry company : pyval) (use_ai use_deep_search : bool)
  : M pyval :=
  try_except
    (if company_given company then
       company_info <- WebUtils.get_company_info_from_web w company PNone ;;
       if Py.contains (Py.lower (Py.str industry)) (Py.lower company_info) then ret Valid
       else if use_ai then
         let row_dict := [("Company Name", company); ("Company Industry", industry)] in
         OpenAI.verify_contact_with_ai w "Company Industry" industry row_dict
           use_deep_search
       else ret Uncertain
     else ret Uncertain)
    (fun _ => ret Uncertain).

(** [validate_email] on a cell.  What is not a string fails the syntax
    check ([isinstance(email, str)]); such a cell is missing and never
    reaches the validator from [verify_data]. *)
Definition validate_email_cell (v : pyval) : M pyval :=
  match v with
  | PStr email => EmailValidator.validate_email w email
  | _ => ret Invalid
  end.

(** The body of the [try] in [verify_data]: the verdict for a column whose
    cell [value] is not empty. *)
Definition dispatch (row_data : row) (use_ai use_deep_search : bool)
           (col : string) (value : pyval) : M pyval :=
  if String.eqb col "Email" then validate_email_cell value
  else if existsb (String.eqb col) ["First Name"; "Last Name"] then
    let company := resolve_company row_data in
    let company_domain := company_domain_of row_data in
    if Py.truthy company then
      first_name <- cell "First Name" row_data ;;
      last_name <- cell "Last Name" row_data ;;
      verify_name_against_company first_name last_name company company_domain
    else ret Uncertain
  else if existsb (String.eqb col) ["Company"; "Company Name"] then
    verify_company_exists value (company_domain_of row_data)
  else if String.eqb col "Company Domain" then
    verify_company_domain value (resolve_company row_data)
  else if existsb (String.eqb col)
            ["Company Address"; "Company City"; "Company State";
             "Company Country"; "Company Postal Code"] then
    verify_address_component col value (resolve_company row_data) row_data
      use_ai use_deep_search
  else if existsb (String.eqb col) ["BYD_Industries"; "Company Industry"] then
    verify_industry value (resolve_company row_data) use_ai use_deep_search
  else if use_ai then
    OpenAI.verify_contact_with_ai w col value row_data use_deep_search
  else ret Uncertain.

Definition status_col (col : string) : string := col +:+ "_status".

(** One iteration of the loop over [columns_to_verify]. *)
Definition verify_column (row_data : row) (use_ai use_deep_search : bool)
           (col : string) (verified_row : row) : M row :=
  let verified_row := set_col (status_col col) Uncertain verified_row in
  value <- cell col row_data ;;
  if Py.isna value || Py.is_empty_str value then
    ret (set_col (status_col col) Uncertain verified_row)
  else
    try_except
      (verdict <- dispatch row_data use_ai use_deep_search col value ;;
       ret (set_col (status_col col) verdict verified_row))
      (fun _ => ret (set_col (status_col col) Uncertain verified_row)).

Fixpoint verify_columns (row_data : row) (use_ai use_deep_search : bool)
         (cols : list string) (verified_row : row) : M row :=
  match cols with
  | [] => ret verified_row
  | col :: cols' =>
      verified_row' <- verify_column row_data use_ai use_deep_search col verified_row ;;
      verify_columns row_data use_ai use_deep_search cols' verified_row'
  end.

Definition verify_data (row_data : row) (columns_to_verify : list string)
           (use_ai use_deep_search : bool) : M row :=
  verify_columns row_data use_ai use_deep_search columns_to_verify row_data.

End WithWorld.
End DataVerification.

(** * Vocabulary of the properties *)

(** ** Worlds used in examples *)

(** No credentials, every request fails, the hash is the length. *)
Definition offline : World := {|
  OPENAI_API_KEY := "";
  ABSTRACT_API_KEY := None;
  SERPAPI_KEY := None;
  py_hash := fun s => Z.of_nat (String.length s);
  resolve_MX := fun _ => false;
  resolve_A := fun _ => false;
  abstract_api := fun _ => Fails "connection refused";
  requests_head := fun _ => Fails "connection refused";
  fetch_url := fun _ => Returns None;
  extract := fun _ => Returns None;
  get_tags := fun _ => Fails "connection refused";
  serpapi_get := fun _ => Fails "connection refused";
  ddg_get := fun _ => Fails "connection refused";
  chat_completions := fun _ => Fails "connection refused";
  json_loads := fun _ => Fails "Expecting value: line 1 column 1 (char 0)"
|}.

(** [w] with another DNS. *)
Definition with_dns (mx a : string -> bool) (w : World) : World := {|
  OPENAI_API_KEY := OPENAI_API_KEY w;
  ABSTRACT_API_KEY := ABSTRACT_API_KEY w;
  SERPAPI_KEY := SERPAPI_KEY w;
  py_hash := py_hash w;
  resolve_MX := mx;
  resolve_A := a;
  abstract_api := abstract_api w;
  requests_head := requests_head w;
  fetch_url := fetch_url w;
  extract := extract w;
  get_tags := get_tags w;
  serpapi_get := serpapi_get w;
  ddg_get := ddg_get w;
  chat_completions := chat_completions w;
  json_loads := json_loads w
|}.

(** [w] with another answer to HEAD requests. *)
Definition with_head (head : string -> reply Z) (w : World) : World := {|
  OPENAI_API_KEY := OPENAI_API_KEY w;
  ABSTRACT_API_KEY := ABSTRACT_API_KEY w;
  SERPAPI_KEY := SERPAPI_KEY w;
  py_hash := py_hash w;
  resolve_MX := resolve_MX w;
  resolve_A := resolve_A w;
  abstract_api := abstract_api w;
  requests_head := head;
  fetch_url := fetch_url w;
  extract := extract w;
  get_tags := get_tags w;
  serpapi_get := serpapi_get w;
  ddg_get := ddg_get w;
  chat_completions := chat_completions w;
  json_loads := json_loads w
|}.

(** [w] with another public search page. *)
Definition with_ddg (page : string -> reply (list ddg_result)) (w : World) : World := {|
  OPENAI_API_KEY := OPENAI_API_KEY w;
  ABSTRACT_API_KEY := ABSTRACT_API_KEY w;
  SERPAPI_KEY := SERPAPI_KEY w;
  py_hash := py_hash w;
  resolve_MX := resolve_MX w;
  resolve_A := resolve_A w;
  abstract_api := abstract_api w;
  requests_head := requests_head w;
  fetch_url := fetch_url w;
  extract := extract w;
  get_tags := get_tags w;
  serpapi_get := serpapi_get w;
  ddg_get := page;
  chat_completions := chat_completions w;
  json_loads := json_loads w
|}.

(** [w] with a credentialed search API. *)
Definition with_serpapi (key : string) (api : string -> reply serp_data) (w : World) : World := {|
  OPENAI_API_KEY := OPENAI_API_KEY w;
  ABSTRACT_API_KEY := ABSTRACT_API_KEY w;
  SERPAPI_KEY := Some key;
  py_hash := py_hash w;
  resolve_MX := resolve_MX w;
  resolve_A := resolve_A w;
  abstract_api := abstract_api w;
  requests_head := requests_head w;
  fetch_url := fetch_url w;
  extract := extract w;
  get_tags := get_tags w;
  serpapi_get := api;
  ddg_get := ddg_get w;
  chat_completions := chat_completions w;
  json_loads := json_loads w
|}.

(** [w] with a completion API behind a credential. *)
Definition with_ai (key : string) (chat : ai_request -> reply string)
           (loads : string -> reply ai_result) (w : World) : World := {|
  OPENAI_API_KEY := key;
  ABSTRACT_API_KEY := ABSTRACT_API_KEY w;
  SERPAPI_KEY := SERPAPI_KEY w;
  py_hash := py_hash w;
  resolve_MX := resolve_MX w;
  resolve_A := resolve_A w;
  abstract_api := abstract_api w;
  requests_head := requests_head w;
  fetch_url := fetch_url w;
  extract := extract w;
  get_tags := get_tags w;
  serpapi_get := serpapi_get w;
  ddg_get := ddg_get w;
  chat_completions := chat;
  json_loads := loads
|}.

Definition tab : string := String (ascii_of_N 9) EmptyString.

(** ** The gatherer before its result is cached *)

Definition web_key (company_name domain : pyval) : string :=
  Py.str company_name +:+ "_" +:+ Py.str domain.

(** The two strategies of [get_company_info_from_web], site scrape then
    search, as the function runs them on a cache miss. *)
Definition gather (w : World) (company_name domain : pyval) : M string :=
  site <- (if Py.truthy domain then
             cl <- WebUtils.lower_val company_name ;;
             dl <- WebUtils.lower_val domain ;;
             if negb (String.eqb cl dl) then
               try_except
                 (website_info <- WebUtils.scrape_company_website w domain ;;
                  ret (if Py.nonempty website_info
                       then website_info +:+ Py.nl +:+ Py.nl else ""))
                 (fun _ => ret "")
             else ret ""
           else ret "") ;;
  found <- try_except (WebUtils.search_for_company w company_name) (fun _ => ret "") ;;
  ret (site +:+ found).

(** ** Company-domain checks *)

(** some character of [s] is white space *)
Fixpoint has_whitespace (s : string) : bool :=
  match s with
  | EmptyString => false
  | String c s' => Py.isspace c || has_whitespace s'
  end.

(** the reachability probe of a domain answers with a status below 400 *)
Definition probe_succeeds (w : World) (d : string) : bool :=
  match requests_head w ("https://" +:+ d) with
  | Returns status_code => (status_code <? 400)%Z
  | Fails _ => false
  end.

(** the company's alphanumeric lowercase form occurs in the domain's *)
Definition company_in_domain (company : pyval) (d : string) : bool :=
  Py.contains (DataVerification.simplified (Py.str company)) (DataVerification.simplified d).

(** ** Records used in examples *)

Definition two_companies : row :=
  [ ("Company", PStr "Initech");
    ("Company Name", PStr "Initrode");
    ("Company Domain", PStr "initrode.com") ].

Definition job_title_record : row :=
  [ ("Contact Job Title", PStr "Chief Vibes Officer") ].

(** ** Search pages and completions used in examples *)

Definition acme_page : list ddg_result :=
  [ {| result__a := Some "Acme Corp";
       result__snippet := Some "Anvils and more";
       result__href := "https://acme.example/" |} ].

Definition acme_serp : serp_data :=
  {| organic_results :=
       Some [ {| title := Some "Acme Corp";
                 snippet := Some "Anvils and more";
                 link := Some "https://acme.example/" |} ];
     knowledge_graph := None |}.

(** the page with every result pointing somewhere else *)
Definition relink (href : string) (page : list ddg_result) : list ddg_result :=
  map (fun r => {| result__a := result__a r;
                   result__snippet := result__snippet r;
                   result__href := href |}) page.

(** a completion whose [status] is none of the three verdicts *)
Definition maybe_content : string :=
  "{" +:+ OpenAI.dumps_str "status" +:+ ": " +:+ OpenAI.dumps_str "Maybe" +:+ ", "
      +:+ OpenAI.dumps_str "reason" +:+ ": " +:+ OpenAI.dumps_str "hard to tell" +:+ "}".

Definition maybe_world : World :=
  with_ai "sk-test"
    (fun _ => Returns maybe_content)
    (fun content =>
       if String.eqb content maybe_content
       then Returns {| status := Some (PStr "Maybe"); reason := Some (PStr "hard to tell") |}
       else Fails "Expecting value: line 1 column 1 (char 0)")
    offline.

(** ** Sessions

    A session is what one process does: a sequence of calls into the
    engine, each in the world as it is at that moment.  The states of a
    session are those reached from its first state. *)

Inductive op :=
| VerifyData (row_data : row) (columns_to_verify : list string) (use_ai use_deep_search : bool)
| Classify (field_name : string) (field_value : pyval) (row_data : row) (use_deep_search : bool)
| CheckApiStatus
| ValidateEmail (email : string)
| GatherEvidence (company_name domain : pyval).

Definition run (w : World) (o : op) (st : state) : state :=
  match o with
  | VerifyData r cols use_ai deep =>
      snd (DataVerification.verify_data w r cols use_ai deep st)
  | Classify field_name field_value r deep =>
      snd (OpenAI.verify_contact_with_ai w field_name field_value r deep st)
  | CheckApiStatus => snd (OpenAI.check_api_status w st)
  | ValidateEmail email => snd (EmailValidator.validate_email w email st)
  | GatherEvidence company_name domain =>
      snd (WebUtils.get_company_info_from_web w company_name domain st)
  end.

(** [session_from good st st']: [st'] is reached from [st] by calls made in
    worlds that satisfy [good]. *)
Inductive session_from (good : World -> Prop) (st : state) : state -> Prop :=
| session_start : session_from good st st
| session_step st1 w o :
    session_from good st st1 -> good w -> session_from good st (run w o st1).

Definition any_world (w : World) : Prop := True.

(** a computation keeps a property of the state, whether it returns or
    raises *)
Definition preserves {A} (P : state -> Prop) (m : M A) : Prop :=
  forall s, P s -> P (snd (m s)).

(** the breaker is tripped *)
Definition tripped (st : state) : Prop := ai_quota_exceeded st = true.

(** the error text carries a quota or a credential signature *)
Definition breaker_signature (error_msg : string) : bool :=
  OpenAI.quota_signature error_msg || OpenAI.credential_signature error_msg.

(** a completion API that refuses for lack of quota *)
Definition quota_world : World :=
  with_ai "sk-test"
    (fun _ => Fails "Error code: 429 - You exceeded your current quota, please check your plan and billing details.")
    (fun _ => Fails "Expecting value: line 1 column 1 (char 0)")
    offline.

(** ** Email validation *)

(** the domain has MX records or, failing that, A records *)
Definition resolvable (w : World) (domain : string) : bool :=
  resolve_MX w domain || resolve_A w domain.

(** [email.split('@')[-1]] *)
Definition email_domain (email : string) : string :=
  Py.last_item (Py.split_char "@" email).

(** two worlds with the same DNS *)
Definition same_dns (w w' : World) : Prop :=
  forall domain,
    resolve_MX w' domain = resolve_MX w domain /\
    resolve_A w' domain = resolve_A w domain.

(** What the first three steps of the validator decide, when they decide:
    syntax, then resolution, then the disposable providers. *)
Definition early_verdict (w : World) (email : string) : option pyval :=
  if negb (EmailValidator.is_valid_email_syntax email) then Some Invalid
  else if negb (resolvable w (email_domain email)) then Some Uncertain
  else if EmailValidator.is_disposable_domain (email_domain email) then Some Invalid
  else None.

(** The two caches of the validator say what the DNS of [w] says. *)
Definition email_caches_agree (w : World) (st : state) : Prop :=
  (forall domain b, dns_cache st !! domain = Some b -> b = resolvable w domain) /\
  (forall email v, validation_cache st !! email = Some v ->
                   forall x, early_verdict w email = Some x -> v = x).

(** Entries of the per-email cache for strings that fail the syntax check
    say [Invalid]. *)
Definition syntax_failures_invalid (st : state) : Prop :=
  forall email v,
    validation_cache st !! email = Some v ->
    EmailValidator.is_valid_email_syntax email = false -> v = Invalid.

(** neither the address nor its domain has an entry in the caches *)
Definition first_seen (email : string) (st : state) : Prop :=
  validation_cache st !! email = None /\ dns_cache st !! email_domain email = None.

(** a DNS in which only [mailinator.com] and [acme.com] resolve, by MX *)
Definition small_dns : World :=
  with_dns (fun d => String.eqb d "mailinator.com" || String.eqb d "acme.com")
           (fun _ => false) offline.

(** the state of a process that validated [x@mailinator.com] while no
    name resolved *)
Definition after_outage : state :=
  run offline (ValidateEmail "x@mailinator.com") initial_state.

(** ** Record contexts up to derived verdicts *)

(** the record without its [_status] entries *)
Definition strip_status (r : row) : row :=
  List.filter (fun kv => negb (Py.endswith "_status" (fst kv))) r.

(** a completion API that finds everything valid *)
Definition valid_content : string :=
  "{" +:+ OpenAI.dumps_str "status" +:+ ": " +:+ OpenAI.dumps_str "Valid" +:+ ", "
      +:+ OpenAI.dumps_str "reason" +:+ ": " +:+ OpenAI.dumps_str "plausible" +:+ "}".

Definition valid_world : World :=
  with_ai "sk-test"
    (fun _ => Returns valid_content)
    (fun content =>
       if String.eqb content valid_content
       then Returns {| status := Some (PStr "Valid"); reason := Some (PStr "plausible") |}
       else Fails "Expecting value: line 1 column 1 (char 0)")
    offline.

Definition job_title_record_verified : row :=
  job_title_record ++ [ ("Email_status", PStr "Valid") ].

(** the same process as [valid_world], with the network down *)
Definition offline_with_key : World :=
  with_ai "sk-test"
    (fun _ => Fails "connection refused")
    (fun _ => Fails "Expecting value: line 1 column 1 (char 0)")
    offline.

Definition sparse_record : row :=
  [ ("Email", PStr ""); ("Company Phone", PNaN); ("Contact Job Title", PStr "CEO") ].

(** the cell is missing or empty:
    [pd.isna(row_data.iloc[0][col]) or row_data.iloc[0][col] == ''] *)
Definition empty_cell (value : pyval) : bool := Py.isna value || Py.is_empty_str value.

(** ** Outcomes of computations *)

(** [returns P m Q]: started in a state with [P], [m] does not raise, its
    result has [Q] and the state it leaves has [P]. *)
Definition returns {A} (P : state -> Prop) (m : M A) (Q : A -> Prop) : Prop :=
  forall s, P s -> exists a s', m s = (Ok a, s') /\ Q a /\ P s'.

(** [yields P m Q]: started in a state with [P], [m] leaves a state with
    [P], and when it returns its result has [Q]. *)
Definition yields {A} (P : state -> Prop) (m : M A) (Q : A -> Prop) : Prop :=
  forall s, P s -> P (snd (m s)) /\ forall a, fst (m s) = Ok a -> Q a.

Definition anything {A} (a : A) : Prop := True.
Definition any_state (s : state) : Prop := True.

(** one of the three verdicts *)
Definition is_verdict (v : pyval) : Prop :=
  v = Valid \/ v = Uncertain \/ v = Invalid.

(** the verdict caches hold verdicts only *)
Definition verdict_caches (st : state) : Prop :=
  (forall email v, validation_cache st !! email = Some v -> is_verdict v) /\
  (forall key v, ai_cache st !! key = Some v -> is_verdict v).

(** the completion API answers with one of the three verdicts, or with no
    [status] at all *)
Definition recognized_statuses (w : World) : Prop :=
  forall content result,
    json_loads w content = Returns result ->
    match status result with
    | Some v => is_verdict v
    | None => True
    end.

(** every character of [s] satisfies [p] *)
Fixpoint all_chars (p : ascii -> bool) (s : string) : bool :=
  match s with
  | EmptyString => true
  | String c s' => p c && all_chars p s'
  end.

(** a character [urllib.parse.quote] leaves in its output *)
Definition url_char (c : ascii) : bool :=
  WebUtils.quote_safe c || Ascii.eqb c "%".

(** the event is a completion request *)
Definition is_chat (ev : event) : bool :=
  match ev with
  | ChatCompletion _ => true
  | _ => false
  end.

(** the event is a DNS query *)
Definition is_dns (ev : event) : bool :=
  match ev with
  | DnsQuery _ _ => true
  | _ => false
  end.

(** what the judge keeps between calls *)
Definition ai_state (st : state) : gmap string pyval * bool * string :=
  (ai_cache st, ai_quota_exceeded st, ai_error_message st).

(** the per-email cache holds verdicts only *)
Definition email_verdicts (st : state) : Prop :=
  forall email v, validation_cache st !! email = Some v -> is_verdict v.

(** the judge's cache holds verdicts only *)
Definition ai_verdicts (st : state) : Prop :=
  forall key v, ai_cache st !! key = Some v -> is_verdict v.

(** the address the deliverability API is asked at *)
Definition deliverability_url (key email : string) : string :=
  "https://emailvalidation.abstractapi.com/v1/?api_key=" +:+ key +:+ "&email=" +:+ email.

(** no deliverability credential is configured *)
Definition no_deliverability_key (w : World) : Prop :=
  ABSTRACT_API_KEY w = None \/ ABSTRACT_API_KEY w = Some "".

(** a world where [acme.com] has an A record only and deliverability is
    checked *)
Definition a_record_world : World := {|
  OPENAI_API_KEY := "";
  ABSTRACT_API_KEY := Some "abstract-key";
  SERPAPI_KEY := None;
  py_hash := fun s => Z.of_nat (String.length s);
  resolve_MX := fun _ => false;
  resolve_A := fun d => String.eqb d "acme.com";
  abstract_api := fun _ => Returns (200%Z, Some "DELIVERABLE");
  requests_head := fun _ => Fails "connection refused";
  fetch_url := fun _ => Returns None;
  extract := fun _ => Returns None;
  get_tags := fun _ => Fails "connection refused";
  serpapi_get := fun _ => Fails "connection refused";
  ddg_get := fun _ => Fails "connection refused";
  chat_completions := fun _ => Fails "connection refused";
  json_loads := fun _ => Fails "Expecting value: line 1 column 1 (char 0)"
|}.

(** ** Addresses *)

(** [local@domain.tld] *)
Definition address (l d t : string) : string :=
  l +:+ "@" +:+ d +:+ "." +:+ t.

(** a local part, a domain prefix and a top-level label the pattern takes *)
Definition address_parts (l d t : string) : Prop :=
  l <> "" /\ all_chars EmailValidator.local_char l = true /\
  d <> "" /\ all_chars EmailValidator.domain_char d = true /\
  all_chars Py.is_alpha t = true /\ 2 <= String.length t.

(** ** Search providers *)

(** the search request fails whichever provider is asked *)
Definition search_down (w : World) : Prop :=
  (forall url, exists msg, serpapi_get w url = Fails msg) /\
  (forall url, exists msg, ddg_get w url = Fails msg).

(** the search API's answer with other organic results *)
Definition with_results (results : list organic_result) (data : serp_data) : serp_data :=
  {| organic_results := Some results; knowledge_graph := knowledge_graph data |}.

Definition three_results : list ddg_result :=
  [ {| result__a := Some "Acme Corp"; result__snippet := Some "Anvils and more";
       result__href := "https://acme.example/" |};
    {| result__a := None; result__snippet := Some "Acme on the map";
       result__href := "https://maps.example/acme" |};
    {| result__a := Some "Acme - Wikipedia"; result__snippet := None;
       result__href := "https://wiki.example/Acme" |} ].

(** ** The judge *)



(** ** Records used in examples, continued *)

(** a record whose "Company" cell is the empty string *)
Definition hidden_company_record : row :=
  [ ("First Name", PStr "Jane"); ("Last Name", PStr "Doe");
    ("Company", PStr ""); ("Company Name", PStr "Acme Corp");
    ("Company City", PStr "Springfield"); ("Company Industry", PStr "Anvils") ].

(** a record whose "Company Domain" cell is missing *)
Definition missing_domain_record : row :=
  [ ("First Name", PStr "Jane"); ("Last Name", PStr "Doe");
    ("Company Name", PStr "Acme Corp"); ("Company Domain", PNaN) ].

(** the columns that are verified against the evidence of a company *)
Definition company_bound_columns : list string :=
  [ "First Name"; "Last Name"; "Company Address"; "Company City"; "Company State";
    "Company Country"; "Company Postal Code"; "BYD_Industries"; "Company Industry" ].

(** a world whose search page gives a short text *)
Definition short_evidence_world : World :=
  with_ddg (fun _ => Returns acme_page) offline.

(** a record with one field of every kind the orchestrator knows *)
Definition full_record : row :=
  [ ("First Name", PStr "Jane"); ("Last Name", PStr "Doe");
    ("Email", PStr "jane@acme.com"); ("Company Name", PStr "Acme Corp");
    ("Company Domain", PStr "acme.com"); ("Company Address", PStr "1 Anvils Road");
    ("Company City", PStr "Springfield"); ("Company Postal Code", PStr "12345");
    ("Company Industry", PStr "Anvils"); ("Contact Job Title", PStr "CEO") ].

Definition full_record_columns : list string :=
  [ "First Name"; "Last Name"; "Email"; "Company Name"; "Company Domain";
    "Company Address"; "Company City"; "Company Postal Code"; "Company Industry";
    "Contact Job Title" ].

(** * Proofs *)

(** ** The monad *)

Lemma try_except_total {A} (m : M A) (h : exn -> M A) s :
  (forall e s', exists a s'', h e s' = (Ok a, s'')) ->
  exists a s', try_except m h s = (Ok a, s').
Proof.
  intros Hh. unfold try_except. destruct (m s) as [[a|e] s']; eauto.
Qed.

(** ** Web evidence gatherer *)

Lemma get_company_info_unfold w company domain st :
  WebUtils.get_company_info_from_web w company domain st =
  if negb (Py.truthy company) then (Ok "", st)
  else match web_cache st !! web_key company domain with
       | Some info => (Ok info, st)
       | None =>
           match gather w company domain st with
           | (Ok x, st') => (Ok x, set_web_cache <[web_key company domain := x]> st')
           | (Raise e, st') => (Raise e, st')
           end
       end.
Proof.
  unfold WebUtils.get_company_info_from_web, gather, web_key.
  destruct (Py.truthy company); cbn [negb]; [|done].
  unfold bind at 1, get. destruct (web_cache st !! _); [done|].
  unfold bind, ret, modify.
  repeat match goal with
         | |- context [match ?x with _ => _ end] => destruct x eqn:?; try done
         end.
Qed.

(** A gather either raises before anything is requested, whatever the
    world, or returns. *)
Lemma gather_cases company domain :
  (exists e, forall w st, gather w company domain st = (Raise e, st)) \/
  (forall w st, exists x st', gather w company domain st = (Ok x, st')).
Proof.
  unfold gather.
  destruct (Py.truthy domain) eqn:Hd.
  - destruct company as [| |c]; try (left; eexists; intros; reflexivity).
    destruct domain as [| |d]; try (left; eexists; intros; reflexivity).
    right. intros w st. cbn [WebUtils.lower_val]. unfold bind at 1 2 3, ret at 1 2.
    destruct (negb _).
    + destruct (try_except_total
                  (website_info <- WebUtils.scrape_company_website w (PStr d);;
                   ret (if Py.nonempty website_info
                        then website_info +:+ Py.nl +:+ Py.nl else ""))
                  (fun _ => ret "") st) as (a & s1 & ->); [intros; unfold ret; eauto|].
      unfold bind.
      destruct (try_except_total (WebUtils.search_for_company w (PStr c))
                  (fun _ => ret "") s1) as (b & s2 & ->); [intros; unfold ret; eauto|].
      unfold ret. eauto.
    + unfold ret at 1. unfold bind.
      destruct (try_except_total (WebUtils.search_for_company w (PStr c))
                  (fun _ => ret "") st) as (b & s2 & ->); [intros; unfold ret; eauto|].
      unfold ret. eauto.
  - right. intros w st. unfold bind at 1, ret at 1. unfold bind.
    destruct (try_except_total (WebUtils.search_for_company w company)
                (fun _ => ret "") st) as (b & s2 & ->); [intros; unfold ret; eauto|].
    unfold ret. eauto.
Qed.

(** C9. The gatherer is memoized by (company name, domain): whatever the
    state and whatever the world answers, a second call with the same pair
    gives the same result as the first, issues no request and leaves the
    state as the first call left it. *)
Theorem C9_gather_memoized w1 w2 company domain st :
  let first := WebUtils.get_company_info_from_web w1 company domain st in
  let second := WebUtils.get_company_info_from_web w2 company domain (snd first) in
  fst second = fst first /\
  calls (snd second) = calls (snd first) /\
  snd second = snd first.
Proof.
  cbv zeta. rewrite !get_company_info_unfold.
  destruct (Py.truthy company) eqn:Hc; cbn [negb]; [|done].
  destruct (web_cache st !! _) as [info|] eqn:Hk; cbn [fst snd].
  - rewrite Hk. done.
  - destruct (gather_cases company domain) as [[e He]|Hok].
    + rewrite He. cbn [fst snd]. rewrite Hk, He. done.
    + destruct (Hok w1 st) as (x & st' & ->). cbn [fst snd].
      cbn [web_cache set_web_cache]. rewrite lookup_insert_eq. done.
Qed.

(** C10. With [None] or the empty string as company name the gatherer
    returns the empty string at once, for every domain: the state is
    unchanged, so nothing was requested and no cache entry was written. *)
Theorem C10_no_company_no_work w domain st :
  WebUtils.get_company_info_from_web w PNone domain st = (Ok "", st) /\
  WebUtils.get_company_info_from_web w (PStr "") domain st = (Ok "", st).
Proof. split; reflexivity. Qed.

(** ** Company domain *)

Lemma verify_company_domain_unfold w d company st :
  d <> "" ->
  DataVerification.verify_company_domain w (PStr d) company st =
  if negb (Py.contains "." d) || Py.contains " " d then (Ok Invalid, st)
  else match requests_head w ("https://" +:+ d) with
       | Returns status_code =>
           (Ok (if (status_code <? 400)%Z then
                  if DataVerification.company_given company then
                    if company_in_domain company d then Valid else Uncertain
                  else Valid
                else Uncertain),
            log_call (HttpHead ("https://" +:+ d)) st)
       | Fails _ => (Ok Uncertain, log_call (HttpHead ("https://" +:+ d)) st)
       end.
Proof.
  intros Hd. unfold DataVerification.verify_company_domain, company_in_domain.
  destruct d as [|c d']; [done|]. cbn [Py.truthy Py.nonempty Py.isna Py.is_empty_str negb orb].
  unfold try_except.
  destruct (negb (Py.contains "." (String c d')) || Py.contains " " (String c d')); [done|].
  unfold bind, request.
  destruct (requests_head w _) as [msg|code]; [done|].
  destruct (code <? 400)%Z; [|done].
  destruct (DataVerification.company_given company); [|done].
  destruct (Py.contains _ _); done.
Qed.

(** C5, as the code has it.  For every non-empty domain string verified as
    company domain: a value without a dot or with a space character is
    [Invalid], and nothing is requested; otherwise, when the probe succeeds
    and a company is given whose alphanumeric lowercase form occurs in the
    domain's, the verdict is [Valid]; when the probe succeeds and no company
    is given it is [Valid]; when the probe succeeds without such an
    occurrence, or the probe fails, it is [Uncertain].  The two cases that
    compare the alphanumeric lowercase forms are stated for a company name
    and a domain in ASCII, where [simplified] is Python's normalization. *)
Theorem C5_company_domain_verdict w d company st :
  d <> "" ->
  let out := DataVerification.verify_company_domain w (PStr d) company st in
  (Py.contains "." d = false \/ Py.contains " " d = true ->
   out = (Ok Invalid, st)) /\
  (Py.contains "." d = true -> Py.contains " " d = false ->
   (probe_succeeds w d = true -> DataVerification.company_given company = true ->
    Py.is_ascii d = true -> Py.is_ascii (Py.str company) = true ->
    company_in_domain company d = true -> fst out = Ok Valid) /\
   (probe_succeeds w d = true -> DataVerification.company_given company = false ->
    fst out = Ok Valid) /\
   (probe_succeeds w d = true -> DataVerification.company_given company = true ->
    Py.is_ascii d = true -> Py.is_ascii (Py.str company) = true ->
    company_in_domain company d = false -> fst out = Ok Uncertain) /\
   (probe_succeeds w d = false -> fst out = Ok Uncertain)).
Proof.
  intros Hd. cbv zeta. rewrite verify_company_domain_unfold by done.
  unfold probe_succeeds. split.
  - intros [-> | ->]; [done|]. by rewrite orb_true_r.
  - intros -> ->. cbn [negb orb].
    destruct (requests_head w _) as [msg|code]; cbn [fst].
    + repeat split; done.
    + repeat split; intros; repeat match goal with H : _ = _ |- _ => rewrite H end; done.
Qed.

Lemma C5_company_domain_verdict_witness :
  let w := with_head (fun _ => Returns 200%Z) offline in
  "acmecorp.com" <> "" /\
  fst (DataVerification.verify_company_domain w (PStr "acmecorp.com") (PStr "Acme Corp")
         initial_state) = Ok Valid /\
  fst (DataVerification.verify_company_domain w (PStr "acmecorp.com") (PStr "Widgets Inc")
         initial_state) = Ok Uncertain.
Proof.
  cbv zeta.
  assert (Hne : "acmecorp.com" <> "") by done.
  split; [exact Hne|].
  pose proof (C5_company_domain_verdict (with_head (fun _ => Returns 200%Z) offline)
                "acmecorp.com" (PStr "Acme Corp") initial_state Hne) as [_ Hacme].
  pose proof (C5_company_domain_verdict (with_head (fun _ => Returns 200%Z) offline)
                "acmecorp.com" (PStr "Widgets Inc") initial_state Hne) as [_ Hwidgets].
  destruct (Hacme eq_refl eq_refl) as (Hvalid & _).
  destruct (Hwidgets eq_refl eq_refl) as (_ & _ & Huncertain & _).
  split; [apply Hvalid | apply Huncertain]; reflexivity.
Defined.

(** C5 as stated fails: a domain with a tabulation contains white space,
    yet it passes the format check, which looks for the space character
    only; with the probe failing the verdict is [Uncertain]. *)
Lemma C5_counterexample :
  ~ (forall w d company st,
       d <> "" ->
       Py.contains "." d = false \/ has_whitespace d = true ->
       fst (DataVerification.verify_company_domain w (PStr d) company st) = Ok Invalid).
Proof.
  intros H.
  specialize (H offline ("acme" +:+ tab +:+ "corp.com") PNone initial_state).
  assert (Hne : "acme" +:+ tab +:+ "corp.com" <> "") by done.
  specialize (H Hne (or_intror eq_refl)).
  vm_compute in H. discriminate H.
Qed.

(** ** Company resolution *)

Lemma resolve_company_fallback r n :
  (lookup_col "Company" r = None \/
   exists v, lookup_col "Company" r = Some v /\ Py.isna v = true) ->
  lookup_col "Company Name" r = Some (PStr n) ->
  DataVerification.resolve_company r = PStr n.
Proof.
  intros Hc Hn. unfold DataVerification.resolve_company. cbn [DataVerification.first_present].
  destruct Hc as [-> | (v & -> & Hv)]; [|rewrite Hv; cbn [negb]]; by rewrite Hn.
Qed.

(** C8, as the code has it.  The company is looked up under "Company"
    first and under "Company Name" second: in every record that has both
    with non-empty, different values, the "Company" value is the company
    that person-name, company-domain, address-component and industry
    verification work with. *)
Theorem C8_company_column_first (r : row) (c n : string) :
  lookup_col "Company" r = Some (PStr c) ->
  lookup_col "Company Name" r = Some (PStr n) ->
  c <> "" -> n <> "" -> c <> n ->
  DataVerification.resolve_company r = PStr c /\
  (forall w use_ai deep col value,
      col = "First Name" \/ col = "Last Name" ->
      DataVerification.dispatch w r use_ai deep col value =
      (first_name <- DataVerification.cell "First Name" r ;;
       last_name <- DataVerification.cell "Last Name" r ;;
       DataVerification.verify_name_against_company w first_name last_name (PStr c)
         (DataVerification.company_domain_of r))) /\
  (forall w use_ai deep value,
      DataVerification.dispatch w r use_ai deep "Company Domain" value =
      DataVerification.verify_company_domain w value (PStr c)) /\
  (forall w use_ai deep col value,
      In col ["Company Address"; "Company City"; "Company State";
              "Company Country"; "Company Postal Code"] ->
      DataVerification.dispatch w r use_ai deep col value =
      DataVerification.verify_address_component w col value (PStr c) r use_ai deep) /\
  (forall w use_ai deep col value,
      In col ["BYD_Industries"; "Company Industry"] ->
      DataVerification.dispatch w r use_ai deep col value =
      DataVerification.verify_industry w value (PStr c) use_ai deep).
Proof.
  intros Hc Hn Hce Hne Hcn.
  assert (Hr : DataVerification.resolve_company r = PStr c).
  { unfold DataVerification.resolve_company. cbn [DataVerification.first_present].
    by rewrite Hc. }
  split; [exact Hr|].
  assert (Ht : Py.truthy (PStr c) = true) by (destruct c; done).
  repeat split.
  - intros w use_ai deep col value [-> | ->];
      unfold DataVerification.dispatch; cbn [String.eqb Ascii.eqb Bool.eqb existsb orb];
      rewrite Hr, Ht; reflexivity.
  - intros. unfold DataVerification.dispatch. cbn [String.eqb Ascii.eqb Bool.eqb existsb orb].
    by rewrite Hr.
  - intros w use_ai deep col value Hin. cbn [In] in Hin.
    destruct Hin as [<- | [<- | [<- | [<- | [<- | []]]]]];
      unfold DataVerification.dispatch; cbn [String.eqb Ascii.eqb Bool.eqb existsb orb];
      by rewrite Hr.
  - intros w use_ai deep col value Hin. cbn [In] in Hin.
    destruct Hin as [<- | [<- | []]];
      unfold DataVerification.dispatch; cbn [String.eqb Ascii.eqb Bool.eqb existsb orb];
      by rewrite Hr.
Qed.

Lemma C8_company_column_first_witness :
  DataVerification.resolve_company two_companies = PStr "Initech".
Proof.
  apply (C8_company_column_first two_companies "Initech" "Initrode");
    [reflexivity | reflexivity | discriminate | discriminate | discriminate].
Defined.

(** C8 as stated fails: with "Company" and "Company Name" both filled in,
    the "Company Name" value is not the one that is used.  The verdict for
    the domain shows it: "initrode.com" answers the probe and matches
    "Initrode", but it is compared with "Initech". *)
Lemma C8_counterexample :
  ~ (forall (r : row) (c n : string),
       lookup_col "Company" r = Some (PStr c) ->
       lookup_col "Company Name" r = Some (PStr n) ->
       c <> "" -> n <> "" -> c <> n ->
       DataVerification.resolve_company r = PStr n) /\
  (let w := with_head (fun _ => Returns 200%Z) offline in
   fst (DataVerification.verify_data w two_companies ["Company Domain"] false false
          initial_state)
   = Ok (two_companies ++ [("Company Domain_status", Uncertain)]) /\
   fst (DataVerification.verify_company_domain w (PStr "initrode.com") (PStr "Initrode")
          initial_state) = Ok Valid).
Proof.
  split.
  - intros H.
    specialize (H two_companies "Initech" "Initrode" eq_refl eq_refl).
    assert (Hx : DataVerification.resolve_company two_companies = PStr "Initrode")
      by (apply H; discriminate).
    vm_compute in Hx. discriminate Hx.
  - cbv zeta. split; vm_compute; reflexivity.
Qed.

(** ** Substrings of concatenations *)

Lemma startswith_app x b : Py.startswith x (x +:+ b) = true.
Proof.
  induction x as [|c x IH]; [done|].
  simpl. by rewrite Ascii.eqb_refl, IH.
Qed.

Lemma startswith_app_l x h b :
  Py.startswith x h = true -> Py.startswith x (h +:+ b) = true.
Proof.
  revert h. induction x as [|c x IH]; intros h H; [done|].
  destruct h as [|d h]; [done|]. simpl in *.
  apply andb_true_iff in H as [-> H]. by rewrite IH.
Qed.

Lemma contains_app_l x h b :
  Py.contains x h = true -> Py.contains x (h +:+ b) = true.
Proof.
  induction h as [|d h IH]; intros H.
  - simpl in H. rewrite orb_false_r in H.
    destruct x; [|done]. by destruct b.
  - simpl in H. apply orb_true_iff in H as [H | H].
    + change (String d h +:+ b) with (String d (h +:+ b)).
      cbn [Py.contains]. apply orb_true_iff. left.
      by apply (startswith_app_l x (String d h) b).
    + change (String d h +:+ b) with (String d (h +:+ b)).
      cbn [Py.contains]. apply orb_true_iff. right. by apply IH.
Qed.

Lemma contains_app_r x a h :
  Py.contains x h = true -> Py.contains x (a +:+ h) = true.
Proof.
  intros H. induction a as [|c a IH]; [done|].
  change (String c a +:+ h) with (String c (a +:+ h)).
  cbn [Py.contains]. apply orb_true_iff. by right.
Qed.

Lemma contains_self_app x b : Py.contains x (x +:+ b) = true.
Proof.
  destruct x as [|c x]; [by destruct b|].
  change (String c x +:+ b) with (String c (x +:+ b)).
  cbn [Py.contains]. apply orb_true_iff. left.
  apply (startswith_app (String c x) b).
Qed.

Lemma contains_concat_strings x s (l : list string) :
  In s l -> Py.contains x s = true -> Py.contains x (WebUtils.concat_strings l) = true.
Proof.
  intros Hin Hx. induction l as [|t l IH]; [done|].
  cbn [WebUtils.concat_strings fold_right]. destruct Hin as [-> | Hin].
  - by apply contains_app_l.
  - apply contains_app_r. by apply IH.
Qed.

(** The credentialed provider does what C6 says: when the search API
    answers with organic results, the evidence text holds title, snippet
    and link of each of the first three. *)
Lemma serpapi_evidence_has_triples w company key st url data results r :
  WebUtils.quote_val company st = (Ok url, st) ->
  serpapi_get w ("https://serpapi.com/search.json?q=" +:+ url +:+ "&api_key=" +:+ key)
  = Returns data ->
  organic_results data = Some results ->
  In r (firstn 3 results) ->
  exists text,
    fst (WebUtils.search_using_serpapi w company key st) = Ok text /\
    Py.contains (default "" (title r)) text = true /\
    Py.contains (default "" (snippet r)) text = true /\
    Py.contains (default "" (link r)) text = true.
Proof.
  intros Hq Hget Hres Hin.
  unfold WebUtils.search_using_serpapi, try_except, bind at 1. rewrite Hq.
  cbv zeta. unfold bind at 1, request. rewrite Hget, Hres.
  assert (Hfmt : forall x, Py.contains x (WebUtils.format_organic r) = true ->
                 Py.contains x (WebUtils.concat_strings
                                  (map WebUtils.format_organic (firstn 3 results))) = true).
  { intros x Hx. apply (contains_concat_strings x (WebUtils.format_organic r)); [|done].
    by apply in_map. }
  assert (Ht : Py.contains (default "" (title r)) (WebUtils.format_organic r) = true)
    by apply contains_self_app.
  assert (Hs : Py.contains (default "" (snippet r)) (WebUtils.format_organic r) = true).
  { unfold WebUtils.format_organic. do 2 apply contains_app_r. apply contains_self_app. }
  assert (Hl : Py.contains (default "" (link r)) (WebUtils.format_organic r) = true).
  { unfold WebUtils.format_organic. do 4 apply contains_app_r. apply contains_self_app. }
  destruct (knowledge_graph data) as [kg|]; eexists; (split; [reflexivity|]).
  - repeat split; apply contains_app_l; by apply Hfmt.
  - repeat split; by apply Hfmt.
Qed.

(** ** Search providers *)

Lemma format_ddg_relink href page :
  map WebUtils.format_ddg (firstn 3 (relink href page))
  = map WebUtils.format_ddg (firstn 3 page).
Proof.
  unfold relink. rewrite firstn_map, map_map. reflexivity.
Qed.

(** C6 fails on the fallback provider.  On a public search page with one
    result, the evidence text holds the result's title and snippet and not
    its link, and it is the same text wherever the results point; the
    credentialed provider puts the link of the same result into its text. *)
Theorem C6_fallback_omits_link :
  (fst (WebUtils.search_for_company (with_ddg (fun _ => Returns acme_page) offline)
          (PStr "Acme") initial_state)
   = Ok ("Acme Corp" +:+ Py.nl +:+ "Anvils and more" +:+ Py.nl +:+ Py.nl)) /\
  Py.contains "https://acme.example/"
    ("Acme Corp" +:+ Py.nl +:+ "Anvils and more" +:+ Py.nl +:+ Py.nl) = false /\
  (forall href company st,
      fst (WebUtils.search_using_duckduckgo
             (with_ddg (fun _ => Returns (relink href acme_page)) offline) company st)
      = fst (WebUtils.search_using_duckduckgo
               (with_ddg (fun _ => Returns acme_page) offline) company st)) /\
  (fst (WebUtils.search_for_company
          (with_serpapi "key" (fun _ => Returns acme_serp) offline)
          (PStr "Acme") initial_state)
   = Ok ("Acme Corp" +:+ Py.nl +:+ "Anvils and more" +:+ Py.nl
           +:+ "https://acme.example/" +:+ Py.nl +:+ Py.nl)).
Proof.
  split; [vm_compute; reflexivity|].
  split; [vm_compute; reflexivity|].
  split; [|vm_compute; reflexivity].
  intros href company st. reflexivity.
Qed.

(** ** AI judge: what is returned for an unrecognized status *)

(** C1 fails on the code.  A completion whose [status] is "Maybe" makes the
    judge return "Maybe" and store it in its cache, and [verify_data]
    commits it to the status column of a field that is delegated to the
    judge; "Maybe" is none of the three verdicts. *)
Theorem C1_unrecognized_status_committed :
  let out := OpenAI.verify_contact_with_ai maybe_world "Contact Job Title"
               (PStr "Chief Vibes Officer") job_title_record false initial_state in
  fst out = Ok (PStr "Maybe") /\
  ai_cache (snd out)
    !! OpenAI.cache_key maybe_world "Contact Job Title" (PStr "Chief Vibes Officer")
         job_title_record false = Some (PStr "Maybe") /\
  fst (DataVerification.verify_data maybe_world job_title_record ["Contact Job Title"]
         true false initial_state)
  = Ok (job_title_record ++ [("Contact Job Title_status", PStr "Maybe")]) /\
  ~ In (PStr "Maybe") [Valid; Uncertain; Invalid].
Proof.
  cbv zeta. split; [vm_compute; reflexivity|].
  split; [vm_compute; reflexivity|].
  split; [vm_compute; reflexivity|].
  cbn [In]. intros [H | [H | [H | []]]]; discriminate H.
Qed.

(** ** What computations preserve *)

Section Combinators.
Context {A B : Type} (P : state -> Prop).

Lemma preserves_ret (a : A) : preserves P (ret a).
Proof. intros s Hs. exact Hs. Qed.

Lemma preserves_raise (e : exn) : preserves P (@raise A e).
Proof. intros s Hs. exact Hs. Qed.

Lemma preserves_get (f : state -> A) : preserves P (get f).
Proof. intros s Hs. exact Hs. Qed.

Lemma preserves_modify (f : state -> state) :
  (forall s, P s -> P (f s)) -> preserves P (modify f).
Proof. intros Hf s Hs. apply Hf, Hs. Qed.

Lemma preserves_local_call (r : reply A) : preserves P (local_call r).
Proof. intros s Hs. destruct r; exact Hs. Qed.

Lemma preserves_request (ev : event) (r : reply A) :
  (forall ev s, P s -> P (log_call ev s)) -> preserves P (request ev r).
Proof. intros Hlog s Hs. unfold request. destruct r; apply Hlog, Hs. Qed.

Lemma preserves_bind (m : M A) (f : A -> M B) :
  preserves P m -> (forall a, preserves P (f a)) -> preserves P (bind m f).
Proof.
  intros Hm Hf s Hs. unfold bind. specialize (Hm s Hs).
  destruct (m s) as [[a|e] s']; cbn [snd] in *; [by apply Hf | done].
Qed.

Lemma preserves_try_except (m : M A) (h : exn -> M A) :
  preserves P m -> (forall e, preserves P (h e)) -> preserves P (try_except m h).
Proof.
  intros Hm Hh s Hs. unfold try_except. specialize (Hm s Hs).
  destruct (m s) as [[a|e] s']; cbn [snd] in *; [done | by apply Hh].
Qed.
End Combinators.

Ltac pres_step :=
  lazymatch goal with
  | |- preserves _ (bind _ _) => apply preserves_bind; [|intros]
  | |- preserves _ (try_except _ _) => apply preserves_try_except; [|intros]
  | |- preserves _ (ret _) => apply preserves_ret
  | |- preserves _ (raise _) => apply preserves_raise
  | |- preserves _ (get _) => apply preserves_get
  | |- preserves _ (local_call _) => apply preserves_local_call
  | |- preserves _ (request _ _) => apply preserves_request; solve [eauto]
  | |- preserves _ (modify _) => apply preserves_modify; solve [eauto]
  | |- preserves _ (if ?b then _ else _) => destruct b
  | |- preserves _ (match ?x with _ => _ end) => destruct x
  end.

Ltac pres := cbv zeta; repeat (pres_step; cbv zeta).

(** The email validator touches its two caches and the log. *)
Section EmailFrame.
Context (P : state -> Prop).
Hypothesis P_log : forall ev s, P s -> P (log_call ev s).
Hypothesis P_dns : forall f s, P s -> P (set_dns_cache f s).
Hypothesis P_val : forall f s, P s -> P (set_validation_cache f s).

Lemma preserves_verify_domain_mx w domain :
  preserves P (EmailValidator.verify_domain_mx w domain).
Proof.
  unfold EmailValidator.verify_domain_mx.
  apply preserves_bind; [apply preserves_get|]. intros cache.
  destruct (cache !! domain); pres.
Qed.

Lemma preserves_validate_email_frame w email :
  preserves P (EmailValidator.validate_email w email).
Proof.
  unfold EmailValidator.validate_email, EmailValidator.remember.
  apply preserves_bind; [apply preserves_get|]. intros cache.
  destruct (cache !! email); [apply preserves_ret|].
  destruct (negb _); [pres|].
  apply preserves_bind; [apply preserves_verify_domain_mx|]. intros has_mx.
  pres.
Qed.
End EmailFrame.

(** Everything else leaves the email caches alone. *)
Section Frame.
Context (P : state -> Prop) (good : World -> Prop).
Hypothesis P_log : forall ev s, P s -> P (log_call ev s).
Hypothesis P_web : forall f s, P s -> P (set_web_cache f s).
Hypothesis P_ai : forall f s, P s -> P (set_ai_cache f s).
Hypothesis P_msg : forall m s, P s -> P (set_ai_error_message m s).
Hypothesis P_trip : forall s, P s -> P (set_ai_quota_exceeded true s).
Hypothesis P_email :
  forall w email, good w -> preserves P (EmailValidator.validate_email w email).

Lemma preserves_scrape w domain :
  preserves P (WebUtils.scrape_company_website w domain).
Proof. unfold WebUtils.scrape_company_website. pres. Qed.

Lemma preserves_search w company :
  preserves P (WebUtils.search_for_company w company).
Proof.
  unfold WebUtils.search_for_company, WebUtils.search_using_serpapi,
    WebUtils.search_using_duckduckgo, WebUtils.quote_val.
  pres.
Qed.

Lemma preserves_gather_evidence w company domain :
  preserves P (WebUtils.get_company_info_from_web w company domain).
Proof.
  unfold WebUtils.get_company_info_from_web, WebUtils.lower_val.
  destruct (negb _); [apply preserves_ret|].
  apply preserves_bind; [apply preserves_get|]. intros cache.
  destruct (cache !! _); [apply preserves_ret|].
  apply preserves_bind.
  - destruct (Py.truthy domain); [|apply preserves_ret].
    apply preserves_bind; [destruct company; pres|]. intros cl.
    apply preserves_bind; [destruct domain; pres|]. intros dl.
    destruct (negb _); [|apply preserves_ret].
    apply preserves_try_except; [|intros; apply preserves_ret].
    apply preserves_bind; [apply preserves_scrape|]. intros. apply preserves_ret.
  - intros site. apply preserves_bind.
    + apply preserves_try_except; [apply preserves_search|intros; apply preserves_ret].
    + intros found. pres.
Qed.

Lemma preserves_record_failure e : preserves P (OpenAI.record_failure e).
Proof. unfold OpenAI.record_failure. pres. Qed.

Lemma preserves_classify w field_name field_value r deep :
  preserves P (OpenAI.verify_contact_with_ai w field_name field_value r deep).
Proof.
  unfold OpenAI.verify_contact_with_ai.
  apply preserves_bind; [apply preserves_get|]. intros exceeded.
  destruct (_ || _); [apply preserves_ret|].
  apply preserves_bind; [apply preserves_get|]. intros cache.
  destruct (cache !! _); [apply preserves_ret|].
  apply preserves_try_except.
  - pres.
  - intros e. apply preserves_bind; [apply preserves_record_failure|].
    intros. apply preserves_ret.
Qed.

Lemma preserves_check_api_status w : preserves P (OpenAI.check_api_status w).
Proof.
  unfold OpenAI.check_api_status.
  destruct (negb _); [pres|].
  apply preserves_bind; [apply preserves_get|]. intros exceeded.
  destruct exceeded; [apply preserves_ret|].
  apply preserves_try_except; [pres|].
  intros e. apply preserves_bind; [apply preserves_record_failure|].
  intros. apply preserves_ret.
Qed.

Lemma preserves_dispatch w r use_ai deep col value :
  good w -> preserves P (DataVerification.dispatch w r use_ai deep col value).
Proof.
  intros Hw. unfold DataVerification.dispatch.
  destruct (String.eqb col "Email").
  { destruct value; cbn [DataVerification.validate_email_cell];
      [apply preserves_ret | apply preserves_ret | by apply P_email]. }
  destruct (existsb _ _).
  { destruct (Py.truthy _); [|apply preserves_ret].
    unfold DataVerification.cell, DataVerification.verify_name_against_company.
    apply preserves_bind; [destruct (lookup_col _ _); pres|]. intros first_name.
    apply preserves_bind; [destruct (lookup_col _ _); pres|]. intros last_name.
    apply preserves_try_except; [|intros; apply preserves_ret].
    apply preserves_bind; [apply preserves_gather_evidence|]. intros. pres. }
  destruct (existsb _ _).
  { unfold DataVerification.verify_company_exists.
    apply preserves_try_except; [|intros; apply preserves_ret].
    apply preserves_bind; [apply preserves_gather_evidence|]. intros. pres. }
  destruct (String.eqb col "Company Domain").
  { unfold DataVerification.verify_company_domain. pres. }
  destruct (existsb _ _).
  { unfold DataVerification.verify_address_component.
    apply preserves_try_except; [|intros; apply preserves_ret].
    destruct (DataVerification.company_given _); [|apply preserves_ret].
    apply preserves_bind; [apply preserves_gather_evidence|]. intros info.
    destruct (String.eqb col "Company Address"); [pres|].
    destruct (existsb _ _).
    { destruct (Py.contains _ _); [apply preserves_ret|].
      destruct use_ai; [apply preserves_classify | apply preserves_ret]. }
    pres. }
  destruct (existsb _ _).
  { unfold DataVerification.verify_industry.
    apply preserves_try_except; [|intros; apply preserves_ret].
    destruct (DataVerification.company_given _); [|apply preserves_ret].
    apply preserves_bind; [apply preserves_gather_evidence|]. intros info.
    destruct (Py.contains _ _); [apply preserves_ret|].
    destruct use_ai; [apply preserves_classify | apply preserves_ret]. }
  destruct use_ai; [apply preserves_classify | apply preserves_ret].
Qed.

Lemma preserves_verify_column w r use_ai deep col verified_row :
  good w -> preserves P (DataVerification.verify_column w r use_ai deep col verified_row).
Proof.
  intros Hw. unfold DataVerification.verify_column, DataVerification.cell. cbv zeta.
  apply preserves_bind; [destruct (lookup_col _ _); pres|]. intros value.
  destruct (_ || _); [apply preserves_ret|].
  apply preserves_try_except; [|intros; apply preserves_ret].
  apply preserves_bind; [by apply preserves_dispatch|]. intros. apply preserves_ret.
Qed.

Lemma preserves_verify_data w r cols use_ai deep :
  good w -> preserves P (DataVerification.verify_data w r cols use_ai deep).
Proof.
  intros Hw. unfold DataVerification.verify_data. generalize r at 2.
  induction cols as [|col cols IH]; intros verified_row; cbn [DataVerification.verify_columns].
  - apply preserves_ret.
  - apply preserves_bind; [by apply preserves_verify_column|]. intros. apply IH.
Qed.

Lemma run_preserves w o s : good w -> P s -> P (run w o s).
Proof.
  intros Hw Hs. destruct o; cbn [run].
  - by apply preserves_verify_data.
  - by apply preserves_classify.
  - by apply preserves_check_api_status.
  - by apply P_email.
  - by apply preserves_gather_evidence.
Qed.

Lemma session_preserves st st' : P st -> session_from good st st' -> P st'.
Proof.
  intros Hst Hsession. induction Hsession as [|st1 w o _ IH Hw]; [done|].
  by apply run_preserves.
Qed.
End Frame.

(** ** The quota breaker *)

Lemma tripped_classify w field_name field_value r deep st :
  tripped st ->
  OpenAI.verify_contact_with_ai w field_name field_value r deep st = (Ok Uncertain, st).
Proof.
  unfold tripped. intros Ht. unfold OpenAI.verify_contact_with_ai, bind, get.
  rewrite Ht, orb_true_r. reflexivity.
Qed.

Lemma tripped_session st st' :
  tripped st -> session_from any_world st st' -> tripped st'.
Proof.
  apply (session_preserves tripped any_world); try (intros; assumption).
  - reflexivity.
  - intros w email _. apply preserves_validate_email_frame; intros; assumption.
Qed.

Lemma record_failure_returns e st :
  OpenAI.record_failure e st = (Ok tt, snd (OpenAI.record_failure e st)).
Proof.
  unfold OpenAI.record_failure.
  destruct (OpenAI.quota_signature _); [reflexivity|].
  destruct (OpenAI.credential_signature _); reflexivity.
Qed.

Lemma record_failure_trips e st :
  breaker_signature (exn_str e) = true ->
  tripped (snd (OpenAI.record_failure e st)).
Proof.
  unfold breaker_signature, OpenAI.record_failure. intros Hsig.
  destruct (OpenAI.quota_signature _); [reflexivity|].
  cbn [orb] in Hsig. rewrite Hsig. reflexivity.
Qed.

(** C3. The breaker is a one-way latch.  A judge call that fails with an
    error text carrying a quota or a credential signature returns
    [Uncertain] and trips the breaker; in every state the session reaches
    afterwards, through whatever calls and in whatever worlds, the breaker
    is still tripped and every judge call, for any field and record,
    returns [Uncertain] and leaves the state, its request log included, as
    it was. *)
Theorem C3_breaker_is_a_latch w st field_name field_value r deep msg :
  Py.nonempty (OPENAI_API_KEY w) = true ->
  ai_quota_exceeded st = false ->
  ai_cache st !! OpenAI.cache_key w field_name field_value r deep = None ->
  chat_completions w (OpenAI.make_request field_name field_value r deep) = Fails msg ->
  breaker_signature msg = true ->
  let out := OpenAI.verify_contact_with_ai w field_name field_value r deep st in
  fst out = Ok Uncertain /\
  tripped (snd out) /\
  forall st',
    session_from any_world (snd out) st' ->
    tripped st' /\
    forall w' field_name' field_value' r' deep',
      OpenAI.verify_contact_with_ai w' field_name' field_value' r' deep' st'
      = (Ok Uncertain, st').
Proof.
  intros Hkey Hoff Hmiss Hfail Hsig. cbv zeta.
  assert (Hout : OpenAI.verify_contact_with_ai w field_name field_value r deep st
                 = (Ok Uncertain,
                    snd (OpenAI.record_failure (External msg)
                           (log_call (ChatCompletion
                                        (OpenAI.make_request field_name field_value r deep)) st)))).
  { unfold OpenAI.verify_contact_with_ai, bind at 1, get at 1.
    rewrite Hkey, Hoff. cbn [negb orb]. unfold bind at 1, get at 1. rewrite Hmiss.
    unfold try_except, bind at 1, request. rewrite Hfail.
    unfold bind. rewrite record_failure_returns. reflexivity. }
  rewrite Hout. cbn [fst snd].
  assert (Htrip : tripped (snd (OpenAI.record_failure (External msg)
                    (log_call (ChatCompletion
                                 (OpenAI.make_request field_name field_value r deep)) st))))
    by (apply record_failure_trips; exact Hsig).
  split; [reflexivity|]. split; [exact Htrip|].
  intros st' Hsession.
  assert (Ht' : tripped st') by (eapply tripped_session; eassumption).
  split; [exact Ht'|]. intros. by apply tripped_classify.
Qed.

Lemma C3_breaker_is_a_latch_witness :
  let out := OpenAI.verify_contact_with_ai quota_world "Contact Job Title"
               (PStr "Chief Vibes Officer") job_title_record false initial_state in
  fst out = Ok Uncertain /\
  tripped (snd out) /\
  forall st',
    session_from any_world (snd out) st' ->
    tripped st' /\
    forall w' field_name' field_value' r' deep',
      OpenAI.verify_contact_with_ai w' field_name' field_value' r' deep' st'
      = (Ok Uncertain, st').
Proof.
  apply (C3_breaker_is_a_latch quota_world initial_state "Contact Job Title"
           (PStr "Chief Vibes Officer") job_title_record false
           "Error code: 429 - You exceeded your current quota, please check your plan and billing details.");
    reflexivity.
Defined.

(** ** The judge's cache *)

Lemma classify_unfold w field_name field_value r deep st :
  Py.nonempty (OPENAI_API_KEY w) = true ->
  ai_quota_exceeded st = false ->
  OpenAI.verify_contact_with_ai w field_name field_value r deep st =
  match ai_cache st !! OpenAI.cache_key w field_name field_value r deep with
  | Some v => (Ok v, st)
  | None =>
      let req := OpenAI.make_request field_name field_value r deep in
      let st1 := log_call (ChatCompletion req) st in
      match chat_completions w req with
      | Returns content =>
          match json_loads w content with
          | Returns result =>
              (Ok (default Uncertain (status result)),
               set_ai_cache
                 <[OpenAI.cache_key w field_name field_value r deep
                   := default Uncertain (status result)]> st1)
          | Fails msg => (Ok Uncertain, snd (OpenAI.record_failure (External msg) st1))
          end
      | Fails msg => (Ok Uncertain, snd (OpenAI.record_failure (External msg) st1))
      end
  end.
Proof.
  intros Hkey Hoff. unfold OpenAI.verify_contact_with_ai, bind at 1, get at 1.
  rewrite Hkey, Hoff. cbn [negb orb]. unfold bind at 1, get at 1.
  destruct (ai_cache st !! _); [reflexivity|]. cbv zeta.
  unfold try_except, bind at 1, request.
  destruct (chat_completions w _) as [msg|content].
  - unfold bind. rewrite record_failure_returns. reflexivity.
  - unfold bind at 1, local_call.
    destruct (json_loads w content) as [msg|result].
    + unfold raise, bind. rewrite record_failure_returns. reflexivity.
    + reflexivity.
Qed.

Lemma cache_key_same_hash w w' field_name field_value r deep :
  (forall s, py_hash w' s = py_hash w s) ->
  OpenAI.cache_key w' field_name field_value r deep
  = OpenAI.cache_key w field_name field_value r deep.
Proof. intros Hh. unfold OpenAI.cache_key. by rewrite Hh. Qed.

(** C7, as the code has it.  The cache key is made of the field name, the
    field value, the hash of the JSON text of the whole record context,
    derived verdict entries included, and the deep-mode flag.  So for every
    field name, value and flag, once a classification over a context got a
    completion that parses, a second classification over the same context,
    in the same process (same credential, same hash) and whatever the world
    then answers, returns the same status and leaves the state, request log
    included, as the first one left it. *)
Theorem C7_same_context_hits_cache w w' field_name field_value r deep st content result :
  Py.nonempty (OPENAI_API_KEY w) = true ->
  ai_quota_exceeded st = false ->
  chat_completions w (OpenAI.make_request field_name field_value r deep) = Returns content ->
  json_loads w content = Returns result ->
  OPENAI_API_KEY w' = OPENAI_API_KEY w ->
  (forall s, py_hash w' s = py_hash w s) ->
  let first := OpenAI.verify_contact_with_ai w field_name field_value r deep st in
  let second := OpenAI.verify_contact_with_ai w' field_name field_value r deep (snd first) in
  (exists v, fst first = Ok v /\
             ai_cache (snd first) !! OpenAI.cache_key w field_name field_value r deep
             = Some v) /\
  fst second = fst first /\
  snd second = snd first.
Proof.
  intros Hkey Hoff Hchat Hloads Hkey' Hhash. cbv zeta.
  rewrite (classify_unfold w) by done.
  destruct (ai_cache st !! _) as [v|] eqn:Hc.
  - cbn [fst snd]. split; [by exists v|].
    rewrite (classify_unfold w') by (rewrite ?Hkey'; done).
    rewrite (cache_key_same_hash w w') by done. rewrite Hc. done.
  - cbv zeta. rewrite Hchat, Hloads. cbn [fst snd]. split.
    + eexists. split; [reflexivity|]. cbn [ai_cache set_ai_cache]. apply lookup_insert_eq.
    + rewrite (classify_unfold w') by (rewrite ?Hkey'; done).
      rewrite (cache_key_same_hash w w') by done.
      cbn [ai_cache set_ai_cache log_call]. rewrite lookup_insert_eq. done.
Qed.

Lemma C7_same_context_hits_cache_witness :
  let first := OpenAI.verify_contact_with_ai valid_world "Contact Job Title"
                 (PStr "Chief Vibes Officer") job_title_record false initial_state in
  let second := OpenAI.verify_contact_with_ai offline_with_key "Contact Job Title"
                  (PStr "Chief Vibes Officer") job_title_record false (snd first) in
  fst second = fst first /\ snd second = snd first.
Proof.
  cbv zeta.
  apply (C7_same_context_hits_cache valid_world offline_with_key "Contact Job Title"
           (PStr "Chief Vibes Officer") job_title_record false initial_state
           valid_content {| status := Some (PStr "Valid"); reason := Some (PStr "plausible") |});
    reflexivity.
Defined.

(** C7 as stated fails: the hash covers the derived verdict entries.  Two
    contexts that differ in one [_status] entry only get different keys
    (here the hash of a text is its length), and the classification over
    the second context, right after the one over the first, asks the
    completion API again. *)
Lemma C7_counterexample :
  ~ (forall w field_name field_value deep (r1 r2 : row),
       strip_status r1 = strip_status r2 ->
       OpenAI.cache_key w field_name field_value r1 deep
       = OpenAI.cache_key w field_name field_value r2 deep) /\
  (let first := OpenAI.verify_contact_with_ai valid_world "Contact Job Title"
                  (PStr "Chief Vibes Officer") job_title_record false initial_state in
   let second := OpenAI.verify_contact_with_ai valid_world "Contact Job Title"
                   (PStr "Chief Vibes Officer") job_title_record_verified false (snd first) in
   strip_status job_title_record = strip_status job_title_record_verified /\
   List.length (calls (snd first)) = 1%nat /\
   List.length (calls (snd second)) = 2%nat).
Proof.
  split.
  - intros H.
    specialize (H valid_world "Contact Job Title" (PStr "Chief Vibes Officer") false
                  job_title_record job_title_record_verified eq_refl).
    vm_compute in H. discriminate H.
  - cbv zeta. repeat split; vm_compute; reflexivity.
Qed.

(** ** The email validator *)

Lemma same_dns_resolvable w w' domain :
  same_dns w w' -> resolvable w' domain = resolvable w domain.
Proof. intros H. unfold resolvable. destruct (H domain) as [-> ->]. reflexivity. Qed.

Lemma agree_log w ev st : email_caches_agree w st -> email_caches_agree w (log_call ev st).
Proof. intros H. exact H. Qed.

Lemma agree_remember w email v st :
  email_caches_agree w st ->
  (forall x, early_verdict w email = Some x -> v = x) ->
  email_caches_agree w (set_validation_cache <[email := v]> st).
Proof.
  intros [Hdns Hval] Hv. split; [exact Hdns|].
  intros email' v'. cbn [validation_cache set_validation_cache].
  destruct (decide (email = email')) as [<-|Hne].
  - rewrite lookup_insert_eq. intros [= <-]. exact Hv.
  - rewrite lookup_insert_ne by done. apply Hval.
Qed.

Lemma agree_dns_insert w domain st :
  email_caches_agree w st ->
  email_caches_agree w (set_dns_cache <[domain := resolvable w domain]> st).
Proof.
  intros [Hdns Hval]. split; [|exact Hval].
  intros domain' b. cbn [dns_cache set_dns_cache].
  destruct (decide (domain = domain')) as [<-|Hne].
  - rewrite lookup_insert_eq. by intros [= <-].
  - rewrite lookup_insert_ne by done. apply Hdns.
Qed.

(** The resolution step answers what the DNS says, keeps the caches in
    agreement with it and leaves the per-email cache alone. *)
Lemma verify_domain_mx_agree w w' domain st :
  same_dns w w' ->
  email_caches_agree w st ->
  exists st1,
    EmailValidator.verify_domain_mx w' domain st = (Ok (resolvable w domain), st1) /\
    email_caches_agree w st1 /\
    validation_cache st1 = validation_cache st.
Proof.
  intros Hsame Hagree. pose proof (same_dns_resolvable w w' domain Hsame) as Hres.
  unfold EmailValidator.verify_domain_mx, bind at 1, get.
  destruct (dns_cache st !! domain) as [b|] eqn:Hc.
  - exists st. destruct Hagree as [Hdns Hval]. rewrite (Hdns _ _ Hc). done.
  - unfold resolvable in Hres |- *. destruct (Hsame domain) as [Hmx Ha].
    unfold try_except, bind, request, modify, ret.
    destruct (resolve_MX w' domain) eqn:Emx.
    + rewrite <- Hmx. cbn [orb]. eexists. split; [reflexivity|]. split; [|reflexivity].
      replace true with (resolvable w domain) at 1
        by (unfold resolvable; by rewrite <- Hmx).
      apply agree_dns_insert, agree_log, Hagree.
    + rewrite <- Hmx. cbn [orb]. destruct (resolve_A w' domain) eqn:Ea; rewrite <- Ha.
      * eexists. split; [reflexivity|]. split; [|reflexivity].
        replace true with (resolvable w domain) at 1
          by (unfold resolvable; by rewrite <- Hmx, <- Ha).
        apply agree_dns_insert, agree_log, agree_log, Hagree.
      * eexists. split; [reflexivity|]. split; [|reflexivity].
        replace false with (resolvable w domain) at 1
          by (unfold resolvable; by rewrite <- Hmx, <- Ha).
        apply agree_dns_insert, agree_log, agree_log, Hagree.
Qed.

(** The steps after the disposable-provider check, whatever they decide,
    keep a property that the request log and a new entry for this email do
    not disturb. *)
Lemma preserves_deliverability_step (P : state -> Prop) w email :
  (forall ev s, P s -> P (log_call ev s)) ->
  (forall v s, P s -> P (set_validation_cache <[email := v]> s)) ->
  preserves P
    (match ABSTRACT_API_KEY w with
     | Some key =>
         if Py.nonempty key then
           let url := "https://emailvalidation.abstractapi.com/v1/?api_key="
                        +:+ key +:+ "&email=" +:+ email in
           try_except
             (r <- request (HttpGet url) (abstract_api w url) ;;
              let '(status_code, deliverability) := r in
              if (status_code =? 200)%Z then
                match deliverability with
                | Some d =>
                    if String.eqb d "DELIVERABLE" then EmailValidator.remember email Valid
                    else if String.eqb d "UNDELIVERABLE"
                         then EmailValidator.remember email Invalid
                    else EmailValidator.remember email Uncertain
                | None => EmailValidator.remember email Uncertain
                end
              else EmailValidator.remember email Uncertain)
             (fun _ => EmailValidator.remember email Uncertain)
         else EmailValidator.remember email Valid
     | None => EmailValidator.remember email Valid
     end).
Proof.
  intros Hlog Hrem. unfold EmailValidator.remember. pres.
Qed.

Lemma validate_email_agree w w' email :
  same_dns w w' ->
  preserves (email_caches_agree w) (EmailValidator.validate_email w' email).
Proof.
  intros Hsame st Hagree.
  unfold EmailValidator.validate_email, bind at 1, get.
  destruct (validation_cache st !! email) as [v|] eqn:Hc; [exact Hagree|].
  destruct (EmailValidator.is_valid_email_syntax email) eqn:Hsyn; cbn [negb].
  - unfold bind at 1. fold (email_domain email).
    destruct (verify_domain_mx_agree w w' (email_domain email) st Hsame Hagree)
      as (st1 & -> & Hagree1 & _).
    destruct (resolvable w (email_domain email)) eqn:Hres; cbn [negb].
    + destruct (EmailValidator.is_disposable_domain (email_domain email)) eqn:Hdisp.
      * apply agree_remember; [exact Hagree1|].
        unfold early_verdict. rewrite Hsyn, Hres, Hdisp. cbn [negb]. by intros x [= <-].
      * apply (preserves_deliverability_step (email_caches_agree w) w' email);
          [intros; by apply agree_log | | exact Hagree1].
        intros v s Hs. apply agree_remember; [exact Hs|].
        unfold early_verdict. rewrite Hsyn, Hres, Hdisp. cbn [negb]. discriminate.
    + apply agree_remember; [exact Hagree1|].
      unfold early_verdict. rewrite Hsyn, Hres. cbn [negb]. by intros x [= <-].
  - apply agree_remember; [exact Hagree|].
    unfold early_verdict. rewrite Hsyn. cbn [negb]. by intros x [= <-].
Qed.

Lemma agree_session w st :
  session_from (same_dns w) initial_state st -> email_caches_agree w st.
Proof.
  apply (session_preserves (email_caches_agree w) (same_dns w));
    try (intros; assumption).
  - intros w' email Hw'. by apply validate_email_agree.
  - split; intros ? ?; cbn [initial_state dns_cache validation_cache];
      rewrite lookup_empty; discriminate.
Qed.

(** When one of the first three steps decides, its verdict is the result. *)
Lemma validate_email_early w w' email st x :
  same_dns w w' ->
  email_caches_agree w st ->
  early_verdict w email = Some x ->
  fst (EmailValidator.validate_email w' email st) = Ok x.
Proof.
  intros Hsame Hagree Hearly.
  unfold EmailValidator.validate_email, bind at 1, get.
  destruct (validation_cache st !! email) as [v|] eqn:Hc.
  { destruct Hagree as [_ Hval]. by rewrite (Hval _ _ Hc _ Hearly). }
  unfold early_verdict in Hearly.
  destruct (EmailValidator.is_valid_email_syntax email); cbn [negb] in *.
  - unfold bind at 1. fold (email_domain email).
    destruct (verify_domain_mx_agree w w' (email_domain email) st Hsame Hagree)
      as (st1 & -> & _ & _).
    destruct (resolvable w (email_domain email)); cbn [negb] in *.
    + destruct (EmailValidator.is_disposable_domain (email_domain email)); [|discriminate].
      injection Hearly as <-. reflexivity.
    + injection Hearly as <-. reflexivity.
  - injection Hearly as <-. reflexivity.
Qed.

(** A syntax failure is answered from the cache or at once: nothing is
    requested. *)
Lemma validate_email_syntax_no_request w email st :
  EmailValidator.is_valid_email_syntax email = false ->
  calls (snd (EmailValidator.validate_email w email st)) = calls st.
Proof.
  intros Hsyn. unfold EmailValidator.validate_email, bind at 1, get.
  destruct (validation_cache st !! email); [reflexivity|].
  rewrite Hsyn. reflexivity.
Qed.

(** Strings that fail the syntax check are only ever recorded as
    [Invalid], whatever the network does. *)
Lemma validate_email_syntax_failures w email :
  preserves syntax_failures_invalid (EmailValidator.validate_email w email).
Proof.
  assert (Hlog : forall ev s, syntax_failures_invalid s -> syntax_failures_invalid (log_call ev s))
    by (intros; assumption).
  assert (Hdns : forall f s, syntax_failures_invalid s ->
                             syntax_failures_invalid (set_dns_cache f s))
    by (intros; assumption).
  assert (Hrem : forall v s,
             (EmailValidator.is_valid_email_syntax email = false -> v = Invalid) ->
             syntax_failures_invalid s ->
             syntax_failures_invalid (set_validation_cache <[email := v]> s)).
  { intros v s Hv Hs email' v'. cbn [validation_cache set_validation_cache].
    destruct (decide (email = email')) as [<-|Hne].
    - rewrite lookup_insert_eq. intros [= <-]. exact Hv.
    - rewrite lookup_insert_ne by done. apply Hs. }
  intros st Hst.
  unfold EmailValidator.validate_email, bind at 1, get.
  destruct (validation_cache st !! email) as [v|] eqn:Hc; [exact Hst|].
  destruct (EmailValidator.is_valid_email_syntax email) eqn:Hsyn; cbn [negb].
  - unfold bind at 1.
    pose proof (preserves_verify_domain_mx syntax_failures_invalid Hlog Hdns w
                  (Py.last_item (Py.split_char "@" email)) st Hst) as Hst1.
    destruct (EmailValidator.verify_domain_mx w _ st) as [[has_mx|msg] st1];
      cbn [snd] in Hst1; [|exact Hst1].
    destruct (negb has_mx); [by apply Hrem|].
    destruct (EmailValidator.is_disposable_domain _); [by apply Hrem|].
    apply (preserves_deliverability_step syntax_failures_invalid w email);
      [exact Hlog | | exact Hst1].
    intros v s. by apply Hrem.
  - by apply Hrem.
Qed.

Lemma syntax_failures_session st :
  session_from any_world initial_state st -> syntax_failures_invalid st.
Proof.
  apply (session_preserves syntax_failures_invalid any_world);
    try (intros; assumption).
  - intros w email _. apply validate_email_syntax_failures.
  - intros email v. cbn [initial_state validation_cache]. rewrite lookup_empty. discriminate.
Qed.

(** The verdict for a string that fails the syntax check. *)
Lemma validate_email_syntax_invalid w email st :
  syntax_failures_invalid st ->
  EmailValidator.is_valid_email_syntax email = false ->
  fst (EmailValidator.validate_email w email st) = Ok Invalid.
Proof.
  intros Hst Hsyn. unfold EmailValidator.validate_email, bind at 1, get.
  destruct (validation_cache st !! email) as [v|] eqn:Hc.
  - by rewrite (Hst _ _ Hc Hsyn).
  - rewrite Hsyn. reflexivity.
Qed.

(** An address met for the first time, its domain too, gets what the
    first three steps decide in the world as it is. *)
Lemma validate_email_first_seen w email st x :
  first_seen email st ->
  early_verdict w email = Some x ->
  fst (EmailValidator.validate_email w email st) = Ok x.
Proof.
  intros [Hval Hdns] Hearly. unfold email_domain in Hdns.
  unfold EmailValidator.validate_email, bind at 1, get. rewrite Hval.
  unfold early_verdict, resolvable, email_domain in Hearly.
  destruct (EmailValidator.is_valid_email_syntax email); cbn [negb] in *.
  - unfold bind at 1, EmailValidator.verify_domain_mx, bind at 1, get. rewrite Hdns.
    unfold try_except, bind, request, modify, ret.
    destruct (resolve_MX w _); cbn [orb negb] in *.
    + destruct (EmailValidator.is_disposable_domain _); [|discriminate].
      injection Hearly as <-. reflexivity.
    + destruct (resolve_A w _); cbn [negb] in *.
      * destruct (EmailValidator.is_disposable_domain _); [|discriminate].
        injection Hearly as <-. reflexivity.
      * injection Hearly as <-. reflexivity.
  - injection Hearly as <-. reflexivity.
Qed.

(** C4, as the code has it.  The validator memoizes verdicts per address
    and resolution results per domain for the life of the process, so its
    order is followed as follows, for every string.  In every state a
    process reaches, whatever the network did, an address that fails the
    syntax check is [Invalid] and no request, so no DNS lookup, is made.
    When the DNS answers did not change during the process, or when neither
    the address nor its domain is in the caches yet: an address with valid
    syntax whose domain has neither MX nor A records is [Uncertain]; an
    address with valid syntax whose domain resolves and is,
    case-insensitively, one of the fixed disposable providers is [Invalid],
    MX records or not. *)
Theorem C4_email_short_circuit w st email :
  let out := EmailValidator.validate_email w email st in
  (session_from any_world initial_state st ->
   EmailValidator.is_valid_email_syntax email = false ->
   fst out = Ok Invalid /\ calls (snd out) = calls st) /\
  (session_from (same_dns w) initial_state st \/ first_seen email st ->
   (EmailValidator.is_valid_email_syntax email = true ->
    resolve_MX w (email_domain email) = false ->
    resolve_A w (email_domain email) = false ->
    fst out = Ok Uncertain) /\
   (EmailValidator.is_valid_email_syntax email = true ->
    resolvable w (email_domain email) = true ->
    EmailValidator.is_disposable_domain (email_domain email) = true ->
    fst out = Ok Invalid)).
Proof.
  cbv zeta. split.
  - intros Hsession Hsyn. split; [|by apply validate_email_syntax_no_request].
    apply validate_email_syntax_invalid; [|exact Hsyn].
    by apply syntax_failures_session.
  - intros Hst.
    assert (Hearly : forall x, early_verdict w email = Some x ->
                               fst (EmailValidator.validate_email w email st) = Ok x).
    { intros x Hx. destruct Hst as [Hsession | Hfirst].
      - apply (validate_email_early w w email st x); [|by apply agree_session|exact Hx].
        intros d. split; reflexivity.
      - by apply validate_email_first_seen. }
    split.
    + intros Hsyn Hmx Ha. apply Hearly.
      unfold early_verdict, resolvable. by rewrite Hsyn, Hmx, Ha.
    + intros Hsyn Hres Hdisp. apply Hearly.
      unfold early_verdict. by rewrite Hsyn, Hres, Hdisp.
Qed.

Lemma C4_email_short_circuit_witness :
  (fst (EmailValidator.validate_email small_dns "not-an-email" after_outage) = Ok Invalid /\
   calls (snd (EmailValidator.validate_email small_dns "not-an-email" after_outage))
   = calls after_outage) /\
  fst (EmailValidator.validate_email small_dns "jane@nowhere.example" initial_state)
  = Ok Uncertain /\
  fst (EmailValidator.validate_email small_dns "x@mailinator.com"
         (run small_dns (ValidateEmail "jane@acme.com") initial_state))
  = Ok Invalid /\
  fst (EmailValidator.validate_email small_dns "x@yopmail.com" after_outage) = Ok Uncertain.
Proof.
  assert (Hs0 : session_from any_world initial_state after_outage)
    by (apply session_step; [apply session_start | exact I]).
  assert (Hs1 : session_from (same_dns small_dns) initial_state
                  (run small_dns (ValidateEmail "jane@acme.com") initial_state)).
  { apply session_step; [apply session_start|]. intros d. split; reflexivity. }
  assert (Hs2 : first_seen "x@yopmail.com" after_outage) by (split; reflexivity).
  pose proof (C4_email_short_circuit small_dns after_outage "not-an-email")
    as (Hsyntax & _).
  pose proof (C4_email_short_circuit small_dns initial_state "jane@nowhere.example")
    as (_ & Hdns).
  pose proof (C4_email_short_circuit small_dns
                (run small_dns (ValidateEmail "jane@acme.com") initial_state)
                "x@mailinator.com")
    as (_ & Hdisposable).
  pose proof (C4_email_short_circuit small_dns after_outage "x@yopmail.com")
    as (_ & Hfirst).
  destruct (Hdns (or_introl (session_start _ _))) as (Hnone & _).
  destruct (Hdisposable (or_introl Hs1)) as (_ & Hinvalid).
  destruct (Hfirst (or_intror Hs2)) as (Huncertain & _).
  split; [apply (Hsyntax Hs0); reflexivity|].
  split; [apply Hnone; reflexivity|].
  split; [apply Hinvalid; reflexivity|].
  apply Huncertain; reflexivity.
Defined.

(** C4 as stated fails.  A process validates [x@mailinator.com] while no
    name resolves: the verdict [Uncertain] is kept for the address, and the
    negative answer for its domain.  Once the domain resolves again, by MX,
    the same process still answers [Uncertain] for that address, and for
    every other address of the domain, although the domain resolves and is
    a disposable provider. *)
Lemma C4_counterexample :
  ~ (forall w st email,
       session_from any_world initial_state st ->
       EmailValidator.is_valid_email_syntax email = true ->
       resolvable w (email_domain email) = true ->
       EmailValidator.is_disposable_domain (email_domain email) = true ->
       fst (EmailValidator.validate_email w email st) = Ok Invalid) /\
  (EmailValidator.is_valid_email_syntax "y@mailinator.com" = true /\
   resolve_MX small_dns (email_domain "y@mailinator.com") = true /\
   EmailValidator.is_disposable_domain (email_domain "y@mailinator.com") = true /\
   fst (EmailValidator.validate_email small_dns "x@mailinator.com" after_outage)
   = Ok Uncertain /\
   fst (EmailValidator.validate_email small_dns "y@mailinator.com" after_outage)
   = Ok Uncertain).
Proof.
  split.
  - intros H.
    assert (Hs : session_from any_world initial_state after_outage)
      by (apply session_step; [apply session_start | exact I]).
    specialize (H small_dns after_outage "x@mailinator.com" Hs eq_refl eq_refl eq_refl).
    vm_compute in H. discriminate H.
  - repeat split; vm_compute; reflexivity.
Qed.

(** ** Records and status columns *)

Lemma lookup_col_set_col_eq col v (r : row) :
  lookup_col col (set_col col v r) = Some v.
Proof.
  induction r as [|[k x] r IH]; cbn [set_col lookup_col].
  - by rewrite String.eqb_refl.
  - destruct (String.eqb k col) eqn:E; cbn [lookup_col]; by rewrite E.
Qed.

Lemma lookup_col_set_col_ne col col' v (r : row) :
  col <> col' -> lookup_col col' (set_col col v r) = lookup_col col' r.
Proof.
  intros Hne. induction r as [|[k x] r IH]; cbn [set_col lookup_col].
  - destruct (String.eqb col col') eqn:E; [|done]. by apply String.eqb_eq in E.
  - destruct (String.eqb k col) eqn:E; cbn [lookup_col].
    + apply String.eqb_eq in E. subst k.
      destruct (String.eqb col col') eqn:E'; [|done]. by apply String.eqb_eq in E'.
    + by rewrite IH.
Qed.

Lemma length_append (a b : string) :
  String.length (a +:+ b) = (String.length a + String.length b)%nat.
Proof.
  induction a as [|c a IH]; simpl; [done | by rewrite IH].
Qed.

Lemma append_inv_tail (a b s : string) : a +:+ s = b +:+ s -> a = b.
Proof.
  revert b. induction a as [|c a IH]; intros [|d b] H; [done | | |].
  - apply (f_equal String.length) in H.
    rewrite !length_append in H. simpl in H. lia.
  - apply (f_equal String.length) in H.
    rewrite !length_append in H. simpl in H. lia.
  - simpl in H. injection H as -> H. by rewrite (IH b H).
Qed.

Lemma status_col_inj col col' :
  DataVerification.status_col col = DataVerification.status_col col' -> col = col'.
Proof. apply append_inv_tail. Qed.

(** ** One record, field after field *)

(** An iteration over a column the record has returns: failures of the
    verification proper are absorbed.  On an empty cell it leaves the state
    alone. *)
Lemma verify_column_returns w r use_ai deep col value verified_row st :
  lookup_col col r = Some value ->
  exists verdict st',
    DataVerification.verify_column w r use_ai deep col verified_row st
    = (Ok (set_col (DataVerification.status_col col) verdict
             (set_col (DataVerification.status_col col) Uncertain verified_row)), st') /\
    (empty_cell value = true -> verdict = Uncertain /\ st' = st).
Proof.
  intros Hcol. unfold DataVerification.verify_column, DataVerification.cell, empty_cell.
  cbv zeta. rewrite Hcol. unfold bind at 1, ret at 1.
  destruct (Py.isna value || Py.is_empty_str value).
  - exists Uncertain, st. done.
  - unfold try_except, bind.
    destruct (DataVerification.dispatch w r use_ai deep col value st) as [[verdict|e] st'].
    + exists verdict, st'. done.
    + exists Uncertain, st'. done.
Qed.

Lemma verify_columns_returns w r use_ai deep cols :
  (forall col, In col cols -> has_col col r = true) ->
  forall verified_row st,
  exists verified_row' st',
    DataVerification.verify_columns w r use_ai deep cols verified_row st
    = (Ok verified_row', st') /\
    (forall key, (forall col, In col cols -> key <> DataVerification.status_col col) ->
                 lookup_col key verified_row' = lookup_col key verified_row) /\
    (forall col, In col cols ->
       exists verdict,
         lookup_col (DataVerification.status_col col) verified_row' = Some verdict /\
         forall value, lookup_col col r = Some value -> empty_cell value = true ->
                       verdict = Uncertain).
Proof.
  induction cols as [|col cols IH]; intros Hcols verified_row st;
    cbn [DataVerification.verify_columns].
  - exists verified_row, st. split; [done|]. split; [done|]. intros col [].
  - assert (Hhas : has_col col r = true) by (apply Hcols; by left).
    unfold has_col in Hhas. destruct (lookup_col col r) as [value|] eqn:Hcol; [|done].
    destruct (verify_column_returns w r use_ai deep col value verified_row st Hcol)
      as (verdict & st1 & Hstep & Hempty).
    unfold bind. rewrite Hstep.
    destruct (IH (fun c Hc => Hcols c (or_intror Hc))
                (set_col (DataVerification.status_col col) verdict
                   (set_col (DataVerification.status_col col) Uncertain verified_row)) st1)
      as (verified_row' & st' & Hrest & Hframe & Hverdicts).
    exists verified_row', st'. split; [exact Hrest|]. split.
    + intros key Hkey. rewrite Hframe by (intros c Hc; apply Hkey; by right).
      assert (Hne : DataVerification.status_col col <> key)
        by (intros <-; exact (Hkey col (or_introl eq_refl) eq_refl)).
      by rewrite !lookup_col_set_col_ne.
    + intros c [<- | Hc]; [|by apply Hverdicts].
      destruct (in_dec string_dec col cols) as [Hin | Hnotin]; [by apply Hverdicts|].
      exists verdict. split.
      * rewrite Hframe.
        { apply lookup_col_set_col_eq. }
        intros c Hc Heq. apply status_col_inj in Heq. by subst c.
      * intros value' Hcol' Hemp. rewrite Hcol in Hcol'. injection Hcol' as <-.
        by apply Hempty.
Qed.

(** C2, as the code has it.  When every requested field is a column of the
    record, [verify_data] returns, in every world, a record with a verdict
    for every requested field, and the verdict of a field whose cell is
    missing or empty is [Uncertain]; the iteration for such a field returns
    with the state, request log included, unchanged. *)
Theorem C2_empty_cells_are_uncertain w r cols use_ai deep st :
  (forall col, In col cols -> has_col col r = true) ->
  (exists verified_row st',
      DataVerification.verify_data w r cols use_ai deep st = (Ok verified_row, st') /\
      forall col, In col cols ->
        exists verdict,
          lookup_col (DataVerification.status_col col) verified_row = Some verdict /\
          forall value, lookup_col col r = Some value -> empty_cell value = true ->
                        verdict = Uncertain) /\
  (forall col value verified_row s,
      In col cols -> lookup_col col r = Some value -> empty_cell value = true ->
      exists verified_row',
        DataVerification.verify_column w r use_ai deep col verified_row s
        = (Ok verified_row', s) /\
        lookup_col (DataVerification.status_col col) verified_row' = Some Uncertain).
Proof.
  intros Hcols. split.
  - unfold DataVerification.verify_data.
    destruct (verify_columns_returns w r use_ai deep cols Hcols r st)
      as (verified_row & st' & Hrun & _ & Hverdicts).
    exists verified_row, st'. done.
  - intros col value verified_row s _ Hcol Hemp.
    destruct (verify_column_returns w r use_ai deep col value verified_row s Hcol)
      as (verdict & st' & Hstep & Hempty).
    destruct (Hempty Hemp) as [-> ->].
    eexists. split; [exact Hstep|]. apply lookup_col_set_col_eq.
Qed.

Lemma C2_empty_cells_are_uncertain_witness :
  exists verified_row st',
    DataVerification.verify_data maybe_world sparse_record
      ["Email"; "Company Phone"; "Contact Job Title"] true false initial_state
    = (Ok verified_row, st') /\
    forall col, In col ["Email"; "Company Phone"; "Contact Job Title"] ->
      exists verdict,
        lookup_col (DataVerification.status_col col) verified_row = Some verdict /\
        forall value, lookup_col col sparse_record = Some value ->
                      empty_cell value = true -> verdict = Uncertain.
Proof.
  apply (C2_empty_cells_are_uncertain maybe_world sparse_record
           ["Email"; "Company Phone"; "Contact Job Title"] true false initial_state).
  intros col Hin. cbn [In] in Hin.
  destruct Hin as [<- | [<- | [<- | []]]]; reflexivity.
Defined.

(** C2 as stated fails for a field that is absent from the record: the
    cell is read before the [try] begins, the [KeyError] leaves
    [verify_data], and the fields after it are not verified. *)
Lemma C2_counterexample :
  ~ (forall w (r : row) cols use_ai deep st,
       exists verified_row st',
         DataVerification.verify_data w r cols use_ai deep st = (Ok verified_row, st')) /\
  fst (DataVerification.verify_data offline job_title_record
         ["Company Phone"; "Contact Job Title"] true false initial_state)
  = Raise (KeyError "Company Phone").
Proof.
  split; [|reflexivity].
  intros H.
  destruct (H offline job_title_record ["Company Phone"; "Contact Job Title"]
              true false initial_state) as (verified_row & st' & Hrun).
  apply (f_equal fst) in Hrun. vm_compute in Hrun. discriminate Hrun.
Qed.

(** * More of the engine *)

(** ** Outcomes: rules *)

Section Outcomes.
Context {A B : Type} (P : state -> Prop).

Lemma returns_ret (a : A) (Q : A -> Prop) : Q a -> returns P (ret a) Q.
Proof. intros Ha s Hs. by exists a, s. Qed.

Lemma returns_bind (m : M A) (f : A -> M B) (R : A -> Prop) (Q : B -> Prop) :
  returns P m R -> (forall a, R a -> returns P (f a) Q) -> returns P (bind m f) Q.
Proof.
  intros Hm Hf s Hs. destruct (Hm s Hs) as (a & s1 & Hrun & Ha & Hs1).
  unfold bind. rewrite Hrun. by apply Hf.
Qed.

Lemma returns_weaken (m : M A) (Q Q' : A -> Prop) :
  returns P m Q -> (forall a, Q a -> Q' a) -> returns P m Q'.
Proof.
  intros Hm HQ s Hs. destruct (Hm s Hs) as (a & s1 & Hrun & Ha & Hs1).
  exists a, s1. auto.
Qed.

Lemma yields_ret (a : A) (Q : A -> Prop) : Q a -> yields P (ret a) Q.
Proof. intros Ha s Hs. split; [exact Hs|]. by intros a' [= <-]. Qed.

Lemma yields_raise (e : exn) (Q : A -> Prop) : yields P (raise e) Q.
Proof. intros s Hs. split; [exact Hs|]. intros a [=]. Qed.

Lemma yields_bind (m : M A) (f : A -> M B) (R : A -> Prop) (Q : B -> Prop) :
  yields P m R -> (forall a, R a -> yields P (f a) Q) -> yields P (bind m f) Q.
Proof.
  intros Hm Hf s Hs. destruct (Hm s Hs) as [Hs1 Ha]. unfold bind.
  destruct (m s) as [[a|e] s1]; cbn [fst snd] in *.
  - by apply Hf; [apply Ha|].
  - split; [exact Hs1|]. intros b [=].
Qed.

Lemma yields_weaken (m : M A) (Q Q' : A -> Prop) :
  yields P m Q -> (forall a, Q a -> Q' a) -> yields P m Q'.
Proof.
  intros Hm HQ s Hs. destruct (Hm s Hs) as [Hs1 Ha]. split; [exact Hs1|]. auto.
Qed.

Lemma yields_preserves (m : M A) : preserves P m -> yields P m anything.
Proof. intros Hm s Hs. split; [by apply Hm|]. done. Qed.

Lemma yields_returns (m : M A) (Q : A -> Prop) : returns P m Q -> yields P m Q.
Proof.
  intros Hm s Hs. destruct (Hm s Hs) as (a & s1 & Hrun & Ha & Hs1). rewrite Hrun.
  split; [exact Hs1|]. by intros a' [= <-].
Qed.

Lemma yields_try_except (m : M A) (h : exn -> M A) (Q : A -> Prop) :
  yields P m Q -> (forall e, yields P (h e) Q) -> yields P (try_except m h) Q.
Proof.
  intros Hm Hh s Hs. destruct (Hm s Hs) as [Hs1 Ha]. unfold try_except.
  destruct (m s) as [[a|e] s1]; cbn [fst snd] in *.
  - split; [exact Hs1|]. intros a' [= <-]. by apply Ha.
  - by apply Hh.
Qed.

(** a [try] whose handler returns does not raise *)
Lemma returns_try_except (m : M A) (h : exn -> M A) (Q : A -> Prop) :
  yields P m Q -> (forall e, returns P (h e) Q) -> returns P (try_except m h) Q.
Proof.
  intros Hm Hh s Hs. destruct (Hm s Hs) as [Hs1 Ha]. unfold try_except.
  destruct (m s) as [[a|e] s1]; cbn [fst snd] in *.
  - exists a, s1. split; [done|]. split; [by apply Ha | exact Hs1].
  - by apply Hh.
Qed.

Lemma yields_request (ev : event) (r : reply A) :
  (forall ev s, P s -> P (log_call ev s)) -> yields P (request ev r) anything.
Proof. intros Hlog. apply yields_preserves. by apply preserves_request. Qed.

End Outcomes.

(** ** Email validator: caches, order of the lookups, later steps *)

Lemma verify_domain_mx_cold w domain st :
  dns_cache st !! domain = None ->
  EmailValidator.verify_domain_mx w domain st =
  (Ok (resolvable w domain),
   set_dns_cache <[domain := resolvable w domain]>
     (if resolve_MX w domain then log_call (DnsQuery domain "MX") st
      else log_call (DnsQuery domain "A") (log_call (DnsQuery domain "MX") st))).
Proof.
  intros Hc. unfold EmailValidator.verify_domain_mx, bind at 1, get. rewrite Hc.
  unfold resolvable, try_except, bind, request, modify, ret.
  destruct (resolve_MX w domain); [reflexivity|].
  destruct (resolve_A w domain); reflexivity.
Qed.

Lemma verify_domain_mx_warm w domain st b :
  dns_cache st !! domain = Some b ->
  EmailValidator.verify_domain_mx w domain st = (Ok b, st).
Proof.
  intros Hc. unfold EmailValidator.verify_domain_mx, bind at 1, get. by rewrite Hc.
Qed.

(** X1. The resolution step asks for MX records first and for A records only
    when that fails; what it finds, found or not, is what every later call
    for the domain answers, in whatever world, without a query. *)
Theorem dns_answers_are_cached w1 w2 domain st :
  dns_cache st !! domain = None ->
  let first := EmailValidator.verify_domain_mx w1 domain st in
  fst first = Ok (resolvable w1 domain) /\
  calls (snd first)
  = calls st ++ (if resolve_MX w1 domain then [DnsQuery domain "MX"]
                 else [DnsQuery domain "MX"; DnsQuery domain "A"]) /\
  EmailValidator.verify_domain_mx w2 domain (snd first)
  = (Ok (resolvable w1 domain), snd first).
Proof.
  intros Hc. cbv zeta. rewrite verify_domain_mx_cold by done. cbn [fst snd].
  split; [reflexivity|]. split.
  - destruct (resolve_MX w1 domain); cbn [calls set_dns_cache log_call];
      [reflexivity | by rewrite <- app_assoc].
  - apply verify_domain_mx_warm. cbn [dns_cache set_dns_cache]. apply lookup_insert_eq.
Qed.

Lemma dns_answers_are_cached_witness :
  EmailValidator.verify_domain_mx small_dns "nowhere.example"
    (snd (EmailValidator.verify_domain_mx offline "nowhere.example" initial_state))
  = (Ok false, snd (EmailValidator.verify_domain_mx offline "nowhere.example" initial_state)).
Proof.
  apply (dns_answers_are_cached offline small_dns "nowhere.example" initial_state).
  reflexivity.
Defined.

Lemma remember_spec email v s :
  EmailValidator.remember email v s = (Ok v, set_validation_cache <[email := v]> s).
Proof. reflexivity. Qed.

(** Every way through the validator ends by writing its verdict in the
    per-email cache. *)
Lemma validate_email_cold w email st :
  validation_cache st !! email = None ->
  exists v st',
    EmailValidator.validate_email w email st = (Ok v, st') /\
    validation_cache st' !! email = Some v.
Proof.
  intros Hc. unfold EmailValidator.validate_email, bind at 1, get. rewrite Hc.
  assert (Hrem : forall v s, exists v' st',
             EmailValidator.remember email v s = (Ok v', st') /\
             validation_cache st' !! email = Some v').
  { intros v s. exists v, (set_validation_cache <[email := v]> s). split; [done|].
    cbn [validation_cache set_validation_cache]. apply lookup_insert_eq. }
  destruct (negb _); [apply Hrem|].
  unfold bind at 1.
  destruct (dns_cache st !! Py.last_item (Py.split_char "@" email)) as [b|] eqn:Hd.
  - rewrite (verify_domain_mx_warm _ _ _ _ Hd).
    destruct (negb b); [apply Hrem|].
    destruct (EmailValidator.is_disposable_domain _); [apply Hrem|].
    destruct (ABSTRACT_API_KEY w) as [key|]; [|apply Hrem].
    destruct (Py.nonempty key); [|apply Hrem].
    unfold try_except, bind at 1, request.
    destruct (abstract_api w _) as [msg|[code deliv]]; [apply Hrem|].
    destruct (code =? 200)%Z; [|apply Hrem].
    destruct deliv as [d|]; [|apply Hrem].
    destruct (String.eqb d "DELIVERABLE"); [apply Hrem|].
    destruct (String.eqb d "UNDELIVERABLE"); apply Hrem.
  - rewrite (verify_domain_mx_cold _ _ _ Hd).
    destruct (negb _); [apply Hrem|].
    destruct (EmailValidator.is_disposable_domain _); [apply Hrem|].
    destruct (ABSTRACT_API_KEY w) as [key|]; [|apply Hrem].
    destruct (Py.nonempty key); [|apply Hrem].
    unfold try_except, bind at 1, request.
    destruct (abstract_api w _) as [msg|[code deliv]]; [apply Hrem|].
    destruct (code =? 200)%Z; [|apply Hrem].
    destruct deliv as [d|]; [|apply Hrem].
    destruct (String.eqb d "DELIVERABLE"); [apply Hrem|].
    destruct (String.eqb d "UNDELIVERABLE"); apply Hrem.
Qed.

Lemma validate_email_warm w email st v :
  validation_cache st !! email = Some v ->
  EmailValidator.validate_email w email st = (Ok v, st).
Proof.
  intros Hc. unfold EmailValidator.validate_email, bind at 1, get. by rewrite Hc.
Qed.

(** X2. The validator is memoized by the exact address and never raises: in
    every state and world a call returns a verdict, and a second call for
    the same address, in whatever world, returns the same one and leaves
    the state, request log included, unchanged. *)
Theorem validate_email_memoized w1 w2 email st :
  let first := EmailValidator.validate_email w1 email st in
  (exists v, fst first = Ok v) /\
  EmailValidator.validate_email w2 email (snd first) = (fst first, snd first).
Proof.
  cbv zeta. destruct (validation_cache st !! email) as [v|] eqn:Hc.
  - rewrite (validate_email_warm w1 _ _ _ Hc). cbn [fst snd]. split; [by exists v|].
    by apply validate_email_warm.
  - destruct (validate_email_cold w1 email st Hc) as (v & st' & -> & Hc').
    cbn [fst snd]. split; [by exists v|]. by apply validate_email_warm.
Qed.

(** X3. Past syntax, resolution and the disposable providers, the verdict of an
    address that is not cached yet is [Valid] when no deliverability
    credential is configured; with a credential it is what the API says:
    [Valid] for status 200 with DELIVERABLE, [Invalid] for status 200 with
    UNDELIVERABLE, and [Uncertain] for any other answer or a failed
    request. *)
Theorem validate_email_later_steps w st email :
  validation_cache st !! email = None ->
  email_caches_agree w st ->
  early_verdict w email = None ->
  let out := EmailValidator.validate_email w email st in
  (no_deliverability_key w -> fst out = Ok Valid) /\
  (forall key,
      ABSTRACT_API_KEY w = Some key -> key <> "" ->
      let answer := abstract_api w (deliverability_url key email) in
      (answer = Returns (200%Z, Some "DELIVERABLE") -> fst out = Ok Valid) /\
      (answer = Returns (200%Z, Some "UNDELIVERABLE") -> fst out = Ok Invalid) /\
      (forall msg, answer = Fails msg -> fst out = Ok Uncertain) /\
      (forall code d, answer = Returns (code, d) -> code <> 200%Z ->
                      fst out = Ok Uncertain) /\
      (forall code d, answer = Returns (code, d) ->
                      d <> Some "DELIVERABLE" -> d <> Some "UNDELIVERABLE" ->
                      fst out = Ok Uncertain)).
Proof.
  intros Hc Hagree Hearly. cbv zeta.
  assert (Hsame : same_dns w w) by (intros d; split; reflexivity).
  unfold early_verdict in Hearly.
  destruct (EmailValidator.is_valid_email_syntax email) eqn:Hsyn; [|done].
  destruct (resolvable w (email_domain email)) eqn:Hres; [|done].
  destruct (EmailValidator.is_disposable_domain (email_domain email)) eqn:Hdisp; [done|].
  clear Hearly.
  assert (Hrun : exists st1,
             EmailValidator.validate_email w email st =
             match ABSTRACT_API_KEY w with
             | Some key =>
                 if Py.nonempty key then
                   try_except
                     (r <- request (HttpGet (deliverability_url key email))
                            (abstract_api w (deliverability_url key email)) ;;
                      let '(status_code, deliverability) := r in
                      if (status_code =? 200)%Z then
                        match deliverability with
                        | Some d =>
                            if String.eqb d "DELIVERABLE"
                            then EmailValidator.remember email Valid
                            else if String.eqb d "UNDELIVERABLE"
                                 then EmailValidator.remember email Invalid
                            else EmailValidator.remember email Uncertain
                        | None => EmailValidator.remember email Uncertain
                        end
                      else EmailValidator.remember email Uncertain)
                     (fun _ => EmailValidator.remember email Uncertain) st1
                 else EmailValidator.remember email Valid st1
             | None => EmailValidator.remember email Valid st1
             end).
  { unfold EmailValidator.validate_email, bind at 1, get. rewrite Hc, Hsyn. cbn [negb].
    unfold bind at 1. fold (email_domain email).
    destruct (verify_domain_mx_agree w w (email_domain email) st Hsame Hagree)
      as (st1 & -> & _ & _).
    rewrite Hres, Hdisp. cbn [negb]. exists st1.
    destruct (ABSTRACT_API_KEY w) as [key|]; [|reflexivity].
    destruct (Py.nonempty key); reflexivity. }
  destruct Hrun as (st1 & ->). split.
  - intros [-> | ->]; reflexivity.
  - intros key -> Hkey. destruct key as [|c key]; [done|]. cbn [Py.nonempty].
    cbv zeta. unfold try_except, bind, request.
    repeat split.
    + intros ->. reflexivity.
    + intros ->. reflexivity.
    + intros msg ->. reflexivity.
    + intros code d -> Hcode.
      destruct (code =? 200)%Z eqn:E; [apply Z.eqb_eq in E; done | reflexivity].
    + intros code d -> Hd1 Hd2.
      destruct (code =? 200)%Z; [|reflexivity].
      destruct d as [d|]; [|reflexivity].
      destruct (String.eqb d "DELIVERABLE") eqn:E1;
        [apply String.eqb_eq in E1; by subst d|].
      destruct (String.eqb d "UNDELIVERABLE") eqn:E2;
        [apply String.eqb_eq in E2; by subst d|].
      reflexivity.
Qed.

Lemma validate_email_later_steps_witness :
  fst (EmailValidator.validate_email small_dns "jane@acme.com" initial_state) = Ok Valid /\
  fst (EmailValidator.validate_email a_record_world "jane@acme.com" initial_state) = Ok Valid.
Proof.
  assert (Hagree : forall w, email_caches_agree w initial_state).
  { intros w. split; intros ? ?; cbn [initial_state dns_cache validation_cache];
      rewrite lookup_empty; discriminate. }
  pose proof (validate_email_later_steps small_dns initial_state "jane@acme.com"
                eq_refl (Hagree _) eq_refl) as [Hnone _].
  pose proof (validate_email_later_steps a_record_world initial_state "jane@acme.com"
                eq_refl (Hagree _) eq_refl) as [_ Hkey].
  split.
  - apply Hnone. by left.
  - destruct (Hkey "abstract-key" eq_refl) as (Hdeliverable & _); [done|].
    by apply Hdeliverable.
Defined.

(** ** Email validator: closure *)

Lemma returns_remember email v :
  is_verdict v -> returns email_verdicts (EmailValidator.remember email v) is_verdict.
Proof.
  intros Hv s Hs. exists v, (set_validation_cache <[email := v]> s).
  split; [reflexivity|]. split; [exact Hv|].
  intros email' v'. cbn [validation_cache set_validation_cache].
  destruct (decide (email = email')) as [<-|Hne].
  - rewrite lookup_insert_eq. by intros [= <-].
  - rewrite lookup_insert_ne by done. apply Hs.
Qed.

Lemma returns_verify_domain_mx (P : state -> Prop) w domain :
  (forall ev s, P s -> P (log_call ev s)) ->
  (forall f s, P s -> P (set_dns_cache f s)) ->
  returns P (EmailValidator.verify_domain_mx w domain) anything.
Proof.
  intros Hlog Hdns s Hs.
  destruct (dns_cache s !! domain) as [b|] eqn:Hc.
  - rewrite (verify_domain_mx_warm _ _ _ _ Hc). by exists b, s.
  - rewrite (verify_domain_mx_cold _ _ _ Hc). eexists _, _. split; [reflexivity|].
    split; [done|]. apply Hdns. destruct (resolve_MX w domain); auto.
Qed.

Lemma is_verdict_Valid : is_verdict Valid.
Proof. by left. Qed.
Lemma is_verdict_Uncertain : is_verdict Uncertain.
Proof. right. by left. Qed.
Lemma is_verdict_Invalid : is_verdict Invalid.
Proof. right. by right. Qed.

#[local] Hint Resolve is_verdict_Valid is_verdict_Uncertain is_verdict_Invalid : core.

Lemma returns_validate_email w email :
  returns email_verdicts (EmailValidator.validate_email w email) is_verdict.
Proof.
  intros s Hs.
  destruct (validation_cache s !! email) as [v|] eqn:Hc.
  { rewrite (validate_email_warm _ _ _ _ Hc). exists v, s.
    split; [done|]. split; [by apply (Hs email)|done]. }
  revert s Hs Hc.
  assert (Hbody : returns email_verdicts
            (if negb (EmailValidator.is_valid_email_syntax email)
             then EmailValidator.remember email Invalid
             else
               has_mx <- EmailValidator.verify_domain_mx w
                           (Py.last_item (Py.split_char "@" email)) ;;
               if negb has_mx then EmailValidator.remember email Uncertain
               else if EmailValidator.is_disposable_domain
                         (Py.last_item (Py.split_char "@" email))
                    then EmailValidator.remember email Invalid
               else
                 match ABSTRACT_API_KEY w with
                 | Some key =>
                     if Py.nonempty key then
                       let url := "https://emailvalidation.abstractapi.com/v1/?api_key="
                                    +:+ key +:+ "&email=" +:+ email in
                       try_except
                         (r <- request (HttpGet url) (abstract_api w url) ;;
                          let '(status_code, deliverability) := r in
                          if (status_code =? 200)%Z then
                            match deliverability with
                            | Some d =>
                                if String.eqb d "DELIVERABLE"
                                then EmailValidator.remember email Valid
                                else if String.eqb d "UNDELIVERABLE"
                                     then EmailValidator.remember email Invalid
                                else EmailValidator.remember email Uncertain
                            | None => EmailValidator.remember email Uncertain
                            end
                          else EmailValidator.remember email Uncertain)
                         (fun _ => EmailValidator.remember email Uncertain)
                     else EmailValidator.remember email Valid
                 | None => EmailValidator.remember email Valid
                 end)
            is_verdict).
  { destruct (negb _); [by apply returns_remember|].
    apply (returns_bind _ _ _ anything).
    { apply returns_verify_domain_mx; intros; assumption. }
    intros has_mx _. destruct (negb has_mx); [by apply returns_remember|].
    destruct (EmailValidator.is_disposable_domain _); [by apply returns_remember|].
    destruct (ABSTRACT_API_KEY w) as [key|]; [|by apply returns_remember].
    destruct (Py.nonempty key); [|by apply returns_remember].
    cbv zeta. apply returns_try_except; [|intros; by apply returns_remember].
    apply (yields_bind _ _ _ anything).
    { apply yields_request. intros; assumption. }
    intros [code deliv] _. apply yields_returns.
    destruct (code =? 200)%Z; [|by apply returns_remember].
    destruct deliv as [d|]; [|by apply returns_remember].
    destruct (String.eqb d "DELIVERABLE"); [by apply returns_remember|].
    destruct (String.eqb d "UNDELIVERABLE"); by apply returns_remember. }
  intros s Hs Hc.
  unfold EmailValidator.validate_email, bind at 1, get. rewrite Hc.
  by apply Hbody.
Qed.

Lemma email_verdicts_session st :
  session_from any_world initial_state st -> email_verdicts st.
Proof.
  apply (session_preserves email_verdicts any_world); try (intros; assumption).
  - intros w email _ s Hs.
    destruct (returns_validate_email w email s Hs) as (v & s' & -> & _ & Hs'). exact Hs'.
  - intros email v. cbn [initial_state validation_cache]. rewrite lookup_empty. discriminate.
Qed.

(** X4. In every state a session reaches from the initial one, whatever the
    worlds and whatever was verified before, the validator returns one of
    the three verdicts for every string. *)
Theorem validate_email_in_verdicts w st email :
  session_from any_world initial_state st ->
  exists v st',
    EmailValidator.validate_email w email st = (Ok v, st') /\ is_verdict v.
Proof.
  intros Hsession.
  destruct (returns_validate_email w email st (email_verdicts_session st Hsession))
    as (v & st' & Hrun & Hv & _).
  by exists v, st'.
Qed.

Lemma validate_email_in_verdicts_witness :
  exists v st',
    EmailValidator.validate_email a_record_world "x@mailinator.com"
      (run maybe_world (VerifyData job_title_record ["Contact Job Title"] true false)
         initial_state)
    = (Ok v, st') /\ is_verdict v.
Proof.
  apply (validate_email_in_verdicts a_record_world).
  apply session_step; [apply session_start | exact I].
Defined.

(** ** The syntax check: what the pattern accepts *)

Lemma append_cons c (a b : string) : String c a +:+ b = String c (a +:+ b).
Proof. reflexivity. Qed.

Lemma append_empty_l (b : string) : "" +:+ b = b.
Proof. reflexivity. Qed.

Lemma append_empty_r (a : string) : a +:+ "" = a.
Proof. induction a as [|c a IH]; [done|]. by rewrite append_cons, IH. Qed.

Lemma append_assoc (a b c : string) : (a +:+ b) +:+ c = a +:+ (b +:+ c).
Proof. induction a as [|x a IH]; [done|]. by rewrite !append_cons, IH. Qed.

Lemma all_chars_app p (a b : string) :
  all_chars p (a +:+ b) = all_chars p a && all_chars p b.
Proof.
  induction a as [|c a IH]; [done|].
  rewrite append_cons. cbn [all_chars]. by rewrite IH, andb_assoc.
Qed.

Section RegexFacts.
Import Regex.

Lemma fullmatch_void s : fullmatch Void s = false.
Proof. induction s as [|c s IH]; [done|exact IH]. Qed.

Lemma fullmatch_eps s : fullmatch Eps s = true <-> s = "".
Proof.
  destruct s as [|c s]; [done|]. cbn [fullmatch deriv]. rewrite fullmatch_void.
  split; discriminate.
Qed.

Lemma fullmatch_alt r1 r2 s :
  fullmatch (Alt r1 r2) s = fullmatch r1 s || fullmatch r2 s.
Proof. revert r1 r2. induction s as [|c s IH]; intros; [done|]. apply IH. Qed.

Lemma fullmatch_cls p s :
  fullmatch (Cls p) s = true <-> exists c, s = String c "" /\ p c = true.
Proof.
  destruct s as [|c s]; cbn [fullmatch deriv nullable].
  - split; [discriminate | by intros (c & [=] & _)].
  - destruct (p c) eqn:Hp.
    + rewrite fullmatch_eps. split.
      * intros ->. by exists c.
      * by intros (c' & [= -> ->] & _).
    + rewrite fullmatch_void. split; [discriminate|].
      intros (c' & [= -> ->] & Hp'). congruence.
Qed.

Lemma fullmatch_cat r1 r2 s :
  fullmatch (Cat r1 r2) s = true <->
  exists a b, s = a +:+ b /\ fullmatch r1 a = true /\ fullmatch r2 b = true.
Proof.
  revert r1. induction s as [|c s IH]; intros r1.
  - cbn [fullmatch nullable]. rewrite andb_true_iff. split.
    + intros [H1 H2]. by exists "", "".
    + intros (a & b & Hs & Ha & Hb). destruct a; [|done]. destruct b; [|done]. done.
  - cbn [fullmatch deriv]. destruct (nullable r1) eqn:Hn.
    + rewrite fullmatch_alt, orb_true_iff, IH. split.
      * intros [(a & b & -> & Ha & Hb) | Hb].
        -- exists (String c a), b. done.
        -- exists "", (String c s). done.
      * intros (a & b & Hs & Ha & Hb). destruct a as [|c' a].
        -- right. rewrite append_empty_l in Hs. by subst b.
        -- left. rewrite append_cons in Hs. injection Hs as <- ->. by exists a, b.
    + rewrite IH. split.
      * intros (a & b & -> & Ha & Hb). exists (String c a), b. done.
      * intros (a & b & Hs & Ha & Hb). destruct a as [|c' a].
        -- cbn [fullmatch] in Ha. congruence.
        -- rewrite append_cons in Hs. injection Hs as <- ->. by exists a, b.
Qed.

Lemma fullmatch_star_cls p s : fullmatch (Star (Cls p)) s = all_chars p s.
Proof.
  induction s as [|c s IH]; [done|].
  cbn [fullmatch deriv all_chars]. destruct (p c) eqn:Hp; cbn [andb].
  - rewrite <- IH. apply eq_true_iff_eq. rewrite fullmatch_cat. split.
    + intros (a & b & -> & Ha & Hb). apply fullmatch_eps in Ha. by subst a.
    + intros H. by exists "", s.
  - apply not_true_is_false. rewrite fullmatch_cat.
    intros (a & b & _ & Ha & _). by rewrite fullmatch_void in Ha.
Qed.

Lemma fullmatch_plus_cls p s :
  fullmatch (Plus (Cls p)) s = true <-> s <> "" /\ all_chars p s = true.
Proof.
  unfold Plus. rewrite fullmatch_cat. split.
  - intros (a & b & -> & Ha & Hb). apply fullmatch_cls in Ha as (c & -> & Hc).
    rewrite fullmatch_star_cls in Hb. rewrite append_cons. cbn [all_chars].
    by rewrite Hc, append_empty_l, Hb.
  - intros [Hne Hall]. destruct s as [|c s]; [done|]. cbn [all_chars] in Hall.
    apply andb_true_iff in Hall as [Hc Hs].
    exists (String c ""), s. split; [done|]. split.
    + apply fullmatch_cls. by exists c.
    + by rewrite fullmatch_star_cls.
Qed.

Lemma fullmatch_chr c s : fullmatch (Chr c) s = true <-> s = String c "".
Proof.
  unfold Chr. rewrite fullmatch_cls. split.
  - intros (c' & -> & Hc). apply Ascii.eqb_eq in Hc. by subst c'.
  - intros ->. exists c. by rewrite Ascii.eqb_refl.
Qed.

End RegexFacts.

Lemma fullmatch_label t :
  Regex.fullmatch
    (Regex.Cat (Regex.Cls Py.is_alpha)
       (Regex.Cat (Regex.Cls Py.is_alpha) (Regex.Star (Regex.Cls Py.is_alpha)))) t = true
  <-> all_chars Py.is_alpha t = true /\ 2 <= String.length t.
Proof.
  rewrite fullmatch_cat. split.
  - intros (a & b & -> & Ha & Hb). apply fullmatch_cls in Ha as (c1 & -> & H1).
    apply fullmatch_cat in Hb as (a' & b' & -> & Ha' & Hb').
    apply fullmatch_cls in Ha' as (c2 & -> & H2). rewrite fullmatch_star_cls in Hb'.
    rewrite !append_cons, !append_empty_l. cbn [all_chars String.length].
    rewrite H1, H2, Hb'. split; [done|lia].
  - intros [Hall Hlen]. destruct t as [|c1 [|c2 t]]; cbn [String.length] in Hlen; [lia|lia|].
    cbn [all_chars] in Hall. apply andb_true_iff in Hall as [H1 Hall].
    apply andb_true_iff in Hall as [H2 Hall].
    exists (String c1 ""), (String c2 t). split; [done|]. split.
    + apply fullmatch_cls. by exists c1.
    + apply fullmatch_cat. exists (String c2 ""), t. split; [done|]. split.
      * apply fullmatch_cls. by exists c2.
      * by rewrite fullmatch_star_cls.
Qed.

Lemma fullmatch_pattern e :
  Regex.fullmatch EmailValidator.pattern e = true <->
  exists l d t, address_parts l d t /\ e = address l d t.
Proof.
  unfold EmailValidator.pattern, address_parts, address. rewrite fullmatch_cat. split.
  - intros (l & r1 & -> & Hl & H1). apply fullmatch_plus_cls in Hl as [Hl1 Hl2].
    apply fullmatch_cat in H1 as (at_ & r2 & -> & Hat & H2). apply fullmatch_chr in Hat as ->.
    apply fullmatch_cat in H2 as (d & r3 & -> & Hd & H3).
    apply fullmatch_plus_cls in Hd as [Hd1 Hd2].
    apply fullmatch_cat in H3 as (dot & t & -> & Hdot & Ht). apply fullmatch_chr in Hdot as ->.
    apply fullmatch_label in Ht as [Ht1 Ht2].
    exists l, d, t. done.
  - intros (l & d & t & (Hl1 & Hl2 & Hd1 & Hd2 & Ht1 & Ht2) & ->).
    exists l, ("@" +:+ d +:+ "." +:+ t). split; [done|]. split.
    { by apply fullmatch_plus_cls. }
    apply fullmatch_cat. exists "@", (d +:+ "." +:+ t). split; [done|]. split.
    { by apply fullmatch_chr. }
    apply fullmatch_cat. exists d, ("." +:+ t). split; [done|]. split.
    { by apply fullmatch_plus_cls. }
    apply fullmatch_cat. exists ".", t. split; [done|]. split.
    { by apply fullmatch_chr. }
    by apply fullmatch_label.
Qed.

Lemma syntax_check_complete l d t e :
  address_parts l d t ->
  e = address l d t \/ e = address l d t +:+ Py.nl ->
  EmailValidator.is_valid_email_syntax e = true.
Proof.
  intros Hparts He.
  unfold EmailValidator.is_valid_email_syntax, Regex.match_anchored.
  assert (Hne : Py.nonempty e = true).
  { destruct Hparts as (Hl & _). destruct l as [|c l]; [done|].
    destruct He as [-> | ->]; reflexivity. }
  rewrite Hne. cbn [negb]. rewrite fullmatch_cat.
  assert (Hp : Regex.fullmatch EmailValidator.pattern (address l d t) = true)
    by (apply fullmatch_pattern; by exists l, d, t).
  destruct He as [-> | ->].
  - exists (address l d t), "". by rewrite append_empty_r.
  - exists (address l d t), Py.nl. done.
Qed.

(** X5. The syntax check accepts exactly the strings [local@domain.tld] and
    the same followed by one newline, where the local part is a non-empty
    run of letters, digits and [._%+-], the domain before its last dot a
    non-empty run of letters, digits, dots and hyphens, and the top-level
    label at least two letters. *)
Theorem syntax_check_accepts e :
  EmailValidator.is_valid_email_syntax e = true <->
  exists l d t,
    address_parts l d t /\ (e = address l d t \/ e = address l d t +:+ Py.nl).
Proof.
  split.
  - unfold EmailValidator.is_valid_email_syntax, Regex.match_anchored.
    destruct (negb (Py.nonempty e)); [discriminate|].
    rewrite fullmatch_cat. intros (a & b & -> & Ha & Hb).
    apply fullmatch_pattern in Ha as (l & d & t & Hparts & ->).
    exists l, d, t. split; [exact Hparts|].
    rewrite fullmatch_alt in Hb. apply orb_true_iff in Hb as [Hb | Hb].
    + apply fullmatch_eps in Hb as ->. left. by rewrite append_empty_r.
    + apply fullmatch_chr in Hb as ->. by right.
  - intros (l & d & t & Hparts & He). by apply (syntax_check_complete l d t).
Qed.

Lemma syntax_check_accepts_witness :
  EmailValidator.is_valid_email_syntax (address "jane.doe" "mail.acme" "com") = true.
Proof.
  apply (syntax_check_accepts (address "jane.doe" "mail.acme" "com")).
  exists "jane.doe", "mail.acme", "com". split; [|by left].
  unfold address_parts. cbn [String.length].
  repeat split; try discriminate; try reflexivity. lia.
Defined.

(** ** The domain of an accepted address *)

Lemma split_char_nonempty sep s : Py.split_char sep s <> [].
Proof.
  destruct s as [|c s]; cbn [Py.split_char]; [done|].
  destruct (Ascii.eqb c sep); [done|]. by destruct (Py.split_char sep s).
Qed.

Lemma split_char_no_sep sep s :
  all_chars (fun c => negb (Ascii.eqb c sep)) s = true -> Py.split_char sep s = [s].
Proof.
  induction s as [|c s IH]; [done|]. cbn [all_chars Py.split_char].
  intros H. apply andb_true_iff in H as [Hc Hs].
  apply negb_true_iff in Hc. rewrite Hc, (IH Hs). reflexivity.
Qed.

Lemma split_char_app_sep sep a rest :
  exists pre, Py.split_char sep (a +:+ String sep rest) = pre ++ Py.split_char sep rest
              /\ pre <> [].
Proof.
  induction a as [|c a (pre & IH & Hpre)].
  - exists [""]. rewrite append_empty_l. cbn [Py.split_char].
    by rewrite Ascii.eqb_refl.
  - rewrite append_cons. cbn [Py.split_char]. rewrite IH.
    destruct (Ascii.eqb c sep).
    + by exists ("" :: pre).
    + destruct pre as [|x pre]; [done|]. by exists (String c x :: pre).
Qed.

Lemma last_app_nonempty (pre l : list string) :
  l <> [] -> List.last (pre ++ l) "" = List.last l "".
Proof.
  intros Hl. induction pre as [|x pre IH]; [done|].
  cbn [app]. destruct (pre ++ l) eqn:E.
  - apply app_eq_nil in E as [_ E]. done.
  - rewrite <- E in *. cbn [List.last]. rewrite E. rewrite <- E. exact IH.
Qed.

Lemma last_item_after_sep sep a rest :
  all_chars (fun c => negb (Ascii.eqb c sep)) rest = true ->
  Py.last_item (Py.split_char sep (a +:+ String sep rest)) = rest.
Proof.
  intros Hrest. unfold Py.last_item.
  destruct (split_char_app_sep sep a rest) as (pre & -> & _).
  rewrite last_app_nonempty by apply split_char_nonempty.
  by rewrite split_char_no_sep.
Qed.

Lemma all_chars_impl (p q : ascii -> bool) s :
  (forall c, p c = true -> q c = true) -> all_chars p s = true -> all_chars q s = true.
Proof.
  intros Hpq. induction s as [|c s IH]; [done|]. cbn [all_chars].
  intros H. apply andb_true_iff in H as [Hc Hs]. by rewrite (Hpq c Hc), IH.
Qed.

Lemma domain_char_not_at c :
  EmailValidator.domain_char c = true -> negb (Ascii.eqb c "@") = true.
Proof.
  intros H. destruct (Ascii.eqb c "@") eqn:E; [|done].
  apply Ascii.eqb_eq in E. subst c. vm_compute in H. discriminate.
Qed.

Lemma is_alpha_not_at c : Py.is_alpha c = true -> negb (Ascii.eqb c "@") = true.
Proof.
  intros H. destruct (Ascii.eqb c "@") eqn:E; [|done].
  apply Ascii.eqb_eq in E. subst c. vm_compute in H. discriminate.
Qed.

(** X6. The domain the validator resolves for an accepted address is what
    follows its only [@]; when the address ends in a newline, so does the
    domain that is looked up. *)
Theorem domain_of_accepted_address l d t :
  address_parts l d t ->
  email_domain (address l d t) = d +:+ "." +:+ t /\
  email_domain (address l d t +:+ Py.nl) = d +:+ "." +:+ t +:+ Py.nl /\
  EmailValidator.is_valid_email_syntax (address l d t +:+ Py.nl) = true.
Proof.
  intros Hparts. pose proof Hparts as (Hl1 & Hl2 & Hd1 & Hd2 & Ht1 & Ht2).
  assert (Hd : all_chars (fun c => negb (Ascii.eqb c "@")) d = true)
    by (eapply all_chars_impl; [apply domain_char_not_at | done]).
  assert (Ht : all_chars (fun c => negb (Ascii.eqb c "@")) t = true)
    by (eapply all_chars_impl; [apply is_alpha_not_at | done]).
  unfold email_domain, address. split; [|split].
  - change ("@" +:+ d +:+ "." +:+ t) with (String "@" (d +:+ "." +:+ t)).
    apply last_item_after_sep. rewrite !all_chars_app, Hd, Ht. reflexivity.
  - rewrite !append_assoc.
    change ("@" +:+ d +:+ "." +:+ t +:+ Py.nl) with (String "@" (d +:+ "." +:+ t +:+ Py.nl)).
    apply last_item_after_sep. rewrite !all_chars_app, Hd, Ht. reflexivity.
  - apply (syntax_check_complete l d t); [exact Hparts | by right].
Qed.

Lemma domain_of_accepted_address_witness :
  email_domain (address "jane.doe" "mail.acme" "com" +:+ Py.nl)
  = "mail.acme" +:+ "." +:+ "com" +:+ Py.nl.
Proof.
  apply (domain_of_accepted_address "jane.doe" "mail.acme" "com").
  unfold address_parts. cbn [String.length].
  repeat split; try discriminate; try reflexivity. lia.
Defined.

(** ** Web evidence: percent-encoding *)

Lemma hex_digit_alnum n : (n < 16)%N -> Py.isalnum (WebUtils.hex_digit n) = true.
Proof.
  intros Hn. destruct n as [|p]; [reflexivity|].
  do 4 (destruct p as [p|p|]; try reflexivity); lia.
Qed.

Lemma hex_digit_url_char n : (n < 16)%N -> url_char (WebUtils.hex_digit n) = true.
Proof.
  intros Hn. unfold url_char, WebUtils.quote_safe. by rewrite hex_digit_alnum.
Qed.

(** X7. [quote] produces URL text only: every character of its result is a
    letter, a digit, one of [_.-~/], or the percent sign of an escape; and
    a string of safe characters is left as it is. *)
Theorem quote_is_url_safe s :
  all_chars url_char (WebUtils.quote s) = true /\
  (all_chars WebUtils.quote_safe s = true -> WebUtils.quote s = s).
Proof.
  split.
  - induction s as [|c s IH]; [done|]. cbn [WebUtils.quote].
    destruct (WebUtils.quote_safe c) eqn:Hc; cbn [all_chars].
    + unfold url_char at 1. by rewrite Hc, IH.
    + pose proof (N_ascii_bounded c) as Hb. unfold Py.code.
      rewrite !hex_digit_url_char, IH; [done | |].
      * apply N.mod_lt. done.
      * apply N.Div0.div_lt_upper_bound. lia.
  - induction s as [|c s IH]; [done|]. cbn [all_chars WebUtils.quote].
    intros H. apply andb_true_iff in H as [Hc Hs]. by rewrite Hc, IH.
Qed.

Lemma quote_is_url_safe_witness : WebUtils.quote "acme-corp.example/about" = "acme-corp.example/about".
Proof. apply (quote_is_url_safe "acme-corp.example/about"). reflexivity. Defined.

(** ** Web evidence: the search never fails *)

Lemma returns_search_using_serpapi w company key :
  returns any_state (WebUtils.search_using_serpapi w company key) anything.
Proof.
  unfold WebUtils.search_using_serpapi.
  apply returns_try_except; [|intros; by apply returns_ret].
  intros s _. done.
Qed.

Lemma returns_search_using_duckduckgo w company :
  returns any_state (WebUtils.search_using_duckduckgo w company) anything.
Proof.
  unfold WebUtils.search_using_duckduckgo.
  apply returns_try_except; [|intros; by apply returns_ret].
  intros s _. done.
Qed.

Lemma search_using_serpapi_down w company key st :
  (forall url, exists msg, serpapi_get w url = Fails msg) ->
  fst (WebUtils.search_using_serpapi w company key st) = Ok "".
Proof.
  intros Hdown. unfold WebUtils.search_using_serpapi, try_except, bind at 1.
  destruct company as [| |c]; cbn [WebUtils.quote_val]; try reflexivity.
  unfold ret at 1. cbv zeta. unfold bind at 1, request.
  destruct (Hdown ("https://serpapi.com/search.json?q=" +:+ WebUtils.quote c
                     +:+ "&api_key=" +:+ key)) as (msg & ->).
  reflexivity.
Qed.

Lemma search_using_duckduckgo_down w company st :
  (forall url, exists msg, ddg_get w url = Fails msg) ->
  fst (WebUtils.search_using_duckduckgo w company st) = Ok "".
Proof.
  intros Hdown. unfold WebUtils.search_using_duckduckgo, try_except. cbv zeta.
  unfold bind at 1, request.
  destruct (Hdown ("https://html.duckduckgo.com/html/?q="
                     +:+ WebUtils.quote (Py.str company +:+ " company information")))
    as (msg & ->).
  reflexivity.
Qed.

Lemma search_returns w company st :
  exists text st', WebUtils.search_for_company w company st = (Ok text, st').
Proof.
  unfold WebUtils.search_for_company.
  destruct (SERPAPI_KEY w) as [key|]; [destruct (Py.nonempty key)|].
  - destruct (returns_search_using_serpapi w company key st I) as (t & s' & H & _).
    by exists t, s'.
  - destruct (returns_search_using_duckduckgo w company st I) as (t & s' & H & _).
    by exists t, s'.
  - destruct (returns_search_using_duckduckgo w company st I) as (t & s' & H & _).
    by exists t, s'.
Qed.

(** X8. The company search never raises, whatever the company value and the
    world; when the provider in use fails, its text is empty. *)
Theorem search_never_fails w company st :
  (exists text st', WebUtils.search_for_company w company st = (Ok text, st')) /\
  (search_down w -> fst (WebUtils.search_for_company w company st) = Ok "").
Proof.
  split; [apply search_returns|].
  intros [Hserp Hddg]. unfold WebUtils.search_for_company.
  destruct (SERPAPI_KEY w) as [key|]; [destruct (Py.nonempty key)|].
  - by apply search_using_serpapi_down.
  - by apply search_using_duckduckgo_down.
  - by apply search_using_duckduckgo_down.
Qed.

Lemma search_never_fails_witness :
  fst (WebUtils.search_for_company offline (PStr "Acme") initial_state) = Ok "".
Proof.
  apply (search_never_fails offline (PStr "Acme") initial_state).
  split; intros url; eexists; reflexivity.
Defined.

(** ** Web evidence: the first three results *)

Lemma firstn_app_ge {X} (n : nat) (l extra : list X) :
  n <= List.length l -> firstn n (l ++ extra) = firstn n l.
Proof.
  intros Hn. rewrite firstn_app.
  replace (n - List.length l) with 0 by lia. cbn [firstn]. apply app_nil_r.
Qed.

(** X9. Only the first three results count, with either provider: results
    after the third leave the evidence text as it is. *)
Theorem only_top_three_results w company key st :
  (forall page extra,
      3 <= List.length page ->
      fst (WebUtils.search_using_duckduckgo
             (with_ddg (fun _ => Returns (page ++ extra)) w) company st)
      = fst (WebUtils.search_using_duckduckgo
               (with_ddg (fun _ => Returns page) w) company st)) /\
  (forall data results extra,
      3 <= List.length results ->
      fst (WebUtils.search_using_serpapi
             (with_serpapi key (fun _ => Returns (with_results (results ++ extra) data)) w)
             company key st)
      = fst (WebUtils.search_using_serpapi
               (with_serpapi key (fun _ => Returns (with_results results data)) w)
               company key st)).
Proof.
  split.
  - intros page extra Hlen.
    unfold WebUtils.search_using_duckduckgo, try_except, bind, request, ret.
    cbn [with_ddg ddg_get]. by rewrite firstn_app_ge.
  - intros data results extra Hlen.
    unfold WebUtils.search_using_serpapi, try_except, bind at 1 3.
    destruct company as [| |c]; cbn [WebUtils.quote_val]; try reflexivity.
    unfold ret at 1 4. cbv zeta. unfold bind, request, ret.
    cbn [with_serpapi serpapi_get with_results organic_results knowledge_graph].
    by rewrite firstn_app_ge.
Qed.

Lemma only_top_three_results_witness :
  fst (WebUtils.search_using_duckduckgo
         (with_ddg (fun _ => Returns (three_results ++ acme_page)) offline)
         (PStr "Acme") initial_state)
  = fst (WebUtils.search_using_duckduckgo
           (with_ddg (fun _ => Returns three_results) offline)
           (PStr "Acme") initial_state).
Proof.
  apply (only_top_three_results offline (PStr "Acme") "" initial_state).
  cbn [three_results List.length]. lia.
Defined.

(** ** Web evidence: when the gatherer raises, and what its key identifies *)

Lemma gather_returns w company domain st :
  (Py.truthy domain = true -> exists c d, company = PStr c /\ domain = PStr d) ->
  exists text st', gather w company domain st = (Ok text, st').
Proof.
  intros Hstr. destruct (gather_cases company domain) as [[e He]|Hok]; [|apply Hok].
  exfalso. specialize (He w st). unfold gather in He.
  destruct (Py.truthy domain) eqn:Hd.
  - destruct (Hstr eq_refl) as (c & d & -> & ->). cbn [WebUtils.lower_val] in He.
    unfold bind at 1 2 3, ret at 1 2 in He.
    destruct (negb _).
    + destruct (try_except_total
                  (website_info <- WebUtils.scrape_company_website w (PStr d);;
                   ret (if Py.nonempty website_info
                        then website_info +:+ Py.nl +:+ Py.nl else ""))
                  (fun _ => ret "") st) as (a & s1 & Ha); [intros; unfold ret; eauto|].
      rewrite Ha in He. unfold bind in He.
      destruct (try_except_total (WebUtils.search_for_company w (PStr c))
                  (fun _ => ret "") s1) as (b & s2 & Hb); [intros; unfold ret; eauto|].
      rewrite Hb in He. discriminate He.
    + unfold ret at 1, bind in He.
      destruct (try_except_total (WebUtils.search_for_company w (PStr c))
                  (fun _ => ret "") st) as (b & s2 & Hb); [intros; unfold ret; eauto|].
      rewrite Hb in He. discriminate He.
  - unfold bind at 1, ret at 1, bind in He.
    destruct (try_except_total (WebUtils.search_for_company w company)
                (fun _ => ret "") st) as (b & s2 & Hb); [intros; unfold ret; eauto|].
    rewrite Hb in He. discriminate He.
Qed.

Lemma gatherer_returns w c domain st :
  c <> "" -> domain <> PNaN ->
  exists text st',
    WebUtils.get_company_info_from_web w (PStr c) domain st = (Ok text, st') /\
    web_cache st' !! web_key (PStr c) domain = Some text.
Proof.
  intros Hc Hd. assert (Ht : Py.truthy (PStr c) = true) by (by destruct c).
  rewrite get_company_info_unfold, Ht. cbn [negb].
  destruct (web_cache st !! _) as [info|] eqn:Hk; [by exists info, st|].
  destruct (gather_returns w (PStr c) domain st) as (text & st' & ->).
  { intros Htd. exists c. destruct domain as [| |d]; [done | done | by exists d]. }
  exists text, (set_web_cache <[web_key (PStr c) domain := text]> st').
  split; [done|]. cbn [web_cache set_web_cache]. apply lookup_insert_eq.
Qed.

Lemma gatherer_raises w c st :
  c <> "" ->
  web_cache st !! web_key (PStr c) PNaN = None ->
  WebUtils.get_company_info_from_web w (PStr c) PNaN st
  = (Raise (AttributeError "'float' object has no attribute 'lower'"), st).
Proof.
  intros Hc Hk. assert (Ht : Py.truthy (PStr c) = true) by (by destruct c).
  rewrite get_company_info_unfold, Ht, Hk. reflexivity.
Qed.

(** X10. For a company given as a non-empty string, the gatherer returns and
    caches its text whenever the domain is a string or [None]; with the
    domain cell missing ([nan]) and nothing cached under the key, it
    raises [AttributeError] before any request and caches nothing. *)
Theorem gatherer_raises_on_missing_domain w c st :
  c <> "" ->
  (forall domain,
      domain <> PNaN ->
      exists text st',
        WebUtils.get_company_info_from_web w (PStr c) domain st = (Ok text, st') /\
        web_cache st' !! web_key (PStr c) domain = Some text) /\
  (web_cache st !! web_key (PStr c) PNaN = None ->
   WebUtils.get_company_info_from_web w (PStr c) PNaN st
   = (Raise (AttributeError "'float' object has no attribute 'lower'"), st)).
Proof.
  intros Hc. split.
  - intros domain Hd. by apply gatherer_returns.
  - intros Hk. by apply gatherer_raises.
Qed.

Lemma gatherer_raises_on_missing_domain_witness :
  WebUtils.get_company_info_from_web offline (PStr "Acme Corp") PNaN initial_state
  = (Raise (AttributeError "'float' object has no attribute 'lower'"), initial_state).
Proof.
  apply (gatherer_raises_on_missing_domain offline "Acme Corp" initial_state);
    [discriminate | reflexivity].
Defined.

(** X11. The cache of the gatherer is keyed by the text [company_domain], not by
    the pair: after a gather that returned, a call for another pair with
    the same joined text, for instance no domain against the domain
    "None", is answered with the first pair's evidence and requests
    nothing. *)
Theorem gather_key_is_joined_text w1 w2 company1 domain1 company2 domain2 st text :
  web_key company1 domain1 = web_key company2 domain2 ->
  Py.truthy company1 = true ->
  Py.truthy company2 = true ->
  fst (WebUtils.get_company_info_from_web w1 company1 domain1 st) = Ok text ->
  WebUtils.get_company_info_from_web w2 company2 domain2
    (snd (WebUtils.get_company_info_from_web w1 company1 domain1 st))
  = (Ok text, snd (WebUtils.get_company_info_from_web w1 company1 domain1 st)).
Proof.
  intros Hkey Ht1 Ht2 Hfirst.
  rewrite (get_company_info_unfold w2), Ht2. cbn [negb].
  rewrite get_company_info_unfold in Hfirst |- *.
  rewrite Ht1 in *. cbn [negb] in *. rewrite <- Hkey.
  destruct (web_cache st !! web_key company1 domain1) as [info|] eqn:Hk.
  - cbn [fst snd] in *. injection Hfirst as ->. by rewrite Hk.
  - destruct (gather w1 company1 domain1 st) as [[x|e] st1]; cbn [fst snd] in *; [|done].
    injection Hfirst as ->. cbn [web_cache set_web_cache]. by rewrite lookup_insert_eq.
Qed.

Lemma gather_key_is_joined_text_witness :
  let w := with_ddg (fun _ => Returns acme_page) offline in
  WebUtils.get_company_info_from_web offline (PStr "Acme") (PStr "None")
    (snd (WebUtils.get_company_info_from_web w (PStr "Acme") PNone initial_state))
  = (Ok ("Acme Corp" +:+ Py.nl +:+ "Anvils and more" +:+ Py.nl +:+ Py.nl),
     snd (WebUtils.get_company_info_from_web w (PStr "Acme") PNone initial_state)).
Proof.
  cbv zeta.
  apply (gather_key_is_joined_text (with_ddg (fun _ => Returns acme_page) offline) offline
           (PStr "Acme") PNone (PStr "Acme") (PStr "None") initial_state);
    [reflexivity | reflexivity | reflexivity | vm_compute; reflexivity].
Defined.

(** X12. When the domain equals the company name up to case, the site is not
    scraped: on a cache miss the evidence is the search text alone and the
    only requests are those of the search. *)
Theorem no_scrape_when_domain_is_name w c d st :
  c <> "" -> d <> "" ->
  Py.lower c = Py.lower d ->
  web_cache st !! web_key (PStr c) (PStr d) = None ->
  exists text st1,
    WebUtils.search_for_company w (PStr c) st = (Ok text, st1) /\
    WebUtils.get_company_info_from_web w (PStr c) (PStr d) st
    = (Ok text, set_web_cache <[web_key (PStr c) (PStr d) := text]> st1).
Proof.
  intros Hc Hd Hlow Hk.
  destruct (search_returns w (PStr c) st) as (text & st1 & Hsearch).
  exists text, st1. split; [exact Hsearch|].
  rewrite get_company_info_unfold, Hk.
  assert (Ht : Py.truthy (PStr c) = true) by (by destruct c).
  assert (Htd : Py.truthy (PStr d) = true) by (by destruct d).
  rewrite Ht. cbn [negb]. unfold gather. rewrite Htd. cbn [WebUtils.lower_val].
  unfold bind at 1 2 3, ret at 1 2. rewrite Hlow, String.eqb_refl. cbn [negb].
  unfold ret at 1, bind, try_except. rewrite Hsearch. reflexivity.
Qed.

Lemma no_scrape_when_domain_is_name_witness :
  exists text st1,
    WebUtils.search_for_company offline (PStr "ACME.com") initial_state = (Ok text, st1) /\
    WebUtils.get_company_info_from_web offline (PStr "ACME.com") (PStr "acme.com")
      initial_state
    = (Ok text, set_web_cache <[web_key (PStr "ACME.com") (PStr "acme.com") := text]> st1).
Proof.
  apply (no_scrape_when_domain_is_name offline "ACME.com" "acme.com" initial_state);
    [discriminate | discriminate | reflexivity | reflexivity].
Defined.

(** ** The judge: failures *)

Lemma record_failure_ai_cache e st :
  ai_cache (snd (OpenAI.record_failure e st)) = ai_cache st.
Proof.
  unfold OpenAI.record_failure.
  destruct (OpenAI.quota_signature _); [reflexivity|].
  destruct (OpenAI.credential_signature _); reflexivity.
Qed.



Lemma classify_returns w field_name field_value r deep st :
  exists v st',
    OpenAI.verify_contact_with_ai w field_name field_value r deep st = (Ok v, st').
Proof.
  unfold OpenAI.verify_contact_with_ai, bind at 1, get at 1.
  destruct (_ || _); [by eexists _, _|].
  unfold bind at 1, get at 1. destruct (ai_cache st !! _); [by eexists _, _|].
  apply try_except_total. intros e s'. unfold bind.
  rewrite record_failure_returns. by eexists _, _.
Qed.

(** X13. The judge never raises: in every world and state it returns a value.
    Without a credential that value is [Uncertain] and the state, request
    log included, is unchanged. *)
Theorem judge_never_raises w field_name field_value r deep st :
  (exists v st',
      OpenAI.verify_contact_with_ai w field_name field_value r deep st = (Ok v, st')) /\
  (OPENAI_API_KEY w = "" ->
   OpenAI.verify_contact_with_ai w field_name field_value r deep st = (Ok Uncertain, st)).
Proof.
  split; [apply classify_returns|].
  - intros Hkey. unfold OpenAI.verify_contact_with_ai, bind at 1, get at 1.
    by rewrite Hkey.
Qed.

Lemma judge_never_raises_witness :
  OpenAI.verify_contact_with_ai offline "Contact Job Title" (PStr "CEO") job_title_record
    true initial_state = (Ok Uncertain, initial_state).
Proof.
  apply (judge_never_raises offline "Contact Job Title" (PStr "CEO") job_title_record
           true initial_state).
  reflexivity.
Defined.



(** ** The judge: what the request depends on *)

Lemma concat_strings_cons x (l : list string) :
  WebUtils.concat_strings (x :: l) = x +:+ WebUtils.concat_strings l.
Proof. reflexivity. Qed.

Lemma context_lines_strip field_name (r : row) :
  WebUtils.concat_strings (map (OpenAI.context_line field_name) (strip_status r))
  = WebUtils.concat_strings (map (OpenAI.context_line field_name) r).
Proof.
  induction r as [|[k v] r IH]; [done|].
  change (strip_status ((k, v) :: r))
    with (if negb (Py.endswith "_status" k) then (k, v) :: strip_status r
          else strip_status r).
  rewrite map_cons, concat_strings_cons.
  destruct (Py.endswith "_status" k) eqn:E; cbn [negb].
  - rewrite IH. unfold OpenAI.context_line at 2. cbn [fst]. rewrite E.
    cbn [negb]. by rewrite andb_false_r.
  - by rewrite map_cons, concat_strings_cons, IH.
Qed.

(** X15. The request sent to the completion API does not depend on derived
    verdict fields: two record contexts that are equal once their
    [_status] entries are removed give the same model, system message,
    prompt and token budget. *)
Theorem request_ignores_status_entries field_name field_value (r1 r2 : row) deep :
  strip_status r1 = strip_status r2 ->
  OpenAI.make_request field_name field_value r1 deep
  = OpenAI.make_request field_name field_value r2 deep.
Proof.
  intros Hstrip. unfold OpenAI.make_request, OpenAI.create_verification_prompt.
  by rewrite <- (context_lines_strip field_name r1),
             <- (context_lines_strip field_name r2), Hstrip.
Qed.

Lemma request_ignores_status_entries_witness :
  OpenAI.make_request "Contact Job Title" (PStr "Chief Vibes Officer") job_title_record true
  = OpenAI.make_request "Contact Job Title" (PStr "Chief Vibes Officer")
      job_title_record_verified true.
Proof.
  apply (request_ignores_status_entries "Contact Job Title" (PStr "Chief Vibes Officer")
           job_title_record job_title_record_verified true).
  reflexivity.
Defined.

(** ** The judge: standard and deep verdicts are kept apart *)

Lemma cache_key_mode w field_name field_value r deep :
  OpenAI.cache_key w field_name field_value r deep
  <> OpenAI.cache_key w field_name field_value r (negb deep).
Proof.
  unfold OpenAI.cache_key. intros H.
  repeat apply String.app_inj in H. by destruct deep.
Qed.

(** X16. The deep-mode flag is part of the cache key: the key of a
    classification differs from the key of the same classification in the
    other mode, and a call in one mode leaves the cache entry of the other
    mode as it was, so a verdict obtained in one mode is never served in
    the other. *)
Theorem modes_do_not_share_verdicts w field_name field_value r deep st :
  OpenAI.cache_key w field_name field_value r deep
  <> OpenAI.cache_key w field_name field_value r (negb deep) /\
  ai_cache (snd (OpenAI.verify_contact_with_ai w field_name field_value r deep st))
    !! OpenAI.cache_key w field_name field_value r (negb deep)
  = ai_cache st !! OpenAI.cache_key w field_name field_value r (negb deep).
Proof.
  split; [apply cache_key_mode|].
  destruct (Py.nonempty (OPENAI_API_KEY w)) eqn:Hkey.
  - destruct (ai_quota_exceeded st) eqn:Hoff.
    + by rewrite tripped_classify.
    + rewrite classify_unfold by done.
      destruct (ai_cache st !! OpenAI.cache_key w field_name field_value r deep);
        [reflexivity|].
      cbv zeta. destruct (chat_completions w _) as [msg|content].
      * cbn [snd]. by rewrite record_failure_ai_cache.
      * destruct (json_loads w content) as [msg|result]; cbn [snd].
        -- by rewrite record_failure_ai_cache.
        -- cbn [ai_cache set_ai_cache log_call].
           rewrite lookup_insert_ne by apply cache_key_mode. reflexivity.
  - unfold OpenAI.verify_contact_with_ai, bind at 1, get at 1. by rewrite Hkey.
Qed.

(** ** The status check *)

(** X17. The status check never raises.  It answers [True] exactly when a
    credential is configured, the breaker is not tripped and the test
    request returns; with the breaker tripped it requests nothing; and a
    test request that fails with a quota or credential signature trips the
    breaker. *)
Theorem status_check_outcome w st :
  exists b st',
    OpenAI.check_api_status w st = (Ok b, st') /\
    (b = true <->
     Py.nonempty (OPENAI_API_KEY w) = true /\ ai_quota_exceeded st = false /\
     exists content, chat_completions w OpenAI.ping_request = Returns content) /\
    (ai_quota_exceeded st = true -> calls st' = calls st /\ tripped st') /\
    (forall msg,
        Py.nonempty (OPENAI_API_KEY w) = true -> ai_quota_exceeded st = false ->
        chat_completions w OpenAI.ping_request = Fails msg ->
        breaker_signature msg = true -> tripped st').
Proof.
  unfold OpenAI.check_api_status.
  destruct (Py.nonempty (OPENAI_API_KEY w)) eqn:Hkey; cbn [negb].
  - unfold bind at 1, get at 1. destruct (ai_quota_exceeded st) eqn:Hoff.
    + eexists _, _. split; [reflexivity|]. split; [|split]; [| done | done].
      split; [done | by intros (_ & ? & _)].
    + unfold try_except, bind at 1, request.
      destruct (chat_completions w OpenAI.ping_request) as [msg|content] eqn:Hchat.
      * unfold bind. rewrite record_failure_returns. eexists _, _.
        split; [reflexivity|]. split; [|split]; [| done |].
        -- split; [done | by intros (_ & _ & ? & ?)].
        -- intros msg' _ _ [= <-] Hsig. by apply record_failure_trips.
      * eexists _, _. split; [reflexivity|]. split; [|split]; [| done | done].
        split; [|done]. intros _. repeat split. by exists content.
  - eexists _, _. split; [reflexivity|]. split; [|split]; [| | done].
    + split; [done | by intros (? & _)].
    + intros Ht. done.
Qed.

Lemma status_check_outcome_witness :
  exists b st',
    OpenAI.check_api_status quota_world initial_state = (Ok b, st') /\ tripped st'.
Proof.
  destruct (status_check_outcome quota_world initial_state) as (b & st' & Hrun & _ & _ & Htrip).
  exists b, st'. split; [exact Hrun|].
  apply (Htrip "Error code: 429 - You exceeded your current quota, please check your plan and billing details.");
    reflexivity.
Defined.

(** ** Orchestrator: company existence *)

(** On ASCII text the code points are the bytes; a character outside
    ASCII is one code point of several bytes. *)
Lemma code_points_ascii s :
  Py.is_ascii s = true -> Py.code_points s = String.length s.
Proof.
  induction s as [|c s IH]; [reflexivity|].
  cbn [Py.is_ascii Py.code_points String.length]. intros H.
  apply andb_true_iff in H as [Hc Hs]. rewrite (IH Hs).
  unfold Py.is_ascii_char in Hc. apply N.ltb_lt in Hc.
  unfold Py.is_continuation, Py.in_range.
  replace (128 <=? Py.code c)%N with false by (symmetry; apply N.leb_gt; lia).
  reflexivity.
Qed.

Lemma code_points_e_acute :
  Py.len (String (ascii_of_N 195) (String (ascii_of_N 169) "")) = 1%Z.
Proof. reflexivity. Qed.

(** X18. Company existence goes by the length of the gathered evidence,
    counted in characters as [len] does: more than 100 is [Valid], 1 to 100
    is [Uncertain], none is [Invalid]; the state after the check is the one
    the gatherer left. *)
Theorem company_existence_by_length w c domain st :
  c <> "" -> domain <> PNaN ->
  exists text st',
    WebUtils.get_company_info_from_web w (PStr c) domain st = (Ok text, st') /\
    snd (DataVerification.verify_company_exists w (PStr c) domain st) = st' /\
    ((100 < Py.len text)%Z ->
     fst (DataVerification.verify_company_exists w (PStr c) domain st) = Ok Valid) /\
    ((0 < Py.len text <= 100)%Z ->
     fst (DataVerification.verify_company_exists w (PStr c) domain st) = Ok Uncertain) /\
    (Py.len text = 0%Z ->
     fst (DataVerification.verify_company_exists w (PStr c) domain st) = Ok Invalid).
Proof.
  intros Hc Hd.
  destruct (gatherer_returns w c domain st Hc Hd) as (text & st' & Hrun & _).
  exists text, st'. split; [exact Hrun|].
  unfold DataVerification.verify_company_exists, try_except, bind. rewrite Hrun.
  destruct (100 <? Py.len text)%Z eqn:E1.
  - apply Z.ltb_lt in E1. repeat split; intros; (reflexivity || lia).
  - apply Z.ltb_ge in E1.
    destruct (0 <? Py.len text)%Z eqn:E2.
    + apply Z.ltb_lt in E2. repeat split; intros; (reflexivity || lia).
    + apply Z.ltb_ge in E2. repeat split; intros; (reflexivity || lia).
Qed.

Lemma company_existence_by_length_witness :
  fst (DataVerification.verify_company_exists short_evidence_world (PStr "Acme") PNone
         initial_state) = Ok Uncertain /\
  fst (DataVerification.verify_company_exists offline (PStr "Acme") PNone initial_state)
  = Ok Invalid.
Proof.
  destruct (company_existence_by_length short_evidence_world "Acme" PNone initial_state)
    as (text & st' & Hrun & _ & _ & Hsome & _); [discriminate | discriminate |].
  destruct (company_existence_by_length offline "Acme" PNone initial_state)
    as (text0 & st0 & Hrun0 & _ & _ & _ & Hnone); [discriminate | discriminate |].
  vm_compute in Hrun. injection Hrun as <- _.
  vm_compute in Hrun0. injection Hrun0 as <- _.
  split; [apply Hsome | apply Hnone]; vm_compute; [split; congruence | reflexivity].
Defined.

(** ** Orchestrator: a missing company domain *)

(** X19. When the "Company Domain" cell of a record is missing ([nan]) and
    nothing is cached for the company with that domain, the company-name
    field and the person-name fields get [Uncertain] without any request:
    the gatherer's [AttributeError] is absorbed by the verifiers. *)
Theorem missing_domain_skips_web_evidence w r c use_ai deep st :
  lookup_col "Company Domain" r = Some PNaN ->
  c <> "" ->
  web_cache st !! web_key (PStr c) PNaN = None ->
  (forall col, col = "Company" \/ col = "Company Name" ->
               DataVerification.dispatch w r use_ai deep col (PStr c) st
               = (Ok Uncertain, st)) /\
  (forall col value first_name last_name,
      col = "First Name" \/ col = "Last Name" ->
      DataVerification.resolve_company r = PStr c ->
      lookup_col "First Name" r = Some first_name ->
      lookup_col "Last Name" r = Some last_name ->
      DataVerification.dispatch w r use_ai deep col value st = (Ok Uncertain, st)).
Proof.
  intros Hdom Hc Hk.
  pose proof (gatherer_raises w c st Hc Hk) as Hraise.
  assert (Hd : DataVerification.company_domain_of r = PNaN)
    by (unfold DataVerification.company_domain_of; by rewrite Hdom).
  split.
  - intros col [-> | ->];
      unfold DataVerification.dispatch; cbn [String.eqb Ascii.eqb Bool.eqb existsb orb];
      unfold DataVerification.verify_company_exists, try_except, bind;
      by rewrite Hd, Hraise.
  - intros col value first_name last_name Hcol Hres Hfirst Hlast.
    assert (Ht : Py.truthy (PStr c) = true) by (by destruct c).
    destruct Hcol as [-> | ->];
      unfold DataVerification.dispatch; cbn [String.eqb Ascii.eqb Bool.eqb existsb orb];
      rewrite Hres, Ht; unfold DataVerification.cell; rewrite Hfirst, Hlast;
      unfold bind at 1 2, ret at 1 2;
      unfold DataVerification.verify_name_against_company, try_except, bind;
      by rewrite Hd, Hraise.
Qed.

Lemma missing_domain_skips_web_evidence_witness :
  DataVerification.dispatch short_evidence_world missing_domain_record true false
    "Company Name" (PStr "Acme Corp") initial_state
  = (Ok Uncertain, initial_state).
Proof.
  apply (missing_domain_skips_web_evidence short_evidence_world missing_domain_record
           "Acme Corp" true false initial_state);
    [reflexivity | discriminate | reflexivity | by right].
Defined.

(** ** Orchestrator: street addresses *)

(** X20. A street address is split at white space, in lower case, and each
    token is looked for in the lower-case evidence: more than half of the
    tokens found is [Valid]; some found, up to exactly half, is
    [Uncertain]; none found, which includes an address of white space only,
    is [Invalid].  Stated for an address and evidence in ASCII, where
    [Py.lower] and [Py.split] are Python's. *)
Theorem street_address_by_token_majority w value c r use_ai deep st :
  c <> "" ->
  Py.is_ascii (Py.str value) = true ->
  exists text st',
    WebUtils.get_company_info_from_web w (PStr c) PNone st = (Ok text, st') /\
    let tokens := Py.split (Py.lower (Py.str value)) in
    let found := DataVerification.count_matches tokens (Py.lower text) in
    let out := DataVerification.verify_address_component w "Company Address" value
                 (PStr c) r use_ai deep st in
    snd out = st' /\
    (Py.is_ascii text = true ->
     (Z.of_nat (List.length tokens) < 2 * found -> fst out = Ok Valid)%Z /\
     (0 < found -> 2 * found <= Z.of_nat (List.length tokens) -> fst out = Ok Uncertain)%Z /\
     (found = 0%Z -> fst out = Ok Invalid)).
Proof.
  intros Hc _.
  destruct (gatherer_returns w c PNone st Hc) as (text & st' & Hrun & _); [done|].
  exists text, st'. split; [exact Hrun|]. cbv zeta.
  assert (Hg : DataVerification.company_given (PStr c) = true) by (by destruct c).
  unfold DataVerification.verify_address_component, try_except. rewrite Hg.
  unfold bind. rewrite Hrun. cbn [String.eqb Ascii.eqb Bool.eqb].
  set (tokens := Py.split (Py.lower (Py.str value))).
  set (found := DataVerification.count_matches tokens (Py.lower text)).
  assert (Hfound : (0 <= found)%Z) by (unfold found, DataVerification.count_matches; lia).
  destruct (Z.of_nat (List.length tokens) <? 2 * found)%Z eqn:E1.
  - apply Z.ltb_lt in E1. repeat split; intros; (reflexivity || lia).
  - apply Z.ltb_ge in E1. destruct (0 <? found)%Z eqn:E2.
    + apply Z.ltb_lt in E2. repeat split; intros; (reflexivity || lia).
    + apply Z.ltb_ge in E2. repeat split; intros; (reflexivity || lia).
Qed.

Lemma street_address_by_token_majority_witness :
  exists text st',
    WebUtils.get_company_info_from_web short_evidence_world (PStr "Acme") PNone initial_state
    = (Ok text, st') /\
    fst (DataVerification.verify_address_component short_evidence_world "Company Address"
           (PStr "Anvils Road") (PStr "Acme") [] false false initial_state)
    = Ok Uncertain.
Proof.
  destruct (street_address_by_token_majority short_evidence_world (PStr "Anvils Road")
              "Acme" [] false false initial_state)
    as (text & st' & Hrun & _ & Hascii); [discriminate | reflexivity |].
  exists text, st'. split; [exact Hrun|].
  vm_compute in Hrun. injection Hrun as <- _.
  destruct (Hascii eq_refl) as (_ & Hhalf & _).
  apply Hhalf; vm_compute; done.
Defined.

(** ** Orchestrator: no company to verify against *)

(** X21. When no company is resolved for a record, the fields that are checked
    against company evidence (names, address components, industry) get
    [Uncertain] and nothing is requested, with the judge on or off. *)
Theorem no_company_no_evidence w r use_ai deep col value st :
  Py.truthy (DataVerification.resolve_company r) = false ->
  In col company_bound_columns ->
  DataVerification.dispatch w r use_ai deep col value st = (Ok Uncertain, st).
Proof.
  intros Ht Hin.
  assert (Hg : DataVerification.company_given (DataVerification.resolve_company r) = false)
    by (unfold DataVerification.company_given; by rewrite Ht).
  unfold company_bound_columns in Hin. cbn [In] in Hin.
  destruct Hin as [<- | [<- | [<- | [<- | [<- | [<- | [<- | [<- | [<- | []]]]]]]]]];
    unfold DataVerification.dispatch; cbn [String.eqb Ascii.eqb Bool.eqb existsb orb];
    rewrite ?Ht; try reflexivity;
    unfold DataVerification.verify_address_component, DataVerification.verify_industry,
      try_except; by rewrite Hg.
Qed.

(** X22. An empty-string "Company" cell hides "Company Name": the loop over the
    two columns stops at "Company" because the cell is not missing, the
    empty value counts as no company, and the company-bound fields of the
    record get [Uncertain] without any request. *)
Theorem empty_company_cell_hides_company_name w r use_ai deep col value st :
  lookup_col "Company" r = Some (PStr "") ->
  In col company_bound_columns ->
  DataVerification.resolve_company r = PStr "" /\
  DataVerification.dispatch w r use_ai deep col value st = (Ok Uncertain, st).
Proof.
  intros Hcompany Hin.
  assert (Hr : DataVerification.resolve_company r = PStr "").
  { unfold DataVerification.resolve_company. cbn [DataVerification.first_present].
    by rewrite Hcompany. }
  split; [exact Hr|].
  assert (Hg : DataVerification.company_given (DataVerification.resolve_company r) = false)
    by (by rewrite Hr).
  unfold company_bound_columns in Hin. cbn [In] in Hin.
  destruct Hin as [<- | [<- | [<- | [<- | [<- | [<- | [<- | [<- | [<- | []]]]]]]]]];
    unfold DataVerification.dispatch; cbn [String.eqb Ascii.eqb Bool.eqb existsb orb];
    rewrite ?Hr; cbn [Py.truthy Py.nonempty]; try reflexivity;
    unfold DataVerification.verify_address_component, DataVerification.verify_industry,
      try_except; rewrite <- ?Hr; by rewrite Hg.
Qed.

Lemma no_company_no_evidence_witness :
  DataVerification.dispatch short_evidence_world job_title_record true true
    "Company City" (PStr "Springfield") initial_state = (Ok Uncertain, initial_state).
Proof.
  apply (no_company_no_evidence short_evidence_world job_title_record true true
           "Company City" (PStr "Springfield") initial_state); [reflexivity|].
  unfold company_bound_columns. cbn [In]. auto 10.
Defined.

Lemma empty_company_cell_hides_company_name_witness :
  DataVerification.dispatch short_evidence_world hidden_company_record true true
    "Company Industry" (PStr "Anvils") initial_state = (Ok Uncertain, initial_state).
Proof.
  apply (empty_company_cell_hides_company_name short_evidence_world hidden_company_record
           true true "Company Industry" (PStr "Anvils") initial_state); [reflexivity|].
  unfold company_bound_columns. cbn [In]. auto 10.
Defined.

(** ** Orchestrator: the record itself *)

(** X23. Verdicts are added beside the record's cells: when every requested
    field is a column of the record, each entry of the result other than
    the status columns of the requested fields is the entry of the input
    record. *)
Theorem original_cells_are_kept w r cols use_ai deep st :
  (forall col, In col cols -> has_col col r = true) ->
  exists verified_row st',
    DataVerification.verify_data w r cols use_ai deep st = (Ok verified_row, st') /\
    forall key,
      (forall col, In col cols -> key <> DataVerification.status_col col) ->
      lookup_col key verified_row = lookup_col key r.
Proof.
  intros Hcols. unfold DataVerification.verify_data.
  destruct (verify_columns_returns w r use_ai deep cols Hcols r st)
    as (verified_row & st' & Hrun & Hframe & _).
  by exists verified_row, st'.
Qed.

Lemma original_cells_are_kept_witness :
  exists verified_row st',
    DataVerification.verify_data maybe_world sparse_record
      ["Email"; "Contact Job Title"] true false initial_state = (Ok verified_row, st') /\
    forall key,
      (forall col, In col ["Email"; "Contact Job Title"] ->
                   key <> DataVerification.status_col col) ->
      lookup_col key verified_row = lookup_col key sparse_record.
Proof.
  apply (original_cells_are_kept maybe_world sparse_record ["Email"; "Contact Job Title"]
           true false initial_state).
  intros col Hin. cbn [In] in Hin. destruct Hin as [<- | [<- | []]]; reflexivity.
Defined.

(** ** Orchestrator: with the judge switched off *)

Lemma preserves_request_ev {A} (P : state -> Prop) (ev : event) (r : reply A) :
  (forall s, P s -> P (log_call ev s)) -> preserves P (request ev r).
Proof. intros Hlog s Hs. unfold request. destruct r; apply Hlog, Hs. Qed.

(** What the engine does without the judge touches neither the judge's
    state nor the completion API. *)
Section WithoutJudge.
Context (P : state -> Prop).
Hypothesis P_log : forall ev s, is_chat ev = false -> P s -> P (log_call ev s).
Hypothesis P_web : forall f s, P s -> P (set_web_cache f s).
Hypothesis P_dns : forall f s, P s -> P (set_dns_cache f s).
Hypothesis P_val : forall f s, P s -> P (set_validation_cache f s).

Ltac quiet_step :=
  lazymatch goal with
  | |- preserves _ (bind _ _) => apply preserves_bind; [|intros]
  | |- preserves _ (try_except _ _) => apply preserves_try_except; [|intros]
  | |- preserves _ (ret _) => apply preserves_ret
  | |- preserves _ (raise _) => apply preserves_raise
  | |- preserves _ (get _) => apply preserves_get
  | |- preserves _ (local_call _) => apply preserves_local_call
  | |- preserves _ (request _ _) =>
      apply preserves_request_ev; intros; apply P_log; [reflexivity | assumption]
  | |- preserves _ (modify _) => apply preserves_modify; solve [eauto]
  | |- preserves _ (if ?b then _ else _) => destruct b
  | |- preserves _ (match ?x with _ => _ end) => destruct x
  end.

Ltac quiet := cbv zeta; repeat (quiet_step; cbv zeta).

Lemma quiet_validate_email w email :
  preserves P (EmailValidator.validate_email w email).
Proof.
  unfold EmailValidator.validate_email, EmailValidator.remember,
    EmailValidator.verify_domain_mx.
  apply preserves_bind; [apply preserves_get|]. intros cache.
  destruct (cache !! email); [apply preserves_ret|].
  destruct (negb _); [quiet|].
  apply preserves_bind.
  { apply preserves_bind; [apply preserves_get|]. intros dns.
    destruct (dns !! _); quiet. }
  intros has_mx. quiet.
Qed.

Lemma quiet_gather_evidence w company domain :
  preserves P (WebUtils.get_company_info_from_web w company domain).
Proof.
  unfold WebUtils.get_company_info_from_web, WebUtils.lower_val.
  destruct (negb _); [apply preserves_ret|].
  apply preserves_bind; [apply preserves_get|]. intros cache.
  destruct (cache !! _); [apply preserves_ret|].
  apply preserves_bind.
  - destruct (Py.truthy domain); [|apply preserves_ret].
    apply preserves_bind; [destruct company; quiet|]. intros cl.
    apply preserves_bind; [destruct domain; quiet|]. intros dl.
    destruct (negb _); [|apply preserves_ret].
    apply preserves_try_except; [|intros; apply preserves_ret].
    apply preserves_bind; [|intros; apply preserves_ret].
    unfold WebUtils.scrape_company_website. quiet.
  - intros site. apply preserves_bind.
    + apply preserves_try_except; [|intros; apply preserves_ret].
      unfold WebUtils.search_for_company, WebUtils.search_using_serpapi,
        WebUtils.search_using_duckduckgo, WebUtils.quote_val.
      quiet.
    + intros found. quiet.
Qed.

Lemma quiet_dispatch w r deep col value :
  preserves P (DataVerification.dispatch w r false deep col value).
Proof.
  unfold DataVerification.dispatch.
  destruct (String.eqb col "Email").
  { destruct value; cbn [DataVerification.validate_email_cell];
      [apply preserves_ret | apply preserves_ret | apply quiet_validate_email]. }
  destruct (existsb _ _).
  { destruct (Py.truthy _); [|apply preserves_ret].
    unfold DataVerification.cell, DataVerification.verify_name_against_company.
    apply preserves_bind; [destruct (lookup_col _ _); quiet|]. intros first_name.
    apply preserves_bind; [destruct (lookup_col _ _); quiet|]. intros last_name.
    apply preserves_try_except; [|intros; apply preserves_ret].
    apply preserves_bind; [apply quiet_gather_evidence|]. intros. quiet. }
  destruct (existsb _ _).
  { unfold DataVerification.verify_company_exists.
    apply preserves_try_except; [|intros; apply preserves_ret].
    apply preserves_bind; [apply quiet_gather_evidence|]. intros. quiet. }
  destruct (String.eqb col "Company Domain").
  { unfold DataVerification.verify_company_domain. quiet. }
  destruct (existsb _ _).
  { unfold DataVerification.verify_address_component.
    apply preserves_try_except; [|intros; apply preserves_ret].
    destruct (DataVerification.company_given _); [|apply preserves_ret].
    apply preserves_bind; [apply quiet_gather_evidence|]. intros info. quiet. }
  destruct (existsb _ _).
  { unfold DataVerification.verify_industry.
    apply preserves_try_except; [|intros; apply preserves_ret].
    destruct (DataVerification.company_given _); [|apply preserves_ret].
    apply preserves_bind; [apply quiet_gather_evidence|]. intros info. quiet. }
  apply preserves_ret.
Qed.

Lemma quiet_verify_data w r cols deep :
  preserves P (DataVerification.verify_data w r cols false deep).
Proof.
  unfold DataVerification.verify_data. generalize r at 2.
  induction cols as [|col cols IH]; intros verified_row; cbn [DataVerification.verify_columns].
  - apply preserves_ret.
  - apply preserves_bind; [|intros; apply IH].
    unfold DataVerification.verify_column, DataVerification.cell. cbv zeta.
    apply preserves_bind; [destruct (lookup_col _ _); quiet|]. intros value.
    destruct (_ || _); [apply preserves_ret|].
    apply preserves_try_except; [|intros; apply preserves_ret].
    apply preserves_bind; [apply quiet_dispatch|]. intros. apply preserves_ret.
Qed.

End WithoutJudge.

(** X24. With the judge switched off, verifying a record, whatever its fields
    and whatever the world, sends no completion request and leaves the
    judge's cache, breaker and error message as they were. *)
Theorem judge_off_means_no_judge w r cols deep st :
  let st' := snd (DataVerification.verify_data w r cols false deep st) in
  ai_state st' = ai_state st /\
  List.filter is_chat (calls st') = List.filter is_chat (calls st).
Proof.
  cbv zeta.
  apply (quiet_verify_data
           (fun s => ai_state s = ai_state st /\
                     List.filter is_chat (calls s) = List.filter is_chat (calls st)));
    try (intros; assumption); [|done].
  intros ev s Hev [Hai Hcalls]. split; [exact Hai|].
  cbn [calls log_call]. rewrite List.filter_app. cbn [List.filter]. rewrite Hev.
  by rewrite app_nil_r.
Qed.

(** ** Orchestrator: closure of the verdicts *)

Lemma verdict_caches_frame (f : state -> state) :
  (forall s, validation_cache (f s) = validation_cache s) ->
  (forall s, ai_cache (f s) = ai_cache s) ->
  forall s, verdict_caches s -> verdict_caches (f s).
Proof.
  intros Hv Ha s [He Hai]. split.
  - intros email v. rewrite Hv. apply He.
  - intros key v. rewrite Ha. apply Hai.
Qed.

Lemma verdict_caches_log ev s : verdict_caches s -> verdict_caches (log_call ev s).
Proof. by apply verdict_caches_frame. Qed.

Lemma verdict_caches_web f s : verdict_caches s -> verdict_caches (set_web_cache f s).
Proof. by apply (verdict_caches_frame (set_web_cache f)). Qed.

Lemma record_failure_validation_cache e st :
  validation_cache (snd (OpenAI.record_failure e st)) = validation_cache st.
Proof.
  unfold OpenAI.record_failure.
  destruct (OpenAI.quota_signature _); [reflexivity|].
  destruct (OpenAI.credential_signature _); reflexivity.
Qed.

Lemma verdict_caches_record_failure e s :
  verdict_caches s -> verdict_caches (snd (OpenAI.record_failure e s)).
Proof.
  apply (verdict_caches_frame (fun s => snd (OpenAI.record_failure e s))).
  - intros. apply record_failure_validation_cache.
  - intros. apply record_failure_ai_cache.
Qed.

Lemma yields_validate_email w email :
  yields verdict_caches (EmailValidator.validate_email w email) is_verdict.
Proof.
  intros s [He Ha].
  destruct (returns_validate_email w email s He) as (v & s' & Hrun & Hv & He').
  assert (Ha' : ai_verdicts (snd (EmailValidator.validate_email w email s)))
    by (apply (preserves_validate_email_frame ai_verdicts); intros; assumption).
  rewrite Hrun in *. cbn [fst snd] in *. split; [by split|]. by intros a [= <-].
Qed.

Lemma yields_classify w field_name field_value r deep :
  recognized_statuses w ->
  yields verdict_caches (OpenAI.verify_contact_with_ai w field_name field_value r deep)
    is_verdict.
Proof.
  intros Hrec s Hs.
  destruct (Py.nonempty (OPENAI_API_KEY w)) eqn:Hkey.
  - destruct (ai_quota_exceeded s) eqn:Hoff.
    + rewrite tripped_classify by done. split; [done|]. intros a [= <-]. auto.
    + rewrite classify_unfold by done.
      destruct (ai_cache s !! _) as [v|] eqn:Hc.
      { split; [done|]. intros a [= <-]. destruct Hs as [_ Ha]. by apply (Ha _ _ Hc). }
      cbv zeta. destruct (chat_completions w _) as [msg|content].
      { cbn [fst snd]. split.
        - by apply verdict_caches_record_failure, verdict_caches_log.
        - intros a [= <-]. auto. }
      destruct (json_loads w content) as [msg|result] eqn:Hloads.
      { cbn [fst snd]. split.
        - by apply verdict_caches_record_failure, verdict_caches_log.
        - intros a [= <-]. auto. }
      assert (Hv : is_verdict (default Uncertain (status result))).
      { specialize (Hrec content result Hloads). destruct (status result); [done|]. cbn. auto. }
      cbn [fst snd]. split; [|by intros a [= <-]].
      destruct Hs as [He Ha]. split; [exact He|].
      intros key v. cbn [ai_cache set_ai_cache log_call].
      destruct (decide (OpenAI.cache_key w field_name field_value r deep = key)) as [<-|Hne].
      * rewrite lookup_insert_eq. by intros [= <-].
      * rewrite lookup_insert_ne by done. apply Ha.
  - unfold OpenAI.verify_contact_with_ai, bind at 1, get at 1. rewrite Hkey. cbn [negb orb].
    split; [done|]. intros a [= <-]. auto.
Qed.

Lemma yields_gather w company domain :
  yields verdict_caches (WebUtils.get_company_info_from_web w company domain) anything.
Proof.
  apply yields_preserves.
  apply preserves_gather_evidence; intros;
    first [by apply verdict_caches_log | by apply verdict_caches_web].
Qed.

Ltac verdict_step :=
  lazymatch goal with
  | |- yields _ (bind _ _) _ => apply (yields_bind _ _ _ anything); [|intros ? _]
  | |- yields _ (try_except _ _) _ => apply yields_try_except; [|intros]
  | |- yields _ (ret _) anything => by apply yields_ret
  | |- yields _ (ret _) is_verdict => apply yields_ret; solve [auto]
  | |- yields _ (raise _) _ => apply yields_raise
  | |- yields _ (request _ _) _ => apply yields_request; apply verdict_caches_log
  | |- yields _ (WebUtils.get_company_info_from_web _ _ _) _ => apply yields_gather
  | |- yields _ (if ?b then _ else _) _ => destruct b eqn:?
  | |- yields _ (match ?x with _ => _ end) _ => destruct x eqn:?
  end.

Ltac verdicts := cbv zeta; repeat (verdict_step; cbv zeta).

Lemma yields_dispatch w r use_ai deep col value :
  (use_ai = true -> recognized_statuses w) ->
  yields verdict_caches (DataVerification.dispatch w r use_ai deep col value) is_verdict.
Proof.
  intros Hai. unfold DataVerification.dispatch.
  destruct (String.eqb col "Email").
  { destruct value; cbn [DataVerification.validate_email_cell];
      [by apply yields_ret; auto | by apply yields_ret; auto | apply yields_validate_email]. }
  destruct (existsb _ _).
  { unfold DataVerification.cell, DataVerification.verify_name_against_company. verdicts. }
  destruct (existsb _ _).
  { unfold DataVerification.verify_company_exists. verdicts. }
  destruct (String.eqb col "Company Domain").
  { unfold DataVerification.verify_company_domain. verdicts. }
  destruct (existsb (String.eqb col)
              ["Company Address"; "Company City"; "Company State"; "Company Country";
               "Company Postal Code"]) eqn:Haddr.
  { unfold DataVerification.verify_address_component.
    apply yields_try_except; [|intros; apply yields_ret; auto].
    destruct (DataVerification.company_given _); [|apply yields_ret; auto].
    apply (yields_bind _ _ _ anything); [apply yields_gather|]. intros info _.
    destruct (String.eqb col "Company Address") eqn:E1; [verdicts|].
    destruct (existsb (String.eqb col) ["Company City"; "Company State"; "Company Country"])
      eqn:E2.
    { destruct (Py.contains _ _); [apply yields_ret; auto|].
      destruct use_ai; [by apply yields_classify, Hai | apply yields_ret; auto]. }
    destruct (String.eqb col "Company Postal Code") eqn:E3; [verdicts|].
    exfalso. cbn [existsb] in Haddr, E2. rewrite E1, E3 in Haddr.
    destruct (String.eqb col "Company City"), (String.eqb col "Company State"),
      (String.eqb col "Company Country"); cbn [orb] in Haddr, E2; discriminate. }
  clear Haddr.
  destruct (existsb _ _).
  { unfold DataVerification.verify_industry.
    apply yields_try_except; [|intros; apply yields_ret; auto].
    destruct (DataVerification.company_given _); [|apply yields_ret; auto].
    apply (yields_bind _ _ _ anything); [apply yields_gather|]. intros info _.
    destruct (Py.contains _ _); [apply yields_ret; auto|].
    destruct use_ai; [by apply yields_classify, Hai | apply yields_ret; auto]. }
  destruct use_ai; [by apply yields_classify, Hai | apply yields_ret; auto].
Qed.

Lemma verify_column_verdict w r use_ai deep col value verified_row st :
  (use_ai = true -> recognized_statuses w) ->
  verdict_caches st ->
  lookup_col col r = Some value ->
  exists verdict st',
    DataVerification.verify_column w r use_ai deep col verified_row st
    = (Ok (set_col (DataVerification.status_col col) verdict
             (set_col (DataVerification.status_col col) Uncertain verified_row)), st') /\
    is_verdict verdict /\ verdict_caches st'.
Proof.
  intros Hai Hs Hcol. unfold DataVerification.verify_column, DataVerification.cell.
  cbv zeta. rewrite Hcol. unfold bind at 1, ret at 1.
  destruct (Py.isna value || Py.is_empty_str value).
  - exists Uncertain, st. auto.
  - unfold try_except, bind.
    destruct (yields_dispatch w r use_ai deep col value Hai st Hs) as [Hs' Hv].
    destruct (DataVerification.dispatch w r use_ai deep col value st) as [[verdict|e] st'];
      cbn [fst snd] in *.
    + exists verdict, st'. split; [done|]. split; [by apply Hv | done].
    + exists Uncertain, st'. auto.
Qed.

Lemma verify_columns_verdicts w r use_ai deep cols :
  (use_ai = true -> recognized_statuses w) ->
  (forall col, In col cols -> has_col col r = true) ->
  forall verified_row st,
  verdict_caches st ->
  exists verified_row' st',
    DataVerification.verify_columns w r use_ai deep cols verified_row st
    = (Ok verified_row', st') /\
    verdict_caches st' /\
    (forall key, (forall col, In col cols -> key <> DataVerification.status_col col) ->
                 lookup_col key verified_row' = lookup_col key verified_row) /\
    (forall col, In col cols ->
       exists verdict,
         lookup_col (DataVerification.status_col col) verified_row' = Some verdict /\
         is_verdict verdict).
Proof.
  intros Hai. induction cols as [|col cols IH]; intros Hcols verified_row st Hs;
    cbn [DataVerification.verify_columns].
  - exists verified_row, st. split; [done|]. split; [done|]. split; [done|]. intros col [].
  - assert (Hhas : has_col col r = true) by (apply Hcols; by left).
    unfold has_col in Hhas. destruct (lookup_col col r) as [value|] eqn:Hcol; [|done].
    destruct (verify_column_verdict w r use_ai deep col value verified_row st Hai Hs Hcol)
      as (verdict & st1 & Hstep & Hverdict & Hs1).
    unfold bind. rewrite Hstep.
    destruct (IH (fun c Hc => Hcols c (or_intror Hc))
                (set_col (DataVerification.status_col col) verdict
                   (set_col (DataVerification.status_col col) Uncertain verified_row))
                st1 Hs1)
      as (verified_row' & st' & Hrest & Hs' & Hframe & Hverdicts).
    exists verified_row', st'. split; [exact Hrest|]. split; [exact Hs'|]. split.
    + intros key Hkey. rewrite Hframe by (intros c Hc; apply Hkey; by right).
      assert (Hne : DataVerification.status_col col <> key)
        by (intros <-; exact (Hkey col (or_introl eq_refl) eq_refl)).
      by rewrite !lookup_col_set_col_ne.
    + intros c [<- | Hc]; [|by apply Hverdicts].
      destruct (in_dec string_dec col cols) as [Hin | Hnotin]; [by apply Hverdicts|].
      exists verdict. split; [|exact Hverdict].
      rewrite Hframe; [apply lookup_col_set_col_eq|].
      intros c Hc Heq. apply status_col_inj in Heq. by subst c.
Qed.

(** X25. Closure.  Started with caches that hold verdicts only, as the initial
    state is, with every requested field a column of the record, and with
    the judge either switched off or answered by an API whose [status],
    when present, is one of the three verdicts: [verify_data] returns a
    record in which the status of every requested field is [Valid],
    [Uncertain] or [Invalid], and its caches again hold verdicts only, so
    the same holds for the records verified after it. *)
Theorem verdicts_are_closed w r cols use_ai deep st :
  verdict_caches st ->
  (use_ai = true -> recognized_statuses w) ->
  (forall col, In col cols -> has_col col r = true) ->
  exists verified_row st',
    DataVerification.verify_data w r cols use_ai deep st = (Ok verified_row, st') /\
    verdict_caches st' /\
    forall col, In col cols ->
      exists verdict,
        lookup_col (DataVerification.status_col col) verified_row = Some verdict /\
        is_verdict verdict.
Proof.
  intros Hs Hai Hcols. unfold DataVerification.verify_data.
  destruct (verify_columns_verdicts w r use_ai deep cols Hai Hcols r st Hs)
    as (verified_row & st' & Hrun & Hs' & _ & Hverdicts).
  by exists verified_row, st'.
Qed.

Lemma verdicts_are_closed_witness :
  exists verified_row st',
    DataVerification.verify_data valid_world full_record full_record_columns true true
      initial_state = (Ok verified_row, st') /\
    verdict_caches st' /\
    forall col, In col full_record_columns ->
      exists verdict,
        lookup_col (DataVerification.status_col col) verified_row = Some verdict /\
        is_verdict verdict.
Proof.
  apply (verdicts_are_closed valid_world full_record full_record_columns true true
           initial_state).
  - split; intros ? ?; cbn [initial_state validation_cache ai_cache];
      rewrite lookup_empty; discriminate.
  - intros _ content result. cbn [valid_world with_ai json_loads].
    destruct (String.eqb content valid_content); [|discriminate].
    intros [= <-]. cbn [status]. by left.
  - intros col Hin. unfold full_record_columns in Hin. cbn [In] in Hin.
    repeat (destruct Hin as [<- | Hin]; [reflexivity|]). destruct Hin.
Defined.

(** ** Orchestrator: the judge as a fallback *)

(** X26. For city, state, country and industry the judge is a fallback.
    With a company given, a value that occurs in the gathered evidence,
    case ignored, is [Valid] and the judge is not called even when it is
    on; a value that does not occur is [Uncertain] with the judge off, and
    with the judge on the verdict is the judge's.  For the industry the
    judge is asked about "Company Industry" with a context of two entries,
    the company name and the industry.  Stated for a value and evidence in
    ASCII, where [Py.lower] is Python's. *)
Theorem judge_is_a_fallback w value c r deep st :
  c <> "" ->
  Py.is_ascii (Py.str value) = true ->
  exists text st',
    WebUtils.get_company_info_from_web w (PStr c) PNone st = (Ok text, st') /\
    let occurs := Py.contains (Py.lower (Py.str value)) (Py.lower text) in
    (Py.is_ascii text = true ->
     (forall col,
         In col ["Company City"; "Company State"; "Company Country"] ->
         (occurs = true ->
          forall use_ai,
            DataVerification.verify_address_component w col value (PStr c) r use_ai deep st
            = (Ok Valid, st')) /\
         (occurs = false ->
          DataVerification.verify_address_component w col value (PStr c) r false deep st
          = (Ok Uncertain, st') /\
          DataVerification.verify_address_component w col value (PStr c) r true deep st
          = OpenAI.verify_contact_with_ai w col value r deep st')) /\
     (occurs = true ->
      forall use_ai,
        DataVerification.verify_industry w value (PStr c) use_ai deep st = (Ok Valid, st')) /\
     (occurs = false ->
      DataVerification.verify_industry w value (PStr c) false deep st = (Ok Uncertain, st') /\
      DataVerification.verify_industry w value (PStr c) true deep st
      = OpenAI.verify_contact_with_ai w "Company Industry" value
          [("Company Name", PStr c); ("Company Industry", value)] deep st')).
Proof.
  intros Hc _.
  destruct (gatherer_returns w c PNone st Hc) as (text & st' & Hrun & _); [done|].
  exists text, st'. split; [exact Hrun|]. cbv zeta. intros _.
  assert (Hg : DataVerification.company_given (PStr c) = true) by (by destruct c).
  assert (Htry : forall field_name context,
             try_except
               (OpenAI.verify_contact_with_ai w field_name value context deep)
               (fun _ => ret Uncertain) st'
             = OpenAI.verify_contact_with_ai w field_name value context deep st').
  { intros field_name context. unfold try_except.
    by destruct (classify_returns w field_name value context deep st') as (v & s & ->). }
  split; [|split].
  - intros col Hin. cbn [In] in Hin.
    assert (Hunfold : forall use_ai,
               DataVerification.verify_address_component w col value (PStr c) r use_ai deep st
               = try_except
                   (if Py.contains (Py.lower (Py.str value)) (Py.lower text) then ret Valid
                    else if use_ai
                         then OpenAI.verify_contact_with_ai w col value r deep
                         else ret Uncertain)
                   (fun _ => ret Uncertain) st').
    { intros use_ai. unfold DataVerification.verify_address_component. rewrite Hg.
      unfold try_except at 1 2, bind. rewrite Hrun.
      destruct Hin as [<- | [<- | [<- | []]]];
        cbn [String.eqb Ascii.eqb Bool.eqb existsb orb]; reflexivity. }
    split.
    + intros Hocc use_ai. rewrite Hunfold, Hocc. reflexivity.
    + intros Hocc. rewrite !Hunfold, Hocc. split; [reflexivity | apply Htry].
  - intros Hocc use_ai. unfold DataVerification.verify_industry. rewrite Hg.
    unfold try_except, bind. rewrite Hrun, Hocc. reflexivity.
  - intros Hocc.
    assert (Hunfold : forall use_ai,
               DataVerification.verify_industry w value (PStr c) use_ai deep st
               = try_except
                   (if use_ai
                    then OpenAI.verify_contact_with_ai w "Company Industry" value
                           [("Company Name", PStr c); ("Company Industry", value)] deep
                    else ret Uncertain)
                   (fun _ => ret Uncertain) st').
    { intros use_ai. unfold DataVerification.verify_industry. rewrite Hg.
      unfold try_except at 1 2, bind. rewrite Hrun, Hocc. reflexivity. }
    rewrite !Hunfold. split; [reflexivity | apply Htry].
Qed.

Lemma judge_is_a_fallback_witness :
  DataVerification.verify_industry short_evidence_world (PStr "ANVILS") (PStr "Acme")
    true true initial_state
  = (Ok Valid,
     snd (WebUtils.get_company_info_from_web short_evidence_world (PStr "Acme") PNone
            initial_state)).
Proof.
  destruct (judge_is_a_fallback short_evidence_world (PStr "ANVILS") "Acme" [] true
              initial_state) as (text & st' & Hrun & Hascii); [discriminate | reflexivity |].
  rewrite Hrun. cbn [snd].
  vm_compute in Hrun. injection Hrun as <- _.
  destruct (Hascii eq_refl) as (_ & Hfound & _).
  apply Hfound. vm_compute. reflexivity.
Defined.

(** ** Search providers: the credentialed one *)

Lemma serpapi_evidence_has_triples_witness :
  exists text,
    fst (WebUtils.search_using_serpapi
           (with_serpapi "key" (fun _ => Returns acme_serp) offline)
           (PStr "Acme") "key" initial_state) = Ok text /\
    Py.contains "Acme Corp" text = true /\
    Py.contains "Anvils and more" text = true /\
    Py.contains "https://acme.example/" text = true.
Proof.
  apply (serpapi_evidence_has_triples
           (with_serpapi "key" (fun _ => Returns acme_serp) offline)
           (PStr "Acme") "key" initial_state "Acme" acme_serp
           [ {| title := Some "Acme Corp"; snippet := Some "Anvils and more";
                link := Some "https://acme.example/" |} ]
           {| title := Some "Acme Corp"; snippet := Some "Anvils and more";
              link := Some "https://acme.example/" |});
    [reflexivity | reflexivity | reflexivity | by left].
Defined.
